(** * cryptobot: the poll loop, the formatter and the history store

    A shallow embedding of the two variants of the bot:
    - the text variant ([src/unnamed/part_000]): fetch, format, send text;
    - the chart variant ([src/main.go]): fetch, append a sample to the
      per-asset history file, read the series back, send a chart.

    Go values are modelled as follows.
    - [float64] is Rocq's primitive binary64 [float]; arithmetic is the
      IEEE-754 arithmetic of the kernel, the same as Go's.
    - [string] is a sequence of bytes ([String.string]).
    - [map[string]T] is a [gmap string T]; the order in which [range]
      visits it is an explicit argument.
    - files live in a store [gmap string node]; a computation returns,
      panics or ends the process.
    The functions of Go's standard library that the program calls
    ([math.Round], [math.Pow], [fmt.Sprintf], [strings.Split],
    [bufio.Scanner], [bufio.Writer], [os.OpenFile], [time.Format],
    [sort.Strings]) are modelled next to the program, each with the part of
    its behaviour the program can reach.  [strconv.ParseFloat] is a
    parameter, and so is the chart library: what [plotter.NewLinePoints]
    and [p.Save] return, and what [p.Save] leaves at the path of the
    picture. *)

From Stdlib Require Import ZArith QArith Qround Qabs Lqa String Ascii List Lia.
From Stdlib Require Import PrimFloat FloatOps FloatAxioms FloatLemmas SpecFloat Uint63 DecimalString.
From Stdlib Require Import Reals Lra.
From stdpp Require Import gmap strings list sorting.

Set Warnings "-inexact-float".

(* ================================================================== *)
(** * Part I: definitions *)
(* ================================================================== *)

(** ** Strings and Go string literals *)

Definition nl : ascii := "010"%char.
Definition tab : ascii := "009"%char.
Definition cr : ascii := "013"%char.

(** [lit s] decodes the escape sequences of a Go interpreted string literal
    that occur in the program, so that the literals below read as in the
    source. *)
Fixpoint lit (s : string) : string :=
  match s with
  | EmptyString => EmptyString
  | String "\"%char (String "n"%char rest) => String nl (lit rest)
  | String "\"%char (String "t"%char rest) => String tab (lit rest)
  | String "\"%char (String "\"%char rest) => String "\"%char (lit rest)
  | String c rest => String c (lit rest)
  end.

(** Decimal digits of a non-negative integer. *)
Definition digits (n : Z) : string :=
  NilZero.string_of_uint (N.to_uint (Z.to_N n)).

(** [appendInt]-style zero padding to width 2 (for values below 100). *)
Definition two_digits (n : Z) : string :=
  ((if (n <? 10)%Z then "0" else "") +:+ digits n)%string.

(** ** package math *)

Module math.

(** [math.Round]: nearest integer, halves away from zero; zeros,
    infinities and NaN are returned unchanged.  A finite non-zero [x]
    is [(-1)^s * m * 2^e]; when [e < 0] the magnitude is rounded by
    adding one half and truncating, as the bit manipulation of the
    library does. *)
Definition Round (x : float) : float :=
  match Prim2SF x with
  | S754_finite s m e =>
      if (0 <=? e)%Z then x
      else
        let k := (- e)%Z in
        let n := Z.shiftr (Zpos m + Z.shiftl 1 (k - 1)) k in
        let r := of_uint63 (Uint63.of_Z n) in
        if s then (- r)%float else r
  | _ => x
  end.

(** The multiplication loop of [math.Pow] for an integral exponent:
    [x1 * 2^xe] is the running square, [a1 * 2^ae] the answer. *)
Fixpoint pow_loop (fuel : nat) (i : Z) (x1 : float) (xe : Z)
         (a1 : float) (ae : Z) : float * Z :=
  match fuel with
  | O => (a1, ae)
  | S fuel' =>
      if (i =? 0)%Z then (a1, ae)
      else if ((xe <? - 4096) || (4096 <? xe))%Z then (a1, (ae + xe)%Z)
      else
        let '(a1', ae') :=
          if Z.odd i then ((a1 * x1)%float, (ae + xe)%Z) else (a1, ae) in
        let x1' := (x1 * x1)%float in
        let xe' := (2 * xe)%Z in
        let '(x1'', xe'') :=
          if (x1' <? 0.5)%float then ((x1' + x1')%float, (xe' - 1)%Z)
          else (x1', xe') in
        pow_loop fuel' (Z.shiftr i 1) x1'' xe'' a1' ae'
  end.

(** [math.Pow(10, float64(y))] for an [int] [y]: the special cases
    [y == 0] and [y == 1], then the loop over the bits of [|y|]. *)
Definition Pow10 (y : Z) : float :=
  if (y =? 0)%Z then 1%float
  else if (y =? 1)%Z then 10%float
  else
    let '(x1, xe) := Z.frexp 10%float in
    let '(a1, ae) := pow_loop 64 (Z.abs y) x1 xe 1%float 0%Z in
    if (y <? 0)%Z then Z.ldexp (1 / a1)%float (- ae)%Z else Z.ldexp a1 ae.

End math.

(** ** package fmt *)

Module fmt.

(** Nearest integer to [num / den] for [den > 0], halves to even: the
    rounding of a decimal expansion to a fixed number of places. *)
Definition round_half_even (num den : Z) : Z :=
  let q := (num / den)%Z in
  let r := (num mod den)%Z in
  match (2 * r ?= den)%Z with
  | Lt => q
  | Gt => (q + 1)%Z
  | Eq => if Z.even q then q else (q + 1)%Z
  end.

(** The verb [%.2f] on a [float64]: the exact binary value, rounded to
    two decimal places, printed with its sign. *)
Definition FormatFloat_f2 (x : float) : string :=
  match Prim2SF x with
  | S754_nan => "NaN"
  | S754_infinity false => "+Inf"
  | S754_infinity true => "-Inf"
  | S754_zero s => (if s then "-" else "") +:+ "0.00"
  | S754_finite s m e =>
      let n :=
        if (0 <=? e)%Z then (Zpos m * 2 ^ e * 100)%Z
        else round_half_even (Zpos m * 100) (2 ^ (- e)) in
      (if s then "-" else "") +:+ digits (n / 100) +:+ "." +:+
      two_digits (n mod 100)
  end%string.

(** The directives the program uses: [%s], [%.2f] and [%%]; every other
    byte of a format is copied. *)
Inductive directive :=
| DLit (c : ascii)
| DStr
| DFloat2.

Fixpoint parse_format (s : string) : list directive :=
  match s with
  | EmptyString => []
  | String "%"%char (String "s"%char rest) => DStr :: parse_format rest
  | String "%"%char (String "."%char (String "2"%char (String "f"%char rest))) =>
      DFloat2 :: parse_format rest
  | String "%"%char (String "%"%char rest) => DLit "%"%char :: parse_format rest
  | String c rest => DLit c :: parse_format rest
  end.

(** The type of [Sprintf format]: one argument per directive, of the
    type the directive expects. *)
Fixpoint sprintf_type (ds : list directive) : Type :=
  match ds with
  | [] => string
  | DLit _ :: ds' => sprintf_type ds'
  | DStr :: ds' => string -> sprintf_type ds'
  | DFloat2 :: ds' => float -> sprintf_type ds'
  end.

Fixpoint sprintf_go (ds : list directive) (k : string -> string)
  : sprintf_type ds :=
  match ds with
  | [] => k EmptyString
  | DLit c :: ds' => sprintf_go ds' (fun rest => k (String c rest))
  | DStr :: ds' => fun s => sprintf_go ds' (fun rest => k (s +:+ rest))
  | DFloat2 :: ds' =>
      fun x => sprintf_go ds' (fun rest => k (FormatFloat_f2 x +:+ rest))
  end.

Definition Sprintf (format : string) : sprintf_type (parse_format format) :=
  sprintf_go (parse_format format) (fun r => r).

End fmt.

(** ** package strings: Builder *)

Module Builder.
Definition t := string.
Definition empty : t := EmptyString.
Definition WriteString (b : t) (s : string) : t := b +:+ s.
Definition String (b : t) : string := b.
End Builder.

(** ** The formatter (both variants, same text) *)

Definition roundToPrecision (num : float) (precision : Z) : float :=
  let factor := math.Pow10 precision in
  (math.Round (num * factor) / factor)%float.

Definition buildPriceString (token : string)
           (price change1h change24h change7d : float) : string :=
  let priceStr := Builder.empty in
  let priceStr :=
    Builder.WriteString priceStr
      (fmt.Sprintf (lit "%s: %.2f\n") token (roundToPrecision price 2)) in
  let priceStr :=
    if (0 <? change1h)%float then
      Builder.WriteString priceStr
        (fmt.Sprintf (lit "🟩 1h:\n%.2f%%\n") (roundToPrecision change1h 2))
    else
      Builder.WriteString priceStr
        (fmt.Sprintf (lit "🟥 1h:\n%.2f%%\n") (roundToPrecision change1h 2)) in
  let priceStr :=
    if (0 <? change24h)%float then
      Builder.WriteString priceStr
        (fmt.Sprintf (lit "🟩 24h:\n%.2f%%\n") (roundToPrecision change24h 2))
    else
      Builder.WriteString priceStr
        (fmt.Sprintf (lit "🟥 24h:\n%.2f%%\n") (roundToPrecision change24h 2)) in
  let priceStr :=
    if (0 <? change7d)%float then
      Builder.WriteString priceStr
        (fmt.Sprintf (lit "🟩 7d:\n%.2f%%\n") (roundToPrecision change7d 2))
    else
      Builder.WriteString priceStr
        (fmt.Sprintf (lit "🟥 7d:\n%.2f%%\n") (roundToPrecision change7d 2)) in
  let priceStr := Builder.WriteString priceStr (lit "\n") in
  Builder.String priceStr.

(** ** The formatter's rounding in exact arithmetic

    The same two lines of [roundToPrecision] read over the rationals: the
    value the binary64 computation approximates. *)

Module Exact.

(** Nearest integer, halves away from zero. *)
Definition Round (q : Q) : Z :=
  if Qle_bool 0 q then Qfloor (q + (1 # 2))
  else (- Qfloor (- q + (1 # 2)))%Z.

Definition roundToPrecision (num : Q) (precision : Z) : Q :=
  let factor := Qpower (inject_Z 10) precision in
  inject_Z (Round (num * factor)) / factor.

End Exact.

(* ------------------------------------------------------------------ *)
(** ** Outcomes, the world and the monad of the program *)

(** What a failing call reports; the payload is the operation and the
    path, the input text, or the index and the length. *)
Inductive error :=
| ENOENT (op path : string)          (* no such file or directory *)
| EISDIR (op path : string)          (* is a directory *)
| EBADF (op path : string)           (* bad file descriptor *)
| NumError (func input : string)     (* strconv: input does not parse *)
| IndexOutOfRange (index len : nat)  (* runtime error: index out of range *)
| NilDereference                     (* runtime error: nil pointer dereference *)
| LibraryError (msg : string).       (* an error of the chart library *)

(** A file-system entry. *)
Inductive node :=
| RegularFile (content : string)
| Directory.

(** A [plotter.XY]. *)
Record XY := { X : float; Y : float }.

(** What the loop does that the outside can observe. *)
Inductive event :=
| Select (ready : bool)              (* the non-blocking receive on qChan *)
| Get                                (* the request to the pricing API *)
| SendText (text : string)
| SendPhoto (file caption : string) (points : list XY)
| Sleep (minutes : nat)
| WgDone.                            (* the deferred wg.Done() *)

Record World := {
  files : gmap string node;
  trace : list event
}.

(** A call returns, panics, or ends the process ([os.Exit], [log.Fatal]);
    [Pending] is a call that is still running when the environment given
    to the model is used up. *)
Inductive outcome (A : Type) :=
| Return (a : A)
| Panic (e : error)
| Exit (code : Z)
| Pending.
Arguments Return {A} a.
Arguments Panic {A} e.
Arguments Exit {A} code.
Arguments Pending {A}.

Definition M (A : Type) : Type := World -> outcome A * World.

#[export] Instance M_ret : MRet M := fun A a w => (Return a, w).
#[export] Instance M_bind : MBind M := fun A B f m w =>
  match m w with
  | (Return a, w') => f a w'
  | (Panic e, w') => (Panic e, w')
  | (Exit c, w') => (Exit c, w')
  | (Pending, w') => (Pending, w')
  end.

Definition panic {A} (e : error) : M A := fun w => (Panic e, w).
Definition os_Exit {A} (code : Z) : M A := fun w => (Exit code, w).
Definition pending {A} : M A := fun w => (Pending, w).
Definition emit (e : event) : M unit :=
  fun w => (Return tt, {| files := files w; trace := trace w ++ [e] |}).
Definition get_files : M (gmap string node) := fun w => (Return (files w), w).
Definition put_files (fs : gmap string node) : M unit :=
  fun w => (Return tt, {| files := fs; trace := trace w |}).

(** [defer d] around [m]: [d] runs when [m] returns and when it panics,
    not when the process exits, nor while [m] is still running. *)
Definition with_defer {A} (d : M unit) (m : M A) : M A := fun w =>
  match m w with
  | (Return a, w') => (Return a, snd (d w'))
  | (Panic e, w') => (Panic e, snd (d w'))
  | (Exit c, w') => (Exit c, w')
  | (Pending, w') => (Pending, w')
  end.

(** ** package strings: Split on a one-byte separator *)

Module strings.
Fixpoint Split (s : string) (sep : ascii) : list string :=
  match s with
  | EmptyString => [EmptyString]
  | String c rest =>
      if Ascii.eqb c sep then EmptyString :: Split rest sep
      else
        match Split rest sep with
        | field :: fields => String c field :: fields
        | [] => [String c EmptyString]
        end
  end.

(** Whether the byte [c] occurs in [s]. *)
Fixpoint Contains (s : string) (c : ascii) : bool :=
  match s with
  | EmptyString => false
  | String c' rest => Ascii.eqb c' c || Contains rest c
  end.
End strings.

(** ** package os: the two ways the program opens a file *)

Module os.

Inductive flag :=
| O_RDONLY                  (* os.Open *)
| O_APPEND_WRONLY_CREATE.   (* os.O_APPEND|os.O_WRONLY|os.O_CREATE *)

Record File := { Name : string; Flag : flag }.

Definition OpenFile (name : string) (fl : flag) : M (File + error) :=
  fs ← get_files;
  match fs !! name, fl with
  | Some (RegularFile _), _ => mret (inl {| Name := name; Flag := fl |})
  | Some Directory, O_RDONLY => mret (inl {| Name := name; Flag := fl |})
  | Some Directory, O_APPEND_WRONLY_CREATE => mret (inr (EISDIR "open" name))
  | None, O_RDONLY => mret (inr (ENOENT "open" name))
  | None, O_APPEND_WRONLY_CREATE =>
      put_files (<[name := RegularFile EmptyString]> fs);;
      mret (inl {| Name := name; Flag := fl |})
  end.

Definition Open (name : string) : M (File + error) := OpenFile name O_RDONLY.

(** Everything a reader gets from the file before end of file or a read
    error (reading a directory fails at once). *)
Definition ReadAll (f : File) : M string :=
  fs ← get_files;
  match fs !! Name f with
  | Some (RegularFile content) => mret content
  | _ => mret EmptyString
  end.

(** [f.Write] / [f.WriteString]: [None] on success.  A descriptor
    opened read-only refuses the write; one opened with [O_APPEND]
    writes at the end of the file. *)
Definition WriteString (f : File) (s : string) : M (option error) :=
  match Flag f with
  | O_RDONLY => mret (Some (EBADF "write" (Name f)))
  | O_APPEND_WRONLY_CREATE =>
      fs ← get_files;
      match fs !! Name f with
      | Some (RegularFile content) =>
          put_files (<[Name f := RegularFile (content +:+ s)]> fs);;
          mret None
      | _ => mret (Some (EBADF "write" (Name f)))
      end
  end.

End os.

(** ** package bufio *)

Module bufio.

Definition MaxScanTokenSize : Z := 65536.
Definition defaultBufSize : Z := 4096.

Definition len (s : string) : Z := Z.of_nat (String.length s).

Fixpoint dropCR (s : string) : string :=
  match s with
  | EmptyString => EmptyString
  | String c EmptyString => if Ascii.eqb c cr then EmptyString else s
  | String c rest => String c (dropCR rest)
  end.

(** The pieces between newlines; a last piece that is empty is no line. *)
Definition raw_lines (content : string) : list string :=
  let pieces := strings.Split content nl in
  match last pieces with
  | Some EmptyString => removelast pieces
  | _ => pieces
  end.

Fixpoint take_short (ls : list string) : list string :=
  match ls with
  | [] => []
  | l :: ls' =>
      if (len l <? MaxScanTokenSize)%Z then l :: take_short ls' else []
  end.

(** The successive values of [scanner.Text()] while [scanner.Scan()] is
    true, for a scanner with the default split function [ScanLines] and
    the default buffer: the scan stops without a token at the first line
    of [MaxScanTokenSize] bytes or more. *)
Definition ScanLines (content : string) : list string :=
  dropCR <$> take_short (raw_lines content).

(** A [bufio.Writer] of the default size around an [os.File]. *)
Record Writer := { err : option error; buf : string; wr : os.File }.

Definition NewWriter (w : os.File) : Writer :=
  {| err := None; buf := EmptyString; wr := w |}.

Definition Buffered (b : Writer) : Z := len (buf b).
Definition Available (b : Writer) : Z := (defaultBufSize - Buffered b)%Z.

Definition fail (b : Writer) (e : error) : Writer :=
  {| err := Some e; buf := buf b; wr := wr b |}.
Definition fill (b : Writer) (s : string) : Writer :=
  {| err := err b; buf := buf b +:+ s; wr := wr b |}.
Definition drain (b : Writer) : Writer :=
  {| err := err b; buf := EmptyString; wr := wr b |}.

(** Writes [s] straight to the file (the [io.StringWriter] path). *)
Definition forward (b : Writer) (s : string) : M (Writer * option error) :=
  r ← os.WriteString (wr b) s;
  match r with
  | Some e => mret (fail b e, Some e)
  | None => mret (b, None)
  end.

Definition Flush (b : Writer) : M (Writer * option error) :=
  match err b with
  | Some e => mret (b, Some e)
  | None =>
      if (Buffered b =? 0)%Z then mret (b, None)
      else
        r ← os.WriteString (wr b) (buf b);
        match r with
        | Some e => mret (fail b e, Some e)
        | None => mret (drain b, None)
        end
  end.

(** [b.WriteString(s)]: while [s] does not fit the free space, either
    forward it whole (empty buffer) or fill the buffer and flush; then
    copy what is left.  After a successful flush the buffer is empty, so
    the loop body runs at most twice. *)
Definition WriteString (b : Writer) (s : string) : M (Writer * option error) :=
  match err b with
  | Some e => mret (b, Some e)
  | None =>
      if (len s <=? Available b)%Z then mret (fill b s, None)
      else if (Buffered b =? 0)%Z then forward b s
      else
        let n := Z.to_nat (Available b) in
        '(b1, e1) ← Flush (fill b (substring 0 n s));
        match e1 with
        | Some e => mret (b1, Some e)
        | None =>
            let s2 := substring n (String.length s - n) s in
            if (len s2 <=? Available b1)%Z then mret (fill b1 s2, None)
            else forward b1 s2
        end
  end.

End bufio.

(** ** package time: the layout ["2006-01-02 15:00:00"] *)

Module time.

Record Time := { Year : Z; Month : nat; Day : nat; Hour : nat }.

(** [appendInt]: the digits of [|x|] padded with zeros to [width], after
    a minus sign when [x] is negative. *)
Definition appendInt (x : Z) (width : nat) : string :=
  let d := digits (Z.abs x) in
  ((if (x <? 0)%Z then "-" else "") +:+
   string_of_list_ascii (repeat "0"%char (width - String.length d)) +:+ d)%string.

(** In this layout ["2006"], ["01"], ["02"] and ["15"] are the year, the
    month, the day and the hour; [":00:00"] is literal text. *)
Definition Format (t : Time) : string :=
  (appendInt (Year t) 4 +:+ "-" +:+ appendInt (Z.of_nat (Month t)) 2 +:+ "-" +:+
   appendInt (Z.of_nat (Day t)) 2 +:+ " " +:+ appendInt (Z.of_nat (Hour t)) 2 +:+
   ":00:00")%string.

End time.

(** ** package sort *)

Module sort.
(** [sort.Strings]: increasing byte-wise order ([String.le]). *)
Definition Strings (x : list string) : list string := merge_sort String.le x.
End sort.

(* ------------------------------------------------------------------ *)
(** ** The response of the pricing API *)

Record Status := {
  Timestamp : string;
  ErrorCode : Z;
  ErrorMessage : option string;
  Elapsed : Z;
  CreditCount : Z;
  Notice : option string
}.

Record Quote := {
  Price : float;
  Volume24h : float;
  VolumeChange24h : float;
  PercentChange1h : float;
  PercentChange24h : float;
  PercentChange7d : float;
  PercentChange30d : float;
  PercentChange60d : float;
  PercentChange90d : float;
  MarketCap : float;
  MarketCapDominance : float;
  FullyDilutedMarketCap : float;
  Tvl : option string;
  QuoteLastUpdated : string
}.

Record CryptoData := {
  ID : Z;
  CName : string;
  Symbol : string;
  Slug : string;
  NumMarketPairs : Z;
  DateAdded : string;
  Tags : list string;
  MaxSupply : option float;
  CirculatingSupply : float;
  TotalSupply : float;
  IsActive : Z;
  InfiniteSupply : bool;
  Platform : option string;
  CmcRank : Z;
  IsFiat : Z;
  SelfReportedCirculatingSupply : option float;
  SelfReportedMarketCap : option float;
  TvlRatio : option string;
  LastUpdated : string;
  CQuote : gmap string Quote
}.

Record Response := {
  RStatus : Status;
  Data : gmap string CryptoData
}.

(** The zero values that indexing a map yields for a missing key. *)
Definition zeroQuote : Quote :=
  {| Price := 0; Volume24h := 0; VolumeChange24h := 0; PercentChange1h := 0;
     PercentChange24h := 0; PercentChange7d := 0; PercentChange30d := 0;
     PercentChange60d := 0; PercentChange90d := 0; MarketCap := 0;
     MarketCapDominance := 0; FullyDilutedMarketCap := 0; Tvl := None;
     QuoteLastUpdated := EmptyString |}.

Definition zeroCryptoData : CryptoData :=
  {| ID := 0; CName := EmptyString; Symbol := EmptyString; Slug := EmptyString;
     NumMarketPairs := 0; DateAdded := EmptyString; Tags := []; MaxSupply := None;
     CirculatingSupply := 0; TotalSupply := 0; IsActive := 0;
     InfiniteSupply := false; Platform := None; CmcRank := 0; IsFiat := 0;
     SelfReportedCirculatingSupply := None; SelfReportedMarketCap := None;
     TvlRatio := None; LastUpdated := EmptyString; CQuote := ∅ |}.

(** [m[key]] *)
Definition map_get {V} (m : gmap string V) (zero : V) (key : string) : V :=
  default zero (m !! key).

(** What the request and the decoding of its body come to. *)
Inductive fetched :=
| TransportError
| DecodeError
| Decoded (resData : Response).

(** The environment of one iteration of the loop: whether a value can be
    received from [qChan] when the [select] runs, what the request yields,
    the order in which [range resData.Data] visits the keys, and the time
    [time.Now()] returns while a key is processed. *)
Record iteration := {
  stop_ready : bool;
  response : fetched;
  range_order : list string;
  now : string -> time.Time
}.

Definition for_each {A} (body : A -> M unit) : list A -> M unit :=
  fix go (l : list A) : M unit :=
    match l with
    | [] => mret tt
    | a :: l' => body a;; go l'
    end.

(** [for key := range m { keys = append(keys, key) }], with the order of
    the visit given. *)
Definition collect_keys (order : list string) : list string :=
  fold_left (fun keys key => keys ++ [key]) order [].

(** ** The loop of [pollApi] (the same text in both variants)

    [cycle] is the [default] branch of the [select]. *)

Section PollApi.

Variable cycle : iteration -> M unit.

Fixpoint loop (env : list iteration) : M unit :=
  match env with
  | [] => pending
  | it :: env' =>
      emit (Select (stop_ready it));;
      if stop_ready it then mret tt
      else cycle it;; loop env'
  end.

(** [chat] is [None] when [CHANNEL_ID] does not parse or the chat cannot
    be resolved: [log.Fatal] ends the process. *)
Definition pollApi_with (chat : option Z) (env : list iteration) : M unit :=
  with_defer (emit WgDone)
    (match chat with
     | None => os_Exit 1
     | Some _ => loop env
     end).

End PollApi.

(** One caption per asset, in the order of [keys]. *)
Definition caption (value : CryptoData) : string :=
  buildPriceString
    (CName value)
    (Price (map_get (CQuote value) zeroQuote "USD"))
    (PercentChange1h (map_get (CQuote value) zeroQuote "USD"))
    (PercentChange24h (map_get (CQuote value) zeroQuote "USD"))
    (PercentChange7d (map_get (CQuote value) zeroQuote "USD")).

(** ** The text variant ([src/unnamed/part_000]) *)

Module Text.

(** Lines 153-172: the text of one cycle. *)
Definition format (resData : Response) (order : list string) : string :=
  let resStr := Builder.empty in
  let keys := collect_keys order in
  let keys := sort.Strings keys in
  let resStr :=
    fold_left
      (fun resStr key =>
         let value := map_get (Data resData) zeroCryptoData key in
         Builder.WriteString resStr (caption value))
      keys resStr in
  Builder.String resStr.

Definition cycle (it : iteration) : M unit :=
  emit Get;;
  match response it with
  | TransportError => os_Exit 1
  | DecodeError => os_Exit 1
  | Decoded resData =>
      emit (SendText (format resData (range_order it)));;
      emit (Sleep 5)
  end.

Definition pollApi : option Z -> list iteration -> M unit :=
  pollApi_with cycle.

End Text.

(** ** The chart library, as far as the program uses it

    Drawing is not code of the program: what [plotter.NewLinePoints] and
    [p.Save] do is left open, and every statement about the chart variant
    holds for each [Library]. *)

Module plot.

(** How [p.Save] ends: it returns nil, it returns an error, or it
    panics. *)
Inductive saved :=
| Saved
| SaveError (e : error)
| SavePanic (e : error).

(** [NewLinePoints pts] is the error of [plotter.NewLinePoints], with
    which the line and the points it returns are nil.  [Save title pts
    name n] is [p.Save(6*vg.Inch, 6*vg.Inch, name)] for the plot with that
    title and those points, when [n] is what the file system has at
    [name]: how the call ends, and what it leaves at [name]. *)
Record Library := {
  NewLinePoints : list XY -> option error;
  Save : string -> list XY -> string -> option node -> saved * option node
}.

End plot.

(** ** The chart variant ([src/main.go]) *)

Module Chart.

Definition max : nat := 100.

(** [float64(i)] for an index. *)
Definition float64 (i : nat) : float := of_uint63 (Uint63.of_Z (Z.of_nat i)).

(** Lines 124-130: the window of the last [max] lines. *)
Definition scan_loop (lines : list string) : list string :=
  fold_left
    (fun contents line =>
       let contents :=
         if max <=? length contents then drop 1 contents else contents in
       contents ++ [line])
    lines [].

Section WithParser.

(** [strconv.ParseFloat(s, 10)]: [None] when it returns an error. The
    bit size 10 is neither 32 nor 64 and is read as 64. *)
Variable ParseFloat : string -> option float.

(** Lines 132-140, over the indices [idx] still to visit. *)
Fixpoint fill_points (contents : list string) (idx : list nat)
         (pts : list XY) : M (list XY) :=
  match idx with
  | [] => mret pts
  | i :: idx' =>
      match contents !! i with
      | None => panic (IndexOutOfRange i (length contents))
      | Some line =>
          let data := strings.Split line "|" in
          match data !! 1 with
          | None => panic (IndexOutOfRange 1 (length data))
          | Some field =>
              match ParseFloat field with
              | None => panic (NumError "ParseFloat" field)
              | Some price =>
                  fill_points contents idx'
                    (<[i := {| X := float64 i; Y := price |}]> pts)
              end
          end
      end
  end.

(** Lines 143-149: every line through the buffered writer; nothing
    flushes the writer afterwards. *)
Fixpoint write_lines (writer : bufio.Writer) (contents : list string)
  : M bufio.Writer :=
  match contents with
  | [] => mret writer
  | line :: rest =>
      '(writer', e) ← bufio.WriteString writer (line +:+ lit "\n");
      match e with
      | Some e => panic e
      | None => write_lines writer' rest
      end
  end.

Definition fetchPoints (symbolName fname : string) : M (list XY) :=
  r ← os.Open fname;
  match r with
  | inr e => panic e
  | inl file =>
      content ← os.ReadAll file;
      let contents := scan_loop (bufio.ScanLines content) in
      let pts := replicate (length contents) {| X := 0; Y := 0 |} in
      pts ← fill_points contents (seq 0 (length pts)) pts;
      let writer := bufio.NewWriter file in
      write_lines writer contents;;
      mret pts
  end.

(** Lines 207-227 of [pollApi]: the sample of this cycle is appended to
    the history file of the asset. *)
Definition appendSample (key : string) (t : time.Time) (price : float)
  : M string :=
  let fname := fmt.Sprintf ".data.%s" key in
  r ← os.OpenFile fname os.O_APPEND_WRONLY_CREATE;
  match r with
  | inr e => panic e
  | inl f =>
      let tFmt := time.Format t in
      let lastPrice := fmt.Sprintf (lit "%s|%.2f\n") tFmt price in
      e ← os.WriteString f lastPrice;
      match e with
      | Some e => panic e
      | None => mret fname
      end
  end.

(** The history store in the words of the spec: [appendSample], then
    [readSeries] on the same file. *)
Definition sampleAndRead (key : string) (t : time.Time) (price : float)
  : M (list XY) :=
  fname ← appendSample key t price;
  fetchPoints key fname.

(** The chart library that the program is linked with. *)
Variable gonum : plot.Library.

(** Line 242: [p.Save] writes no file but [plotName]. *)
Definition Save (title : string) (pts : list XY) (plotName : string)
  : M (option error) :=
  fun w =>
    let '(r, n) := plot.Save gonum title pts plotName (files w !! plotName) in
    let w' := {| files := partial_alter (fun _ => n) plotName (files w);
                 trace := trace w |} in
    match r with
    | plot.Saved => (Return None, w')
    | plot.SaveError e => (Return (Some e), w')
    | plot.SavePanic e => (Panic e, w')
    end.

(** Lines 205-248: the body of the loop over the sorted keys.  The error
    of [NewLinePoints] is not looked at: with it [line] is nil, and
    [p.Add(line, points)] and [line.Color = ...] dereference it.  An error
    of [p.Save] goes to [log.Fatal].  The photo that is sent is recorded
    with the points it draws. *)
Definition asset (resData : Response) (now : string -> time.Time)
           (key : string) : M unit :=
  let value := map_get (Data resData) zeroCryptoData key in
  fname ← appendSample key (now key) (Price (map_get (CQuote value) zeroQuote "USD"));
  let resStr := caption value in
  pts ← fetchPoints (CName value) fname;
  match plot.NewLinePoints gonum pts with
  | Some _ => panic NilDereference
  | None =>
      let plotName := fmt.Sprintf "%s.png" key in
      r ← Save (CName value) pts plotName;
      match r with
      | Some _ => os_Exit 1
      | None => emit (SendPhoto plotName resStr pts)
      end
  end.

Definition cycle (it : iteration) : M unit :=
  emit Get;;
  match response it with
  | TransportError => os_Exit 1
  | DecodeError => os_Exit 1
  | Decoded resData =>
      let keys := collect_keys (range_order it) in
      let keys := sort.Strings keys in
      for_each (asset resData (now it)) keys;;
      emit (Sleep 15)
  end.

Definition pollApi : option Z -> list iteration -> M unit :=
  pollApi_with cycle.

End WithParser.

End Chart.

(** ** A parser for the texts that [%.2f] writes

    [strconv.ParseFloat] on decimal fixed-point texts: an optional sign,
    decimal digits and an optional fraction.  The result is the binary64
    nearest to the decimal value, ties to even; a value that rounds to an
    infinity is a range error.  On every other text (exponents,
    hexadecimal, infinities, NaN, underscores) this instance answers
    [None]; the results on [fetchPoints] hold for every parser and are
    exercised with this one. *)

Module strconv.

Definition digit_of (c : ascii) : option Z :=
  let n := Z.of_nat (nat_of_ascii c) in
  if ((48 <=? n) && (n <=? 57))%Z then Some (n - 48)%Z else None.

(** Reads digits and at most one point; returns the integer the digits
    spell and the number of digits after the point. *)
Fixpoint readFloat (s : string) (mantissa : Z) (sawdot : bool) (frac : nat)
         (nd : nat) : option (Z * nat) :=
  match s with
  | EmptyString => if (nd =? 0)%nat then None else Some (mantissa, frac)
  | String c rest =>
      if Ascii.eqb c "."%char then
        if sawdot then None else readFloat rest mantissa true frac nd
      else
        match digit_of c with
        | None => None
        | Some d =>
            readFloat rest (mantissa * 10 + d)%Z sawdot
                      (if sawdot then S frac else frac) (S nd)
        end
  end.

(** The binary64 nearest to [num / den] for [num >= 0] and [den > 0]:
    the quotient is scaled into [[2^52, 2^53)] (or to the smallest
    exponent), rounded to an integer and scaled back. *)
Definition nearest (num den : Z) : float :=
  if (num =? 0)%Z then 0%float
  else
    let scaled (e : Z) : Z * Z :=
      if (0 <=? e)%Z then (num, (den * 2 ^ e)%Z) else ((num * 2 ^ (- e))%Z, den) in
    let e0 := (Z.log2 num - Z.log2 den - 53)%Z in
    let e1 :=
      let '(n, d) := scaled e0 in
      if (2 ^ 53 <=? n / d)%Z then (e0 + 1)%Z else e0 in
    let e2 := Z.max e1 (- 1074) in
    let '(n, d) := scaled e2 in
    Z.ldexp (of_uint63 (Uint63.of_Z (fmt.round_half_even n d))) e2.

Definition ParseFloat (s : string) : option float :=
  let '(neg, body) :=
    match s with
    | String "-"%char rest => (true, rest)
    | String "+"%char rest => (false, rest)
    | _ => (false, s)
    end in
  match readFloat body 0 false 0 0 with
  | None => None
  | Some (mantissa, frac) =>
      let f := nearest mantissa (10 ^ Z.of_nat frac) in
      if is_infinity f then None
      else Some (if neg then (- f)%float else f)
  end.

End strconv.

(** ** The layout of the formatter's output, in the words of the spec

    A block is ["marker label:\nvalue%\n"]; the marker is the positive one
    when the percentage is above zero. *)

Definition positive_marker : string := "🟩".
Definition negative_marker : string := "🟥".

Definition marker (pct : float) : string :=
  if (0 <? pct)%float then positive_marker else negative_marker.

(** Above zero: a positive number or the positive infinity. *)
Definition above_zero (x : float) : Prop :=
  match Prim2SF x with
  | S754_finite false _ _ | S754_infinity false => True
  | _ => False
  end.

Definition block (label : string) (pct : float) : string :=
  marker pct +:+ " " +:+ label +:+ ":" +:+ String nl EmptyString +:+
  fmt.FormatFloat_f2 (roundToPrecision pct 2) +:+ "%" +:+ String nl EmptyString.

(** ** The reader, as a function of the lines of the file *)

Definition last_n {A} (n : nat) (l : list A) : list A := drop (length l - n) l.

(** The lines [fetchPoints] keeps. *)
Definition retained (content : string) : list string :=
  last_n Chart.max (bufio.ScanLines content).

(** The bytes the lines take when each is written with its newline. *)
Definition total_bytes (lines : list string) : Z :=
  foldr (fun line acc => (bufio.len line + 1 + acc)%Z) 0%Z lines.

Section Series.

Variable ParseFloat : string -> option float.

(** The price on a line: the second field. *)
Definition price_of (line : string) : option float :=
  field ← strings.Split line "|" !! 1%nat; ParseFloat field.

(** The points for [lines], the first of which has index [i], or the
    panic at the first line that has no second field or no number in it. *)
Fixpoint series_from (i : nat) (lines : list string) : error + list XY :=
  match lines with
  | [] => inr []
  | line :: lines' =>
      let data := strings.Split line "|" in
      match data !! 1%nat with
      | None => inl (IndexOutOfRange 1 (length data))
      | Some field =>
          match ParseFloat field with
          | None => inl (NumError "ParseFloat" field)
          | Some y =>
              match series_from (S i) lines' with
              | inl e => inl e
              | inr pts => inr ({| X := Chart.float64 i; Y := y |} :: pts)
              end
          end
      end
  end.

End Series.

(** ** Text files as lists of lines *)

(** The file made of the lines [ls], each followed by a newline. *)
Fixpoint unlines (ls : list string) : string :=
  match ls with
  | [] => EmptyString
  | l :: ls' => l +:+ String nl (unlines ls')
  end.

(** Every byte of [s] is one of [allowed]. *)
Fixpoint all_in (allowed : string) (s : string) : bool :=
  match s with
  | EmptyString => true
  | String c rest => strings.Contains allowed c && all_in allowed rest
  end.

(** The bytes of a formatted time and of a formatted number. *)
Definition numeric : string := "0123456789-+.: NaInf".

(** A line that the scanner hands over as it is: no newline and no carriage
    return in it, and shorter than the largest token. *)
Definition plain (l : string) : Prop :=
  strings.Contains l nl = false /\ strings.Contains l cr = false /\
  (bufio.len l < bufio.MaxScanTokenSize)%Z.

(** A line that the scanner hands over, with or without a carriage return
    at its end: no newline in it, and shorter than the largest token. *)
Definition scanned (l : string) : Prop :=
  strings.Contains l nl = false /\ (bufio.len l < bufio.MaxScanTokenSize)%Z.

(** Text made of decimal digits only. *)
Definition all_digits (s : string) : bool := all_in "0123456789" s.

(** The number that a text of decimal digits writes. *)
Definition decimal_value (s : string) : Z :=
  fold_left (fun acc c => (10 * acc + (Z.of_nat (nat_of_ascii c) - 48))%Z)
            (list_ascii_of_string s) 0%Z.

(** ["YYYY-MM-DD HH:00:00"] for the year, the month, the day and the hour
    of [t]. *)
Definition timestamp_of (t : time.Time) (s : string) : Prop :=
  exists yyyy mm dd hh : string,
    s = yyyy +:+ "-" +:+ mm +:+ "-" +:+ dd +:+ " " +:+ hh +:+ ":00:00" /\
    (String.length yyyy = 4 /\ all_digits yyyy = true /\
     decimal_value yyyy = time.Year t) /\
    (String.length mm = 2 /\ all_digits mm = true /\
     decimal_value mm = Z.of_nat (time.Month t)) /\
    (String.length dd = 2 /\ all_digits dd = true /\
     decimal_value dd = Z.of_nat (time.Day t)) /\
    (String.length hh = 2 /\ all_digits hh = true /\
     decimal_value hh = Z.of_nat (time.Hour t)).

(** The lines of a file that a newline ends, and what stands after its
    last newline. *)
Definition complete_lines (content : string) : list string :=
  removelast (strings.Split content nl).

Definition open_line (content : string) : string :=
  default EmptyString (last (strings.Split content nl)).

(** A decimal number with two digits after the point. *)
Definition two_decimals (s : string) : Prop :=
  exists sign int frac : string,
    s = sign +:+ int +:+ "." +:+ frac /\
    (sign = "" \/ sign = "-") /\
    (int <> "" /\ all_digits int = true) /\
    (String.length frac = 2 /\ all_digits frac = true).

(** A date of the common era with four digits in the year. *)
Definition valid_time (t : time.Time) : Prop :=
  (0 <= time.Year t <= 9999)%Z /\ 1 <= time.Month t <= 12 /\
  1 <= time.Day t <= 31 /\ time.Hour t <= 23.

(** A number: not an infinity and not NaN. *)
Definition finite (x : float) : Prop :=
  match Prim2SF x with
  | S754_zero _ | S754_finite _ _ _ => True
  | S754_infinity _ | S754_nan => False
  end.

(** ** Binary64 values as real numbers *)

Section Values.

Local Open Scope R_scope.

(** [2^e] as a real number. *)
Definition bpow (e : Z) : R := powerRZ 2 e.

(** The sign bit as a factor. *)
Definition Rsign (s : bool) : R := if s then -1 else 1.

(** The real number that a binary64 value stands for; infinities and NaN
    count as [0] and are excluded by [finite] where it matters. *)
Definition SF2R (x : spec_float) : R :=
  match x with
  | S754_finite s m e => Rsign s * (IZR (Zpos m) * bpow e)
  | _ => 0
  end.

Definition B2R (x : float) : R := SF2R (Prim2SF x).

(** [finite] on the specification side. *)
Definition SFfinite (x : spec_float) : Prop :=
  match x with
  | S754_zero _ | S754_finite _ _ _ => True
  | S754_infinity _ | S754_nan => False
  end.

(** [V] lies at the place that the location [l] tells, between
    [m * 2^e] and [(m + 1) * 2^e]. *)
Definition located (V : R) (m e : Z) (l : location) : Prop :=
  match l with
  | loc_Exact => V = IZR m * bpow e
  | loc_Inexact Lt => IZR m * bpow e < V < (IZR m + / 2) * bpow e
  | loc_Inexact Eq => V = (IZR m + / 2) * bpow e
  | loc_Inexact Gt => (IZR m + / 2) * bpow e < V < (IZR m + 1) * bpow e
  end.

(** The exponent that [binary_round_aux] settles on for [m * 2^e]. *)
Definition cexp (m e : Z) : Z := Z.max e (fexp prec emax (Zdigits2 m + e)).

(** [n] is [y] rounded to the nearest integer, halves away from zero. *)
Definition half_away (y : R) (n : Z) : Prop :=
  (0 <= y -> IZR n - 1 / 2 <= y < IZR n + 1 / 2) /\
  (y <= 0 -> IZR n - 1 / 2 < y <= IZR n + 1 / 2).

(** The exponent of a value: [|x| < 2 ^ magnitude x]. *)
Definition magnitude (x : float) : Z :=
  match Prim2SF x with
  | S754_finite _ m e => (Zdigits2 (Z.pos m) + e)%Z
  | _ => 0%Z
  end.

(** The result is a number within half a cent of [p], up to the rounding
    of the product and of the quotient. *)
Definition rounds_to_cent (p : float) : Prop :=
  finite (roundToPrecision p 2) /\
  Rabs (B2R (roundToPrecision p 2) - B2R p) <=
    1 / 200 + Rabs (B2R p) * bpow (-51) + bpow (-60).

End Values.

(** ** Sample histories *)

(** One line per price, all at the same hour. *)
Definition history (prices : list string) : string :=
  unlines ((fun price => "2024-01-01 00:00:00|" +:+ price) <$> prices).

(** The prices [0.50], [1.50], ..., one per line. *)
Definition numbered (n : nat) : list string :=
  (fun i => digits (Z.of_nat i) +:+ ".50") <$> seq 0 n.

Definition world_with (fname content : string) : World :=
  {| files := {[ fname := RegularFile content ]}; trace := [] |}.

Definition file_content (w : World) (fname : string) : string :=
  match files w !! fname with
  | Some (RegularFile content) => content
  | _ => EmptyString
  end.

(** ** The cycle and the loop, in the words of the spec *)

(** [order] is an order in which [range m] may visit the keys of [m]:
    every key once. *)
Definition ranges {V} (m : gmap string V) (order : list string) : Prop :=
  order ≡ₚ (map_to_list m).*1.

(** The captions of the assets [keys], one after the other. *)
Definition blocks (resData : Response) (keys : list string) : string :=
  foldr (fun key rest =>
           caption (map_get (Data resData) zeroCryptoData key) +:+ rest)
        EmptyString keys.

(** What a cycle does after its request: it publishes and it sleeps. *)
Definition publish_event (e : event) : Prop :=
  match e with
  | SendText _ | SendPhoto _ _ _ | Sleep _ => True
  | Select _ | Get | WgDone => False
  end.

(** The events of one cycle: one request, then what follows it; no check
    of the stop signal and no release of the completion handle. *)
Definition one_cycle (body : list event) : Prop :=
  exists rest, body = Get :: rest /\ Forall publish_event rest.

(** The events of a run of the loop that ends with outcome [o]: each
    iteration checks the signal once, then runs one cycle; a check that
    finds the signal ends the run. *)
Inductive runs : outcome unit -> list event -> Prop :=
| runs_pending : runs Pending []
| runs_stop : runs (Return tt) [Select true]
| runs_cycle (body : list event) (o : outcome unit) (rest : list event) :
    one_cycle body -> runs o rest ->
    runs o (Select false :: body ++ rest)
| runs_exit (body : list event) (code : Z) :
    one_cycle body -> runs (Exit code) (Select false :: body)
| runs_panic (body : list event) (e : error) :
    one_cycle body -> runs (Panic e) (Select false :: body).

(** The completion handle is released when the loop returns (and when a
    panic unwinds it), not before. *)
Definition released (o : outcome unit) : list event :=
  match o with
  | Return _ | Panic _ => [WgDone]
  | Exit _ | Pending => []
  end.

(** The iterations before the signal is there: each checks it, finds
    nothing and runs one cycle. *)
Definition rounds (cycle : iteration -> M unit) (pre : list iteration) : M unit :=
  for_each (fun it => emit (Select false);; cycle it) pre.

(** What the spec asks of the loop [poll] of a variant whose cycle is
    [cycle]. *)
Definition stops_at_signal (cycle : iteration -> M unit)
           (poll : option Z -> list iteration -> M unit) : Prop :=
  forall (chat : Z) (w : World),
    (* the events are those of a run, then the release *)
    (forall env,
        exists tr,
          runs (fst (poll (Some chat) env w)) tr /\
          trace (snd (poll (Some chat) env w))
          = trace w ++ tr ++ released (fst (poll (Some chat) env w))) /\
    (* a signal found at the check: return at once, nothing but the release *)
    (forall it post,
        stop_ready it = true ->
        poll (Some chat) (it :: post) w
        = (Return tt,
           {| files := files w; trace := trace w ++ [Select true; WgDone] |})) /\
    (* what the environment holds after the signal is never looked at *)
    (forall pre it post,
        stop_ready it = true ->
        poll (Some chat) (pre ++ it :: post) w = poll (Some chat) (pre ++ [it]) w) /\
    (* a signal found at a later check: the loop does not go on; it has run
       the cycles before that check and no other, and when these have
       returned it returns there and releases the handle *)
    (forall pre it post,
        Forall (fun i => stop_ready i = false) pre -> stop_ready it = true ->
        fst (poll (Some chat) (pre ++ it :: post) w) <> Pending /\
        poll (Some chat) (pre ++ it :: post) w
        = match rounds cycle pre w with
          | (Return _, w') =>
              (Return tt,
               {| files := files w'; trace := trace w' ++ [Select true; WgDone] |})
          | (Panic e, w') =>
              (Panic e, {| files := files w'; trace := trace w' ++ [WgDone] |})
          | (Exit c, w') => (Exit c, w')
          | (Pending, w') => (Pending, w')
          end).

(** Whether the response of an iteration decodes. *)
Definition decodes (it : iteration) : bool :=
  match response it with
  | Decoded _ => true
  | TransportError | DecodeError => false
  end.

(** The events of an iteration of the text variant that finds no signal
    and whose response decodes. *)
Definition text_round (it : iteration) : list event :=
  match response it with
  | Decoded resData =>
      [Select false; Get; SendText (Text.format resData (range_order it)); Sleep 5]
  | TransportError | DecodeError => [Select false; Get]
  end.

(** A computation that only publishes and sleeps, and does not outlast the
    environment. *)
Definition quiet {A} (m : M A) : Prop :=
  forall w, exists body,
      trace (snd (m w)) = trace w ++ body /\
      Forall publish_event body /\
      fst (m w) <> Pending.

(** A cycle body that makes one request, then only publishes and sleeps. *)
Definition fetches_once (cycle : iteration -> M unit) : Prop :=
  forall it w, exists body,
      trace (snd (cycle it w)) = trace w ++ body /\
      one_cycle body /\
      fst (cycle it w) <> Pending.

(** A chart library for the examples: it refuses a series with a value
    that is not a number, it returns an error when the path of the picture
    is a directory, and every picture it saves is the text ["PNG"]. *)
Definition drawing : plot.Library :=
  {| plot.NewLinePoints := fun pts =>
       if forallb (fun pt => is_finite (X pt) && is_finite (Y pt)) pts then None
       else Some (LibraryError "plotter: NaN or infinite data point");
     plot.Save := fun title pts name n =>
       match n with
       | Some Directory => (plot.SaveError (EISDIR "open" name), n)
       | _ => (plot.Saved, Some (RegularFile "PNG"))
       end |}.

(* ------------------------------------------------------------------ *)
(** ** What [main] starts with *)

(** Whether [godotenv.Load] and [tele.NewBot] succeed, and what [pollApi]
    makes of [CHANNEL_ID]. *)
Record startup := {
  dotenv_loaded : bool;
  bot_created : bool;
  chat_id : option Z
}.

(** One turn of the loop as [main] runs it. [qChan] is made in [main] and
    handed to [pollApi] alone: nothing is ever sent on it, so the receive
    of the [select] never finds a value. *)
Record turn := {
  turn_response : fetched;
  turn_order : list string;
  turn_now : string -> time.Time
}.

Definition unsignalled (t : turn) : iteration :=
  {| stop_ready := false; response := turn_response t;
     range_order := turn_order t; now := turn_now t |}.

Section Main.

Variable pollApi : option Z -> list iteration -> M unit.

(** [main]: [log.Fatal] when the environment file or the bot fails, else
    [go pollApi(b, qChan, &wg)] and [wg.Wait()], which returns when
    [pollApi] has returned. *)
Definition main_with (s : startup) (env : list turn) : M unit :=
  if negb (dotenv_loaded s) then os_Exit 1
  else if negb (bot_created s) then os_Exit 1
  else pollApi (chat_id s) (unsignalled <$> env).

End Main.

Definition main_text : startup -> list turn -> M unit := main_with Text.pollApi.

Definition main_chart (ParseFloat : string -> option float) (gonum : plot.Library)
  : startup -> list turn -> M unit := main_with (Chart.pollApi ParseFloat gonum).

(** The photos of a trace. *)
Definition is_photo (key caption : string) (e : event) : Prop :=
  exists pts, e = SendPhoto (key +:+ ".png") caption pts.

(** ** What a cycle leaves in the files *)

(** The line that a cycle writes for [key]. *)
Definition sample_line (resData : Response) (now : string -> time.Time)
           (key : string) : string :=
  time.Format (now key) +:+ "|" +:+
  fmt.FormatFloat_f2
    (Price (map_get (CQuote (map_get (Data resData) zeroCryptoData key))
                    zeroQuote "USD")) +:+
  lit "\n".



(** ** What the formatter prints *)

(** The sign bit. *)
Definition signbit (x : float) : bool :=
  match Prim2SF x with
  | S754_zero s | S754_infinity s | S754_finite s _ _ => s
  | S754_nan => false
  end.

(** The integer that an integral [float64] holds. *)
Definition integer_of (x : float) : Z :=
  match Prim2SF x with
  | S754_finite s m e =>
      let a := if (0 <=? e)%Z then (Z.pos m * 2 ^ e)%Z else (Z.pos m / 2 ^ (- e))%Z in
      if s then (- a)%Z else a
  | _ => 0%Z
  end.

(** The cents of a price: [math.Round(num*factor)] as an integer. *)
Definition cents (p : float) : Z := integer_of (math.Round (p * 100)).

(** [n] hundredths written with two decimals, after a minus sign when
    [neg]. *)
Definition decimal2 (neg : bool) (n : Z) : string :=
  ((if neg then "-" else "") +:+ digits (n / 100) +:+ "." +:+
   two_digits (n mod 100))%string.

(** [text] writes the absolute value of [x] to the nearest hundredth,
    under its sign bit. *)
Definition to_the_cent (x : float) (text : string) : Prop :=
  exists n : Z,
    (0 <= n)%Z /\ text = decimal2 (signbit x) n /\
    (Rabs (IZR n - 100 * Rabs (B2R x)) <= 1 / 2)%R.

(** A number as the caption shows it: its cents, two digits after the
    point, under its sign bit. *)
Definition shown (x : float) : string := decimal2 (signbit x) (Z.abs (cents x)).

(** A block of the caption: the marker of the change, the label and the
    change as it is shown. *)
Definition shown_block (label : string) (pct : float) : string :=
  (if (0 <? pct)%float then "🟩" else "🟥") +:+ " " +:+ label +:+ lit ":\n" +:+
  shown pct +:+ lit "%\n".

(** A number of the size that prices and changes have. *)
Definition moderate (x : float) : Prop :=
  finite x /\ (Rabs (B2R x) <= bpow 43)%R.

(* ================================================================== *)
(** * Part II: properties *)
(* ================================================================== *)

(** ** Strings *)

Lemma append_assoc (s1 s2 s3 : string) : (s1 +:+ s2) +:+ s3 = s1 +:+ (s2 +:+ s3).
Proof.
  induction s1 as [|c s1 IH]; [reflexivity |].
  change (String c ((s1 +:+ s2) +:+ s3) = String c (s1 +:+ s2 +:+ s3)).
  by rewrite IH.
Qed.

Lemma append_nil_r (s : string) : s +:+ "" = s.
Proof.
  induction s as [|c s IH]; [reflexivity |].
  change (String c (s +:+ "") = String c s). by rewrite IH.
Qed.

Lemma length_append (s1 s2 : string) :
  String.length (s1 +:+ s2) = (String.length s1 + String.length s2)%nat.
Proof.
  induction s1 as [|c s1 IH]; [reflexivity |].
  change (S (String.length (s1 +:+ s2)) = S (String.length s1 + String.length s2)).
  by rewrite IH.
Qed.

Lemma append_cons (c : ascii) (s1 s2 : string) :
  String c s1 +:+ s2 = String c (s1 +:+ s2).
Proof. reflexivity. Qed.

Lemma append_nil_l (s : string) : "" +:+ s = s.
Proof. reflexivity. Qed.

Ltac string_norm :=
  repeat (rewrite append_assoc || rewrite append_cons || rewrite append_nil_l).

(** ** The formatter *)

Example pow10_2 : math.Pow10 2 = 100%float.
Proof. vm_compute. reflexivity. Qed.

Example buildPriceString_sample :
  buildPriceString "Ethereum" 1234.567 0.5 0 (-1.005) =
  lit "Ethereum: 1234.57\n🟩 1h:\n0.50%\n🟥 24h:\n0.00%\n🟥 7d:\n-1.00%\n\n".
Proof. vm_compute. reflexivity. Qed.

Lemma ltb_zero_above (x : float) : (0 <? x)%float = true <-> above_zero x.
Proof.
  rewrite FloatAxioms.ltb_spec. unfold above_zero.
  change (Prim2SF 0) with (S754_zero false).
  destruct (Prim2SF x) as [s|[]| |[] m e]; cbn; split; intros H;
    try exact I; try discriminate H; try contradiction; try reflexivity.
Qed.

(** C4: the output of the formatter is the name and price line, the three
    blocks for 1h, 24h and 7d in this order, and one empty line; a block
    carries the positive marker exactly when its percentage is above zero,
    and zero carries the negative one. *)
Theorem buildPriceString_layout (token : string) (price c1 c24 c7 : float) :
  buildPriceString token price c1 c24 c7
  = token +:+ ": " +:+ fmt.FormatFloat_f2 (roundToPrecision price 2) +:+ lit "\n" +:+
    block "1h" c1 +:+ block "24h" c24 +:+ block "7d" c7 +:+ lit "\n"
  /\ (forall (label : string) (pct : float),
        block label pct
        = marker pct +:+ " " +:+ label +:+ lit ":\n" +:+
          fmt.FormatFloat_f2 (roundToPrecision pct 2) +:+ lit "%\n")
  /\ (forall pct : float,
        (marker pct = positive_marker <-> (0 <? pct)%float = true) /\
        (marker pct = negative_marker <-> (0 <? pct)%float = false) /\
        ((0 <? pct)%float = true <-> above_zero pct))
  /\ marker 0 = negative_marker
  /\ positive_marker <> negative_marker.
Proof.
  split; [| split; [| split; [| split]]].
  - unfold buildPriceString, block, marker.
    destruct (0 <? c1)%float, (0 <? c24)%float, (0 <? c7)%float;
      cbv [Builder.WriteString Builder.empty Builder.String fmt.Sprintf lit nl
           fmt.parse_format fmt.sprintf_go positive_marker negative_marker];
      string_norm; reflexivity.
  - intros label pct. unfold block. cbv [lit nl]. string_norm. reflexivity.
  - intros pct. split; [| split].
    + unfold marker. destruct (0 <? pct)%float; split; intros H;
        try reflexivity; discriminate H.
    + unfold marker. destruct (0 <? pct)%float; split; intros H;
        try reflexivity; discriminate H.
    + apply ltb_zero_above.
  - reflexivity.
  - discriminate.
Qed.

(** Witness for C4 at a rising, a flat and a falling percentage. *)
Lemma buildPriceString_layout_witness :
  marker 0.5 = positive_marker /\ marker 0 = negative_marker /\
  marker (-1.005) = negative_marker.
Proof.
  destruct (buildPriceString_layout "Ethereum" 1234.567 0.5 0 (-1.005))
    as (_ & _ & Hm & _).
  split; [| split].
  - apply (proj1 (Hm 0.5%float)). reflexivity.
  - apply (proj1 (proj2 (Hm 0%float))). reflexivity.
  - apply (proj1 (proj2 (Hm (-1.005)%float))). reflexivity.
Defined.

(** ** Rounding to the cent *)

Section Rounding.

Local Open Scope Q_scope.

Lemma Exact_Round_near (q : Q) :
  inject_Z (Exact.Round q) - q <= 1 # 2 /\ - (1 # 2) <= inject_Z (Exact.Round q) - q.
Proof.
  unfold Exact.Round.
  destruct (Qle_bool 0 q) eqn:Hq.
  - pose proof (Qfloor_le (q + (1 # 2))) as H1.
    pose proof (Qlt_floor (q + (1 # 2))) as H2.
    rewrite inject_Z_plus in H2. change (inject_Z 1) with 1 in H2.
    split; Lqa.lra.
  - pose proof (Qfloor_le (- q + (1 # 2))) as H1.
    pose proof (Qlt_floor (- q + (1 # 2))) as H2.
    rewrite inject_Z_plus in H2. change (inject_Z 1) with 1 in H2.
    rewrite inject_Z_opp.
    split; Lqa.lra.
Qed.

Lemma Exact_Round_tie (q : Q) (k : Z) :
  q == inject_Z k + (1 # 2) ->
  Exact.Round q = if (0 <=? k)%Z then (k + 1)%Z else k.
Proof.
  intros Hq. unfold Exact.Round.
  destruct (Qle_bool 0 q) eqn:H0; destruct (Z.leb_spec 0 k) as [Hk|Hk].
  - rewrite (Qfloor_comp _ (inject_Z (k + 1))); [apply Qfloor_Z |].
    rewrite inject_Z_plus, Hq. change (inject_Z 1) with 1. Lqa.lra.
  - exfalso. apply Qle_bool_iff in H0.
    assert (inject_Z k <= -1) as Hk'.
    { change (-1) with (inject_Z (-1)). rewrite <- Zle_Qle. lia. }
    Lqa.lra.
  - exfalso.
    assert (~ 0 <= q) as Hn by (rewrite <- Qle_bool_iff, H0; discriminate).
    assert (0 <= inject_Z k) as Hk'.
    { change 0 with (inject_Z 0). rewrite <- Zle_Qle. lia. }
    Lqa.lra.
  - rewrite (Qfloor_comp _ (inject_Z (- k))); [rewrite Qfloor_Z; lia |].
    rewrite inject_Z_opp, Hq. Lqa.lra.
Qed.

Lemma Exact_Round_comp (q1 q2 : Q) : q1 == q2 -> Exact.Round q1 = Exact.Round q2.
Proof.
  intros He. unfold Exact.Round.
  rewrite (Qfloor_comp (q1 + (1 # 2)) (q2 + (1 # 2))) by (rewrite He; reflexivity).
  rewrite (Qfloor_comp (- q1 + (1 # 2)) (- q2 + (1 # 2))) by (rewrite He; reflexivity).
  destruct (Qle_bool 0 q1) eqn:H1, (Qle_bool 0 q2) eqn:H2; try reflexivity; exfalso.
  - apply Qle_bool_iff in H1. rewrite He in H1. apply Qle_bool_iff in H1. congruence.
  - apply Qle_bool_iff in H2. rewrite <- He in H2. apply Qle_bool_iff in H2. congruence.
Qed.

Lemma Exact_roundToPrecision_2 (p : Q) :
  Exact.roundToPrecision p 2 == inject_Z (Exact.Round (p * 100)) / 100.
Proof.
  unfold Exact.roundToPrecision.
  assert (Qpower (inject_Z 10) 2 == 100) as Hf by reflexivity.
  rewrite (Exact_Round_comp (p * inject_Z 10 ^ 2) (p * 100)) by (rewrite Hf; reflexivity).
  rewrite Hf. reflexivity.
Qed.

Example roundToPrecision_ties :
  roundToPrecision 0.125 2 = 0.13%float /\
  roundToPrecision (-0.125) 2 = (-0.13)%float /\
  roundToPrecision 2.5 0 = 3%float /\
  roundToPrecision (-2.5) 0 = (-3)%float.
Proof. vm_compute. repeat split; reflexivity. Qed.

(** In exact arithmetic the two lines give the multiple of 0.01 nearest
    to [p], halves away from zero. *)
Lemma Exact_roundToPrecision_cent (p : Q) :
  Exact.roundToPrecision p 2 == inject_Z (Exact.Round (p * 100)) / 100 /\
  Qabs (Exact.roundToPrecision p 2 - p) <= 1 # 200 /\
  (forall k : Z, p * 100 == inject_Z k + (1 # 2) ->
     Exact.roundToPrecision p 2 ==
       inject_Z (if (0 <=? k)%Z then k + 1 else k) / 100).
Proof.
  pose proof (Exact_roundToPrecision_2 p) as Hr.
  split; [exact Hr | split].
  - rewrite Hr. apply Qabs_Qle_condition.
    destruct (Exact_Round_near (p * 100)) as [H1 H2].
    unfold Qdiv. change (/ 100) with (1 # 100).
    set (R := inject_Z (Exact.Round (p * 100))) in *.
    split; Lqa.lra.
  - intros k Hk. rewrite Hr, (Exact_Round_tie _ _ Hk). reflexivity.
Qed.

End Rounding.

(** ** Rounding to the cent on binary64 *)

Section Binary64.

Local Open Scope R_scope.

Lemma bpow_pos (e : Z) : 0 < bpow e.
Proof. apply powerRZ_lt. lra. Qed.

Lemma bpow_add (a b : Z) : bpow (a + b) = bpow a * bpow b.
Proof. apply powerRZ_add. lra. Qed.

Lemma bpow_succ (e : Z) : bpow (e + 1) = 2 * bpow e.
Proof. rewrite bpow_add. unfold bpow at 2. rewrite powerRZ_1. ring. Qed.

Lemma bpow_le (a b : Z) : (a <= b)%Z -> bpow a <= bpow b.
Proof.
  intros H. replace b with (a + (b - a))%Z by lia. rewrite bpow_add.
  assert (1 <= bpow (b - a)).
  { unfold bpow. destruct (b - a)%Z eqn:E; try lia.
    - simpl. lra.
    - simpl. apply pow_R1_Rle. lra. }
  pose proof (bpow_pos a). nra.
Qed.

Lemma bpow_lt (a b : Z) : (a < b)%Z -> bpow a < bpow b.
Proof.
  intros H. pose proof (bpow_le (a + 1) b ltac:(lia)) as H1.
  rewrite bpow_succ in H1. pose proof (bpow_pos a). lra.
Qed.

Lemma bpow_le_inv (a b : Z) : bpow a <= bpow b -> (a <= b)%Z.
Proof.
  intros H. destruct (Z_le_gt_dec a b) as [|Hgt]; [assumption |].
  pose proof (bpow_lt b a ltac:(lia)). lra.
Qed.

Lemma bpow_lt_inv (a b : Z) : bpow a < bpow b -> (a < b)%Z.
Proof.
  intros H. destruct (Z_lt_ge_dec a b) as [|Hge]; [assumption |].
  pose proof (bpow_le b a ltac:(lia)). lra.
Qed.

Lemma bpow_IZR (n : Z) : (0 <= n)%Z -> bpow n = IZR (2 ^ n).
Proof.
  intros H. unfold bpow. destruct n as [|p|p]; try lia.
  - reflexivity.
  - change (2 ^ Z.pos p)%Z with (Z.pow_pos 2 p). rewrite Zpower_pos_powerRZ. reflexivity.
Qed.

Lemma bpow_opp (n : Z) : bpow (- n) = / bpow n.
Proof.
  pose proof (bpow_pos n). pose proof (bpow_add (- n) n) as H1.
  replace (- n + n)%Z with 0%Z in H1 by lia. change (bpow 0) with 1 in H1.
  apply Rmult_eq_reg_r with (bpow n); [| lra]. rewrite <- H1. field. lra.
Qed.

(** *** Digits *)

Lemma digits2_pos_bounds (p : positive) :
  (2 ^ (Z.pos (digits2_pos p) - 1) <= Z.pos p < 2 ^ Z.pos (digits2_pos p))%Z.
Proof.
  induction p as [p IH|p IH|]; cbn [digits2_pos].
  - rewrite Pos2Z.inj_succ. unfold Z.succ.
    replace (Z.pos (digits2_pos p) + 1 - 1)%Z with (Z.pos (digits2_pos p) - 1 + 1)%Z by lia.
    rewrite !Z.pow_add_r, Z.pow_1_r by lia. lia.
  - rewrite Pos2Z.inj_succ. unfold Z.succ.
    replace (Z.pos (digits2_pos p) + 1 - 1)%Z with (Z.pos (digits2_pos p) - 1 + 1)%Z by lia.
    rewrite !Z.pow_add_r, Z.pow_1_r by lia. lia.
  - cbn. lia.
Qed.

Lemma Zdigits2_lt (m : Z) : (0 <= m)%Z -> (m < 2 ^ Zdigits2 m)%Z.
Proof.
  intros H. destruct m as [|p|p]; try lia.
  - cbn. lia.
  - apply digits2_pos_bounds.
Qed.

Lemma Zdigits2_le (m : Z) : (0 < m)%Z -> (2 ^ (Zdigits2 m - 1) <= m)%Z.
Proof. intros H. destruct m as [|p|p]; try lia. apply digits2_pos_bounds. Qed.

Lemma Zdigits2_nonneg (m : Z) : (0 <= Zdigits2 m)%Z.
Proof. destruct m; cbn; lia. Qed.

Lemma Zdigits2_upper (m k : Z) :
  (0 <= m)%Z -> (0 <= k)%Z -> (m < 2 ^ k)%Z -> (Zdigits2 m <= k)%Z.
Proof.
  intros Hm Hk H. destruct (Z.eq_dec m 0%Z) as [->|Hne]; [cbn; lia |].
  pose proof (Zdigits2_le m ltac:(lia)) as Hd.
  assert (2 ^ (Zdigits2 m - 1) < 2 ^ k)%Z as Hlt by lia.
  apply Z.pow_lt_mono_r_iff in Hlt; lia.
Qed.

(** *** Shifting to the right keeps the location *)

Lemma loc_of_shr_record_of_loc (m : Z) (l : location) :
  loc_of_shr_record (shr_record_of_loc m l) = l /\
  shr_m (shr_record_of_loc m l) = m.
Proof. destruct l as [|[]]; split; reflexivity. Qed.

Lemma shr_1_located (V : R) (mrs : shr_record) (e : Z) :
  (0 <= shr_m mrs)%Z ->
  located V (shr_m mrs) e (loc_of_shr_record mrs) ->
  located V (shr_m (shr_1 mrs)) (e + 1) (loc_of_shr_record (shr_1 mrs)) /\
  shr_m (shr_1 mrs) = (shr_m mrs / 2)%Z.
Proof.
  destruct mrs as [m r s]. cbn [shr_m]. intros Hm Hloc.
  pose proof (bpow_pos e) as Hu. unfold located in *. rewrite !bpow_succ.
  set (u := bpow e) in *.
  destruct m as [|[p|p|]|p]; try lia; cbn [shr_1 shr_m].
  - split; [| reflexivity].
    destruct r, s; cbn in *; lra.
  - split; [| rewrite Pos2Z.inj_xI, Z.add_comm, Z.mul_comm, Z.div_add by lia; reflexivity].
    rewrite Pos2Z.inj_xI, plus_IZR, mult_IZR in Hloc.
    destruct r, s; cbn in *; lra.
  - split; [| rewrite Pos2Z.inj_xO, Z.mul_comm, Z.div_mul by lia; reflexivity].
    rewrite Pos2Z.inj_xO, mult_IZR in Hloc.
    destruct r, s; cbn in *; lra.
  - split; [| reflexivity].
    destruct r, s; cbn in *; lra.
Qed.

Lemma iter_pos_nat {A} (f : A -> A) (p : positive) (x : A) :
  SpecFloat.iter_pos f p x = Nat.iter (Pos.to_nat p) f x.
Proof.
  revert x. induction p as [p IH|p IH|]; intros x; cbn [SpecFloat.iter_pos].
  - rewrite !IH, Pos2Nat.inj_xI, Nat.iter_succ_r.
    replace (2 * Pos.to_nat p)%nat with (Pos.to_nat p + Pos.to_nat p)%nat by lia.
    rewrite Nat.iter_add. reflexivity.
  - rewrite !IH, Pos2Nat.inj_xO.
    replace (2 * Pos.to_nat p)%nat with (Pos.to_nat p + Pos.to_nat p)%nat by lia.
    rewrite Nat.iter_add. reflexivity.
  - reflexivity.
Qed.

Lemma shr_iter_located (V : R) (n : nat) (mrs : shr_record) (e : Z) :
  (0 <= shr_m mrs)%Z ->
  located V (shr_m mrs) e (loc_of_shr_record mrs) ->
  located V (shr_m (Nat.iter n shr_1 mrs)) (e + Z.of_nat n)
          (loc_of_shr_record (Nat.iter n shr_1 mrs)) /\
  shr_m (Nat.iter n shr_1 mrs) = (shr_m mrs / 2 ^ Z.of_nat n)%Z.
Proof.
  intros Hm Hloc. induction n as [|n IH].
  - cbn [Nat.iter nat_rect]. rewrite Z.add_0_r, Z.div_1_r. auto.
  - change (Nat.iter (S n) shr_1 mrs) with (shr_1 (Nat.iter n shr_1 mrs)).
    destruct IH as [IH1 IH2].
    assert (0 <= shr_m (Nat.iter n shr_1 mrs))%Z as Hm'.
    { rewrite IH2. apply Z.div_pos; lia. }
    destruct (shr_1_located V _ _ Hm' IH1) as [H1 H2].
    rewrite Nat2Z.inj_succ. unfold Z.succ. rewrite Z.add_assoc. split; [exact H1 |].
    rewrite H2, IH2, Z.pow_add_r, Z.div_div by lia. reflexivity.
Qed.

Lemma shr_fexp_located (V : R) (m e : Z) (l : location) :
  (0 <= m)%Z -> located V m e l ->
  snd (shr_fexp prec emax m e l) = cexp m e /\
  located V (shr_m (fst (shr_fexp prec emax m e l))) (cexp m e)
          (loc_of_shr_record (fst (shr_fexp prec emax m e l))) /\
  shr_m (fst (shr_fexp prec emax m e l)) = (m / 2 ^ (cexp m e - e))%Z.
Proof.
  intros Hm Hloc. unfold shr_fexp, shr, cexp.
  destruct (loc_of_shr_record_of_loc m l) as [Hl Hmm].
  set (mrs := shr_record_of_loc m l) in *.
  destruct (fexp prec emax (Zdigits2 m + e) - e)%Z as [|p|p] eqn:En; cbn [fst snd].
  - rewrite Z.max_l by lia. rewrite Hl, Hmm, Z.sub_diag, Z.div_1_r. auto.
  - rewrite Z.max_r by lia. rewrite iter_pos_nat.
    destruct (shr_iter_located V (Pos.to_nat p) mrs e) as [H1 H2].
    { rewrite Hmm. exact Hm. }
    { rewrite Hl, Hmm. exact Hloc. }
    rewrite positive_nat_Z in H1, H2.
    replace (fexp prec emax (Zdigits2 m + e)) with (e + Z.pos p)%Z by lia.
    split; [reflexivity | split; [exact H1 |]].
    rewrite H2, Hmm. f_equal. f_equal. lia.
  - rewrite Z.max_l by lia. rewrite Hl, Hmm, Z.sub_diag, Z.div_1_r. auto.
Qed.

Lemma round_nearest_even_near (V : R) (m e : Z) (l : location) :
  located V m e l ->
  (m <= round_nearest_even m l <= m + 1)%Z /\
  Rabs (IZR (round_nearest_even m l) * bpow e - V) <= bpow e / 2.
Proof.
  intros Hloc. pose proof (bpow_pos e) as Hu.
  destruct l as [|[]]; cbn [located round_nearest_even] in *;
    set (u := bpow e) in *; [| destruct (Z.even m) |..];
    (split; [lia |]); rewrite ?plus_IZR; apply Rabs_le; lra.
Qed.

(** *** Rounding to binary64 *)

Lemma cexp_bounds (m e : Z) :
  (e <= cexp m e)%Z /\ (-1074 <= cexp m e)%Z /\
  (Zdigits2 m + e - 53 <= cexp m e)%Z /\
  (cexp m e = e \/ cexp m e = -1074 \/ cexp m e = Zdigits2 m + e - 53)%Z.
Proof. unfold cexp, fexp, emin, prec, emax. lia. Qed.

Theorem binary_round_aux_spec (V : R) (s : bool) (m e : Z) (l : location) :
  (0 <= m)%Z -> located V m e l ->
  (binary_round_aux prec emax s m e l = S754_infinity s /\ (970 < cexp m e)%Z) \/
  (exists m1 : Z,
     (0 <= m1)%Z /\
     SFfinite (binary_round_aux prec emax s m e l) /\
     SF2R (binary_round_aux prec emax s m e l) = Rsign s * (IZR m1 * bpow (cexp m e)) /\
     Rabs (IZR m1 * bpow (cexp m e) - V) <= bpow (cexp m e) / 2).
Proof.
  intros Hm Hloc. unfold binary_round_aux.
  destruct (shr_fexp_located V m e l Hm Hloc) as (H1 & H2 & H3).
  destruct (shr_fexp prec emax m e l) as [mrs' e']. cbn [fst snd] in *. subst e'.
  destruct (cexp_bounds m e) as (HE1 & HE2 & HE3 & _).
  set (E := cexp m e) in *.
  destruct (round_nearest_even_near V _ _ _ H2) as [Hr1 Hr2].
  set (m1 := round_nearest_even (shr_m mrs') (loc_of_shr_record mrs')) in *.
  assert (0 <= shr_m mrs' < 2 ^ 53)%Z as Hm'.
  { rewrite H3. split; [apply Z.div_pos; lia |].
    apply Z.div_lt_upper_bound; [lia |].
    pose proof (Zdigits2_lt m Hm) as Hd. pose proof (Zdigits2_nonneg m) as Hd0.
    rewrite <- Z.pow_add_r by lia.
    assert (2 ^ Zdigits2 m <= 2 ^ (E - e + 53))%Z by (apply Z.pow_le_mono_r; lia).
    lia. }
  destruct (Z.eq_dec m1 (2 ^ 53)%Z) as [Heq|Hne].
  - rewrite Heq in *. unfold shr_fexp, shr.
    change (Zdigits2 (2 ^ 53)) with 54%Z.
    replace (fexp prec emax (54 + E) - E)%Z with 1%Z
      by (unfold fexp, emin, prec, emax; lia).
    cbn [SpecFloat.iter_pos shr_record_of_loc shr_1 shr_m].
    change (2 ^ 53)%Z with (Z.pos (9007199254740992)).
    cbn [shr_1 shr_m].
    destruct (E + 1 <=? emax - prec)%Z eqn:Hov.
    + right. exists (Z.pos 9007199254740992).
      split; [lia | split; [exact I | split; [| exact Hr2]]].
      cbn [SF2R]. rewrite bpow_succ. lra.
    + left. apply Z.leb_gt in Hov. unfold prec, emax in Hov.
      split; [reflexivity | lia].
  - assert (Zdigits2 m1 <= 53)%Z as Hd1 by (apply Zdigits2_upper; lia).
    assert (fst (shr_fexp prec emax m1 E loc_Exact) = shr_record_of_loc m1 loc_Exact /\
            snd (shr_fexp prec emax m1 E loc_Exact) = E) as [Hs1 Hs2].
    { unfold shr_fexp, shr.
      destruct (fexp prec emax (Zdigits2 m1 + E) - E)%Z as [|p|p] eqn:En;
        [| exfalso; unfold fexp, emin, prec, emax in En; lia |];
        split; reflexivity. }
    destruct (shr_fexp prec emax m1 E loc_Exact) as [mrs'' e'']. cbn [fst snd] in *.
    subst mrs'' e''. cbn [shr_record_of_loc shr_m].
    destruct m1 as [|q|q]; [| | lia].
    + right. exists 0%Z.
      split; [lia | split; [exact I | split; [cbn [SF2R]; lra | exact Hr2]]].
    + destruct (E <=? emax - prec)%Z eqn:Hov.
      * right. exists (Z.pos q).
        split; [lia | split; [exact I | split; [reflexivity | exact Hr2]]].
      * left. apply Z.leb_gt in Hov. unfold prec, emax in Hov.
        split; [reflexivity | lia].
Qed.

Lemma digits_bpow_le (m e : Z) :
  (0 < m)%Z -> bpow (Zdigits2 m - 1 + e) <= IZR m * bpow e.
Proof.
  intros Hm. pose proof (Zdigits2_le m Hm) as Hd. pose proof (bpow_pos e).
  assert (0 <= Zdigits2 m - 1)%Z by (destruct m; cbn in *; lia).
  rewrite bpow_add, bpow_IZR by lia.
  apply IZR_le in Hd. apply Rmult_le_compat_r; [apply Rlt_le; exact H | exact Hd].
Qed.

Lemma digits_bpow_lt (m e : Z) :
  (0 <= m)%Z -> IZR m * bpow e < bpow (Zdigits2 m + e).
Proof.
  intros Hm. pose proof (Zdigits2_lt m Hm) as Hd. pose proof (bpow_pos e).
  pose proof (Zdigits2_nonneg m).
  rewrite bpow_add, (bpow_IZR (Zdigits2 m)) by lia.
  apply IZR_lt in Hd. apply Rmult_lt_compat_r; [exact H | exact Hd].
Qed.

Lemma located_ge (V : R) (m e : Z) (l : location) :
  located V m e l -> IZR m * bpow e <= V.
Proof.
  intros H. pose proof (bpow_pos e). destruct l as [|[]]; cbn [located] in H; nra.
Qed.

(** The last place of the rounded value, against the value itself. *)
Lemma cexp_ulp (V : R) (m e X : Z) :
  (0 <= m)%Z -> IZR m * bpow e <= V -> bpow (X - 1) <= V ->
  (e <= Z.max (X - 53) (-1074))%Z ->
  bpow (cexp m e) <= bpow (-1074) + V * bpow (-52).
Proof.
  intros Hm HV HX He.
  pose proof (bpow_pos (-1074)) as H1. pose proof (bpow_pos (-52)) as H2.
  pose proof (bpow_pos (X - 1)) as H3.
  destruct (cexp_bounds m e) as (_ & _ & _ & [Hc|[Hc|Hc]]); rewrite Hc.
  - destruct (Z.max_spec (X - 53) (-1074)) as [[_ Hmax]|[_ Hmax]]; rewrite Hmax in He.
    + pose proof (bpow_le _ _ He). nra.
    + pose proof (bpow_le _ _ He) as H4.
      replace (X - 53)%Z with (X - 1 + -52)%Z in H4 by lia. rewrite bpow_add in H4. nra.
  - nra.
  - destruct (Z.eq_dec m 0%Z) as [->|Hne].
    + exfalso. destruct (cexp_bounds 0 e) as (Hx & _). cbn in Hc. lia.
    + pose proof (digits_bpow_le m e ltac:(lia)) as Hd.
      replace (Zdigits2 m + e - 53)%Z with (Zdigits2 m - 1 + e + -52)%Z by lia.
      rewrite bpow_add. nra.
Qed.

Lemma Rabs_le_inv (a b : R) : Rabs a <= b -> - b <= a <= b.
Proof.
  intros H. pose proof (Rle_abs a) as H1. pose proof (Rle_abs (- a)) as H2.
  rewrite Rabs_Ropp in H2. lra.
Qed.

Lemma Rabs_Rsign (s : bool) (x : R) : Rabs (Rsign s * x) = Rabs x.
Proof.
  destruct s; unfold Rsign.
  - replace (-1 * x) with (- x) by ring. apply Rabs_Ropp.
  - rewrite Rmult_1_l. reflexivity.
Qed.

Lemma valid_finite (x : float) (s : bool) (m : positive) (e : Z) :
  Prim2SF x = S754_finite s m e ->
  cexp (Z.pos m) e = e /\ (-1074 <= e <= 971)%Z /\ (Z.pos m < 2 ^ 53)%Z.
Proof.
  intros Hx. pose proof (Prim2SF_valid x) as Hv. rewrite Hx in Hv.
  cbn [SpecFloat.valid_binary] in Hv. unfold bounded, canonical_mantissa in Hv.
  apply andb_prop in Hv. destruct Hv as [Hc He].
  apply Z.eqb_eq in Hc. apply Z.leb_le in He.
  change (Z.pos (digits2_pos m)) with (Zdigits2 (Z.pos m)) in Hc.
  pose proof (Zdigits2_lt (Z.pos m) ltac:(lia)) as Hd.
  assert (Zdigits2 (Z.pos m) <= 53)%Z as Hd53
    by (unfold fexp, emin, prec, emax in Hc; lia).
  assert (2 ^ Zdigits2 (Z.pos m) <= 2 ^ 53)%Z
    by (apply Z.pow_le_mono_r; lia).
  unfold cexp. rewrite Hc. unfold fexp, emin, prec, emax in *. lia.
Qed.

Lemma hundred_value : IZR (Z.pos 7036874417766400) * bpow (-46) = 100.
Proof.
  change (Z.pos 7036874417766400) with (100 * 2 ^ 46)%Z.
  rewrite mult_IZR, <- bpow_IZR by lia.
  rewrite Rmult_assoc, <- bpow_add. change (bpow (46 + -46)) with 1. lra.
Qed.

Lemma bpow_7 : bpow 7 = 128.
Proof. rewrite bpow_IZR by lia. reflexivity. Qed.

(** Multiplication by [100]: the product is within half a unit in the
    last place of the exact one unless it overflows, and it does not
    overflow up to [2^1000]. *)
Lemma mul_100_spec (p : float) :
  finite p ->
  (finite (p * 100) ->
   Rabs (B2R (p * 100) - 100 * B2R p) <=
     bpow (-1075) + 100 * Rabs (B2R p) * bpow (-53)) /\
  (Rabs (B2R p) <= bpow 1000 -> finite (p * 100)).
Proof.
  unfold finite, B2R. rewrite FloatAxioms.mul_spec.
  change (Prim2SF 100) with (S754_finite false 7036874417766400 (-46)).
  pose proof (bpow_pos (-1075)) as Hb1. pose proof (bpow_pos (-53)) as Hb2.
  destruct (Prim2SF p) as [s|s| |s m e] eqn:Hp; try contradiction; intros _.
  - cbn [SF64mul SFmul SF2R]. split; [intros _ | intros _; exact I].
    rewrite Rmult_0_r, Rminus_0_r, Rabs_R0. lra.
  - cbn [SF64mul SFmul]. destruct (valid_finite p s m e Hp) as (Hc & He & Hm).
    cbn [SF2R] in *. rewrite Rabs_Rsign in *.
    set (P := IZR (Z.pos m) * bpow e) in *.
    assert (0 < P) as HP by (pose proof (bpow_pos e); pose proof (IZR_lt 0 (Z.pos m) ltac:(lia)); unfold P; nra).
    rewrite (Rabs_pos_eq P) in * by lra.
    set (m' := Z.pos (m * 7036874417766400)).
    assert (IZR m' * bpow (e + -46) = 100 * P) as HV.
    { unfold m', P. rewrite Pos2Z.inj_mul, mult_IZR, bpow_add.
      pose proof hundred_value. nra. }
    assert (located (100 * P) m' (e + -46) loc_Exact) as Hloc
      by (cbn [located]; symmetry; exact HV).
    assert (2 ^ 52 <= m')%Z as Hm52 by (unfold m'; lia).
    assert (53 <= Zdigits2 m')%Z as Hd53.
    { pose proof (Zdigits2_lt m' ltac:(lia)) as Hd.
      assert (2 ^ 52 < 2 ^ Zdigits2 m')%Z as Hlt by lia.
      apply Z.pow_lt_mono_r_iff in Hlt; [lia | lia | apply Zdigits2_nonneg]. }
    pose proof (digits_bpow_le m' (e + -46) ltac:(lia)) as Hdig. rewrite HV in Hdig.
    destruct (cexp_bounds m' (e + -46)) as (_ & _ & _ & Hcases).
    destruct (binary_round_aux_spec (100 * P) (xorb s false) m' (e + -46) loc_Exact
                ltac:(lia) Hloc)
      as [[Hinf Hbig]|(m1 & Hm1 & Hfin & Hval & Herr)].
    + rewrite Hinf. cbn [SFfinite]. split; [contradiction |].
      intros Hbound. exfalso.
      assert (Zdigits2 m' - 1 + (e + -46) < 1007)%Z as Hexp.
      { apply bpow_lt_inv. replace 1007%Z with (7 + 1000)%Z by lia.
        rewrite (bpow_add 7 1000), bpow_7. pose proof (bpow_pos 1000). lra. }
      lia.
    + split; [intros _ | intros _; exact Hfin].
      rewrite Hval, xorb_false_r.
      replace (Rsign s * (IZR m1 * bpow (cexp m' (e + -46))) - 100 * (Rsign s * P))
        with (Rsign s * (IZR m1 * bpow (cexp m' (e + -46)) - 100 * P)) by ring.
      rewrite Rabs_Rsign.
      pose proof (cexp_ulp (100 * P) m' (e + -46) (Zdigits2 m' + (e + -46))
                    ltac:(lia) ltac:(lra)) as Hulp.
      replace (Zdigits2 m' + (e + -46) - 1)%Z with (Zdigits2 m' - 1 + (e + -46))%Z
        in Hulp by lia.
      specialize (Hulp Hdig ltac:(lia)).
      replace (-1074)%Z with (-1075 + 1)%Z in Hulp by lia.
      replace (-52)%Z with (-53 + 1)%Z in Hulp by lia.
      rewrite !bpow_succ in Hulp. lra.
Qed.

(** *** Integers as binary64 values, and [math.Round] *)

Lemma IZR_near (a b : Z) : Rabs (IZR a - IZR b) < 1 -> a = b.
Proof.
  intros H. apply Rabs_def2 in H. destruct H as [H1 H2].
  destruct (Z.eq_dec a b) as [|Hne]; [assumption | exfalso].
  destruct (Z_lt_ge_dec a b) as [Hlt|Hge].
  - assert (a + 1 <= b)%Z as Hle by lia. apply IZR_le in Hle.
    rewrite plus_IZR in Hle. lra.
  - assert (b + 1 <= a)%Z as Hle by lia. apply IZR_le in Hle.
    rewrite plus_IZR in Hle. lra.
Qed.

Lemma shl_align_value (q : positive) (e e' : Z) :
  IZR (Z.pos (fst (shl_align q e e'))) * bpow (snd (shl_align q e e')) =
    IZR (Z.pos q) * bpow e /\
  (snd (shl_align q e e') <= e)%Z.
Proof.
  unfold shl_align. destruct (e' - e)%Z as [|d|d] eqn:Ed; cbn [fst snd];
    [split; [reflexivity | lia] .. |].
  split; [| lia].
  change (Pos.iter xO q d) with (shift_pos d q).
  rewrite shift_pos_correct, mult_IZR, Zpower_pos_powerRZ.
  change (powerRZ (IZR 2) (Z.pos d)) with (bpow (Z.pos d)).
  replace e with (Z.pos d + e')%Z by lia. rewrite bpow_add. ring.
Qed.

Lemma of_uint63_exact (n : Z) :
  (0 <= n < 2 ^ 53)%Z ->
  finite (of_uint63 (of_Z n)) /\ B2R (of_uint63 (of_Z n)) = IZR n.
Proof.
  intros Hn. unfold finite, B2R. rewrite of_uint63_spec, Uint63.of_Z_spec.
  rewrite Z.mod_small by (change wB with (2 ^ 63)%Z; lia).
  destruct n as [|q|q]; try lia; cbn [binary_normalize].
  - split; [exact I | reflexivity].
  - unfold binary_round.
    destruct (shl_align_value q 0 (fexp prec emax (Z.pos (digits2_pos q) + 0)))
      as [Hv Hle].
    destruct (shl_align q 0 (fexp prec emax (Z.pos (digits2_pos q) + 0)))
      as [mz ez]. cbn [fst snd] in *.
    change (bpow 0) with 1 in Hv. rewrite Rmult_1_r in Hv.
    assert (cexp (Z.pos mz) ez <= 0)%Z as HE.
    { pose proof (digits_bpow_le (Z.pos mz) ez ltac:(lia)) as Hd. rewrite Hv in Hd.
      assert (Zdigits2 (Z.pos mz) - 1 + ez < 53)%Z.
      { apply bpow_lt_inv. eapply Rle_lt_trans; [exact Hd |].
        rewrite (bpow_IZR 53) by lia. apply IZR_lt. lia. }
      destruct (cexp_bounds (Z.pos mz) ez) as (_ & _ & _ & Hcases). lia. }
    destruct (binary_round_aux_spec (IZR (Z.pos q)) false (Z.pos mz) ez loc_Exact)
      as [[_ Hbig]|(m1 & Hm1 & Hfin & Hval & Herr)];
      [lia | cbn [located]; symmetry; exact Hv | lia |].
    split; [exact Hfin |]. rewrite Hval. unfold Rsign. rewrite Rmult_1_l.
    set (E := cexp (Z.pos mz) ez) in *.
    pose proof (bpow_pos E) as Hu.
    assert (IZR (Z.pos q * 2 ^ (- E)) * bpow E = IZR (Z.pos q)) as HK.
    { rewrite mult_IZR, <- bpow_IZR by lia.
      rewrite Rmult_assoc, <- bpow_add. replace (- E + E)%Z with 0%Z by lia.
      change (bpow 0) with 1. ring. }
    rewrite <- HK in Herr |- *. f_equal.
    apply IZR_eq, IZR_near.
    apply Rabs_le_inv in Herr. set (K := IZR (Z.pos q * 2 ^ (- E))) in *.
    apply Rabs_def1; nra.
Qed.

Lemma opp_value (r : float) :
  finite r -> finite (- r) /\ B2R (- r) = - B2R r.
Proof.
  unfold finite, B2R. rewrite FloatAxioms.opp_spec.
  destruct (Prim2SF r) as [s|s| |s m e]; try contradiction; intros _;
    cbn [SFopp SF2R]; (split; [exact I |]); [lra |].
  destruct s; unfold Rsign; cbn [negb]; ring.
Qed.

Lemma half_up_div (m k : Z) :
  (0 <= m)%Z -> (1 <= k)%Z ->
  IZR ((m + 2 ^ (k - 1)) / 2 ^ k) - 1 / 2 <= IZR m * bpow (- k)
    < IZR ((m + 2 ^ (k - 1)) / 2 ^ k) + 1 / 2.
Proof.
  intros Hm Hk. set (a := (2 ^ (k - 1))%Z).
  assert (0 < a)%Z as Ha by (apply Z.pow_pos_nonneg; lia).
  assert (2 ^ k = 2 * a)%Z as Hk2.
  { unfold a. replace k with (k - 1 + 1)%Z at 1 by lia.
    rewrite Z.pow_add_r by lia. lia. }
  rewrite bpow_opp, bpow_IZR, Hk2 by lia.
  pose proof (Z.mul_div_le (m + a) (2 * a) ltac:(lia)) as H1.
  pose proof (Z.mul_succ_div_gt (m + a) (2 * a) ltac:(lia)) as H2.
  set (n := ((m + a) / (2 * a))%Z) in *.
  apply IZR_le in H1. apply IZR_lt in H2. apply IZR_lt in Ha.
  unfold Z.succ in H2. rewrite ?mult_IZR, ?plus_IZR in *.
  set (A := IZR a) in *. set (N := IZR n) in *. set (M := IZR m) in *.
  assert (M * / (2 * A) * (2 * A) = M) as Hq by (field; lra).
  set (x := M * / (2 * A)) in *.
  split; nra.
Qed.

(** [math.Round] returns the nearest integer, halves away from zero. *)
Theorem Round_spec (y : float) :
  finite y ->
  exists n : Z,
    finite (math.Round y) /\ B2R (math.Round y) = IZR n /\
    half_away (B2R y) n.
Proof.
  intros Hfin. unfold math.Round, half_away.
  destruct (Prim2SF y) as [s|s| |s m e] eqn:Hy.
  - exists 0%Z. unfold finite, B2R. rewrite Hy. cbn [SF2R].
    repeat split; lra.
  - unfold finite in Hfin. rewrite Hy in Hfin. contradiction.
  - unfold finite in Hfin. rewrite Hy in Hfin. contradiction.
  - destruct (valid_finite y s m e Hy) as (_ & He & Hm).
    destruct (0 <=? e)%Z eqn:E0.
    + apply Z.leb_le in E0.
      exists ((if s then -1 else 1) * (Z.pos m * 2 ^ e))%Z.
      split; [exact Hfin |]. unfold B2R. rewrite Hy. cbn [SF2R].
      assert (Rsign s * (IZR (Z.pos m) * bpow e) =
              IZR ((if s then -1 else 1) * (Z.pos m * 2 ^ e))) as Hv.
      { rewrite !mult_IZR, <- bpow_IZR by lia. destruct s; reflexivity. }
      rewrite Hv. repeat split; lra.
    + apply Z.leb_gt in E0.
      rewrite Z.shiftl_1_l, Z.shiftr_div_pow2 by lia.
      set (n0 := ((Z.pos m + 2 ^ (- e - 1)) / 2 ^ (- e))%Z).
      pose proof (half_up_div (Z.pos m) (- e) ltac:(lia) ltac:(lia)) as Hn.
      fold n0 in Hn. rewrite Z.opp_involutive in Hn.
      assert (0 <= n0 < 2 ^ 53)%Z as Hn0.
      { unfold n0. assert (0 < 2 ^ (- e - 1))%Z as Ha by (apply Z.pow_pos_nonneg; lia).
        assert (2 ^ (- e) = 2 * 2 ^ (- e - 1))%Z as Hk2.
        { replace (- e)%Z with (- e - 1 + 1)%Z at 1 by lia.
          rewrite Z.pow_add_r by lia. lia. }
        rewrite Hk2. split; [apply Z.div_pos; lia |].
        apply Z.div_lt_upper_bound; lia. }
      destruct (of_uint63_exact n0 Hn0) as [Hf Hv].
      assert (B2R y = Rsign s * (IZR (Z.pos m) * bpow e)) as HY
        by (unfold B2R; rewrite Hy; reflexivity).
      rewrite !HY. clear HY.
      assert (0 < IZR (Z.pos m) * bpow e) as Hpos.
      { pose proof (bpow_pos e). pose proof (IZR_lt 0 (Z.pos m) ltac:(lia)). nra. }
      set (Y := IZR (Z.pos m) * bpow e) in *.
      destruct s; unfold Rsign.
      * exists (- n0)%Z. destruct (opp_value _ Hf) as [Hf' Hv'].
        split; [exact Hf' |]. rewrite Hv', Hv, opp_IZR.
        repeat split; lra.
      * exists n0. split; [exact Hf |]. rewrite Hv. repeat split; lra.
Qed.

(** *** Division *)

Lemma SFdiv_core_located (m1 m2 : positive) (e1 e2 : Z) :
  Z.even (Z.pos m2) = true ->
  let X := (Zdigits2 (Z.pos m1) + e1 - (Zdigits2 (Z.pos m2) + e2))%Z in
  let res := SFdiv_core_binary prec emax (Z.pos m1) e1 (Z.pos m2) e2 in
  let V := IZR (Z.pos m1) * bpow e1 / (IZR (Z.pos m2) * bpow e2) in
  (0 <= fst (fst res))%Z /\
  located V (fst (fst res)) (snd (fst res)) (snd res) /\
  (snd (fst res) <= Z.max (X - 53) (-1074))%Z /\
  bpow (X - 1) <= V.
Proof.
  intros Heven X res V. subst res. unfold SFdiv_core_binary.
  fold X. change (fexp prec emax X) with (Z.max (X - 53) (-1074)).
  set (e' := Z.min (Z.max (X - 53) (-1074)) (e1 - e2)).
  set (s := (e1 - e2 - e')%Z).
  assert (0 <= s)%Z as Hs by (unfold s, e'; lia).
  assert (match s with
          | 0%Z => Z.pos m1
          | Z.pos _ => Z.shiftl (Z.pos m1) s
          | Z.neg _ => 0%Z
          end = (Z.pos m1 * 2 ^ s)%Z) as Hm'.
  { destruct s as [|p|p] eqn:Es; [lia | | lia].
    rewrite Z.shiftl_mul_pow2 by lia. reflexivity. }
  rewrite Hm'. clear Hm'.
  pose proof (Z_div_mod (Z.pos m1 * 2 ^ s) (Z.pos m2) eq_refl) as Hdiv.
  destruct (Z.div_eucl (Z.pos m1 * 2 ^ s) (Z.pos m2)) as [q r].
  destruct Hdiv as [Ha Hr]. cbn [fst snd].
  assert (0 < 2 ^ s)%Z as H2s by (apply Z.pow_pos_nonneg; lia).
  assert (0 <= q)%Z as Hq by nia.
  pose proof (bpow_pos e1) as Hu1. pose proof (bpow_pos e2) as Hu2.
  pose proof (bpow_pos e') as Hu'.
  assert (0 < IZR (Z.pos m1)) as HM1 by (apply IZR_lt; lia).
  assert (0 < IZR (Z.pos m2)) as HM2 by (apply IZR_lt; lia).
  split; [exact Hq | split; [| split; [unfold e'; lia |]]].
  - assert (V = (IZR q + IZR r / IZR (Z.pos m2)) * bpow e') as HV.
    { unfold V. replace e1 with (s + (e' + e2))%Z by (unfold s; lia).
      rewrite !bpow_add. apply (f_equal IZR) in Ha.
      rewrite !mult_IZR, plus_IZR, mult_IZR, <- bpow_IZR in Ha by lia.
      set (M1 := IZR (Z.pos m1)) in *. set (M2 := IZR (Z.pos m2)) in *.
      set (bs := bpow s) in *.
      transitivity (M1 * bs * bpow e' / M2); [field; lra | rewrite Ha; field; lra]. }
    assert (IZR r / IZR (Z.pos m2) * IZR (Z.pos m2) = IZR r) as Hrho by (field; lra).
    set (rho := IZR r / IZR (Z.pos m2)) in *.
    unfold new_location. rewrite Heven. unfold new_location_even.
    destruct (r =? 0)%Z eqn:Er.
    + apply Z.eqb_eq in Er. subst r. cbn [located]. rewrite HV.
      assert (rho = 0) as -> by nra. ring.
    + apply Z.eqb_neq in Er.
      assert (1 <= r)%Z as Hr1 by lia. apply IZR_le in Hr1.
      destruct (2 * r ?= Z.pos m2)%Z eqn:C; cbn [located]; rewrite HV.
      * apply Z.compare_eq_iff in C. apply (f_equal IZR) in C. rewrite mult_IZR in C.
        assert (rho = / 2) as -> by nra. reflexivity.
      * apply Z.compare_lt_iff in C. apply IZR_lt in C. rewrite mult_IZR in C.
        assert (0 < rho < / 2) by (split; nra). split; nra.
      * apply Z.compare_gt_iff in C. apply IZR_lt in C. rewrite mult_IZR in C.
        destruct Hr as [_ Hr]. apply IZR_lt in Hr.
        assert (/ 2 < rho < 1) by (split; nra). split; nra.
  - pose proof (digits_bpow_le (Z.pos m1) e1 ltac:(lia)) as Hd1.
    pose proof (digits_bpow_lt (Z.pos m2) e2 ltac:(lia)) as Hd2.
    unfold V, X.
    replace (Zdigits2 (Z.pos m1) + e1 - (Zdigits2 (Z.pos m2) + e2) - 1)%Z
      with (Zdigits2 (Z.pos m1) - 1 + e1 + - (Zdigits2 (Z.pos m2) + e2))%Z by lia.
    rewrite bpow_add, bpow_opp.
    pose proof (bpow_pos (Zdigits2 (Z.pos m1) - 1 + e1)) as Ha0.
    pose proof (bpow_pos (Zdigits2 (Z.pos m2) + e2)) as Hb0.
    set (a0 := bpow (Zdigits2 (Z.pos m1) - 1 + e1)) in *.
    set (b0 := bpow (Zdigits2 (Z.pos m2) + e2)) in *.
    set (A := IZR (Z.pos m1) * bpow e1) in *.
    set (B := IZR (Z.pos m2) * bpow e2) in *.
    assert (0 < B) as HB by (unfold B; nra).
    unfold Rdiv. apply Rmult_le_compat; [lra | | exact Hd1 |].
    + apply Rlt_le, Rinv_0_lt_compat. exact Hb0.
    + apply Rlt_le, Rinv_lt_contravar; [nra | exact Hd2].
Qed.

(** Division by [100] never overflows. *)
Lemma div_100_spec (x : float) :
  finite x ->
  finite (x / 100) /\
  Rabs (B2R (x / 100) - B2R x / 100) <=
    bpow (-1075) + Rabs (B2R x) / 100 * bpow (-53).
Proof.
  unfold finite, B2R. rewrite FloatAxioms.div_spec.
  change (Prim2SF 100) with (S754_finite false 7036874417766400 (-46)).
  pose proof (bpow_pos (-1075)) as Hb1. pose proof (bpow_pos (-53)) as Hb2.
  destruct (Prim2SF x) as [s|s| |s m e] eqn:Hx; try contradiction; intros _.
  - cbn [SF64div SFdiv SF2R]. split; [exact I |].
    unfold Rdiv. rewrite !Rmult_0_l, Rminus_0_r, Rabs_R0. lra.
  - cbn [SF64div SFdiv].
    destruct (valid_finite x s m e Hx) as (_ & He & Hm).
    destruct (SFdiv_core_located m 7036874417766400 e (-46) eq_refl)
      as (Hq & Hloc & He' & HX).
    rewrite hundred_value in Hloc, HX.
    set (X := (Zdigits2 (Z.pos m) + e - (Zdigits2 (Z.pos 7036874417766400) + -46))%Z) in *.
    destruct (SFdiv_core_binary prec emax (Z.pos m) e (Z.pos 7036874417766400) (-46))
      as [[q e'] l]. cbn [fst snd] in *.
    cbn [SF2R] in *. rewrite Rabs_Rsign in *.
    assert (IZR (Z.pos m) * bpow e < 64 * bpow 1018) as Hlt.
    { pose proof (digits_bpow_lt (Z.pos m) e ltac:(lia)) as Hd.
      assert (Zdigits2 (Z.pos m) <= 53)%Z as Hd53 by (apply Zdigits2_upper; lia).
      pose proof (bpow_le (Zdigits2 (Z.pos m) + e) (6 + 1018) ltac:(lia)) as Hle.
      rewrite (bpow_add 6 1018), (bpow_IZR 6) in Hle by lia.
      change (2 ^ 6)%Z with 64%Z in Hle. lra. }
    set (P := IZR (Z.pos m) * bpow e) in *.
    assert (0 < P) as HP by (pose proof (bpow_pos e); pose proof (IZR_lt 0 (Z.pos m) ltac:(lia)); unfold P; nra).
    rewrite (Rabs_pos_eq P) in * by lra.
    pose proof (located_ge _ _ _ _ Hloc) as Hge.
    pose proof (bpow_pos 1018) as H1018.
    assert (X - 1 < 1018)%Z as HX1 by (apply bpow_lt_inv; lra).
    assert (cexp q e' <= 970)%Z as Hc.
    { destruct (cexp_bounds q e') as (_ & _ & _ & Hcases).
      destruct (Z.eq_dec q 0%Z) as [->|Hne]; [cbn [Zdigits2] in Hcases; lia |].
      pose proof (digits_bpow_le q e' ltac:(lia)) as Hd.
      assert (Zdigits2 q - 1 + e' < 1018)%Z by (apply bpow_lt_inv; lra).
      lia. }
    destruct (binary_round_aux_spec (P / 100) (xorb s false) q e' l Hq Hloc)
      as [[_ Hbig]|(m1 & Hm1 & Hfin & Hval & Herr)]; [lia |].
    split; [exact Hfin |]. rewrite Hval, xorb_false_r.
    replace (Rsign s * (IZR m1 * bpow (cexp q e')) - Rsign s * P / 100)
      with (Rsign s * (IZR m1 * bpow (cexp q e') - P / 100)) by field.
    rewrite Rabs_Rsign.
    pose proof (cexp_ulp (P / 100) q e' X Hq Hge HX He') as Hulp.
    replace (-1074)%Z with (-1075 + 1)%Z in Hulp by lia.
    replace (-52)%Z with (-53 + 1)%Z in Hulp by lia.
    rewrite !bpow_succ in Hulp. lra.
Qed.

(** *** [roundToPrecision] on binary64 *)

Lemma bpow_neg (n : positive) : bpow (Z.neg n) = / IZR (2 ^ Z.pos n).
Proof.
  change (Z.neg n) with (- Z.pos n)%Z. rewrite bpow_opp, bpow_IZR by lia.
  reflexivity.
Qed.

Lemma bpow_neg_53 : bpow (-53) = / 9007199254740992.
Proof. apply (bpow_neg 53). Qed.

Lemma bpow_neg_51 : bpow (-51) = / 2251799813685248.
Proof. apply (bpow_neg 51). Qed.

Lemma bpow_neg_60 : bpow (-60) = / 1152921504606846976.
Proof. apply (bpow_neg 60). Qed.

Lemma bpow_tiny : 0 < bpow (-1075) < / 1152921504606846976 / 1024.
Proof.
  split; [apply bpow_pos |].
  eapply Rlt_le_trans; [apply (bpow_lt (-1075) (-70)); lia |].
  rewrite (bpow_neg 70).
  change (2 ^ 70)%Z with 1180591620717411303424%Z. lra.
Qed.

Theorem roundToPrecision_binary64 (p : float) :
  finite p -> finite (p * 100) ->
  finite (roundToPrecision p 2) /\
  (exists n : Z,
     half_away (B2R (p * 100)) n /\
     Rabs (B2R (p * 100) - 100 * B2R p) <=
       bpow (-1075) + 100 * Rabs (B2R p) * bpow (-53) /\
     Rabs (B2R (roundToPrecision p 2) - IZR n / 100) <=
       bpow (-1075) + Rabs (IZR n) / 100 * bpow (-53)) /\
  Rabs (B2R (roundToPrecision p 2) - B2R p) <=
    1 / 200 + Rabs (B2R p) * bpow (-51) + bpow (-60).
Proof.
  intros Hfin Hf1. unfold roundToPrecision. rewrite pow10_2.
  destruct (mul_100_spec p Hfin) as [He1 _]. specialize (He1 Hf1).
  destruct (Round_spec (p * 100) Hf1) as (n & Hf2 & Hv2 & Hn).
  destruct (div_100_spec _ Hf2) as [Hf3 He3].
  split; [exact Hf3 | split; [exists n; rewrite Hv2 in He3; auto |]].
  pose proof (Rabs_pos (B2R p)) as Ha0.
  pose proof (Rabs_le_inv _ _ (Rle_refl (Rabs (B2R p)))) as HP.
  pose proof bpow_tiny as Hc.
  rewrite Hv2 in He3. rewrite bpow_neg_53, bpow_neg_51, bpow_neg_60 in *.
  set (a := Rabs (B2R p)) in *. set (P := B2R p) in *.
  set (c := bpow (-1075)) in *. set (y := B2R (p * 100)) in *.
  apply Rabs_le_inv in He1.
  assert (- (1 / 2) <= IZR n - y <= 1 / 2) as He2.
  { destruct Hn as [Hn1 Hn2]. destruct (Rle_or_lt 0 y) as [Hy|Hy].
    - specialize (Hn1 Hy). lra.
    - specialize (Hn2 ltac:(lra)). lra. }
  assert (Rabs (IZR n) <= 100 * a + (c + 100 * a * / 9007199254740992) + 1 / 2) as Hn'
    by (apply Rabs_le; lra).
  pose proof (Rabs_pos (IZR n)) as Hn0.
  set (an := Rabs (IZR n)) in *. set (N := IZR n) in *.
  set (r := B2R (math.Round (p * 100) / 100)) in *.
  apply Rabs_le_inv in He3. apply Rabs_le. lra.
Qed.

End Binary64.

(** The size of a value by its exponent. *)
Lemma B2R_le_bpow (x : float) (k : Z) :
  (magnitude x <= k)%Z -> (Rabs (B2R x) <= bpow k)%R.
Proof.
  unfold magnitude, B2R. intros H.
  destruct (Prim2SF x) as [s|s| |s m e]; cbn [SF2R];
    try (rewrite Rabs_R0; apply Rlt_le, bpow_pos).
  rewrite Rabs_Rsign.
  pose proof (digits_bpow_lt (Z.pos m) e ltac:(lia)) as Hd.
  pose proof (bpow_le _ _ H) as Hle. pose proof (bpow_pos e) as Hu.
  pose proof (IZR_lt 0 (Z.pos m) ltac:(lia)) as Hm.
  rewrite Rabs_pos_eq; [| apply Rmult_le_pos; apply Rlt_le; assumption].
  apply Rlt_le. eapply Rlt_le_trans; [exact Hd | exact Hle].
Qed.

(** The double nearest to 2.675 lies below it and its product with 100 is
    rounded to 267.5: the cent returned is not the nearest one, and the
    distance is above 0.005 by less than the rounding of the product. *)
Example roundToPrecision_tolerance :
  Prim2SF 2.675 = S754_finite false 6023564501608038 (-51) /\
  (2.675 * 100)%float = 267.5%float /\
  roundToPrecision 2.675 2 = 2.68%float.
Proof. vm_compute. repeat split; reflexivity. Qed.

(** C5 as it is stated fails at [1e307]: the product with 100 overflows,
    the infinity is rounded to itself, divided, and returned. *)
Lemma roundToPrecision_overflow :
  finite 1e307 /\ roundToPrecision 1e307 2 = infinity /\
  ~ rounds_to_cent 1e307.
Proof.
  split; [exact I | split; [vm_compute; reflexivity |]].
  intros [H _]. vm_compute in H. exact H.
Qed.

(** C5, for the prices whose product with 100 does not overflow: for a
    finite [p] with [p * 100] finite, which every [p] up to [2^1000] in
    size is, [roundToPrecision p 2] is [p * 100] rounded to the nearest
    integer [n], halves away from zero, and divided by 100, each step on
    binary64; the result is a number within half a unit in the last place
    of [n / 100] and within [0.005 + |p| / 2^51 + 1 / 2^60] of [p].  The
    same two lines in exact arithmetic give the multiple of 0.01 nearest to
    [p], halves away from zero.  [roundToPrecision 1234.567 2] is the
    float [1234.57]. *)
Theorem roundToPrecision_nearest_cent :
  (forall p : float,
     finite p -> finite (p * 100)%float ->
     rounds_to_cent p /\
     exists n : Z,
       half_away (B2R (p * 100)%float) n /\
       (Rabs (B2R (p * 100)%float - 100 * B2R p) <=
          bpow (-1075) + 100 * Rabs (B2R p) * bpow (-53))%R /\
       (Rabs (B2R (roundToPrecision p 2) - IZR n / 100) <=
          bpow (-1075) + Rabs (IZR n) / 100 * bpow (-53))%R) /\
  (forall p : float,
     finite p -> (Rabs (B2R p) <= bpow 1000)%R -> finite (p * 100)%float) /\
  (forall x : float,
     roundToPrecision x 2 = (math.Round (x * 100) / 100)%float) /\
  (forall p : Q,
     (Exact.roundToPrecision p 2 == inject_Z (Exact.Round (p * 100)) / 100)%Q /\
     (Qabs (Exact.roundToPrecision p 2 - p) <= 1 # 200)%Q /\
     (forall k : Z, (p * 100 == inject_Z k + (1 # 2))%Q ->
        (Exact.roundToPrecision p 2 ==
           inject_Z (if (0 <=? k)%Z then k + 1 else k) / 100)%Q)) /\
  roundToPrecision 1234.567 2 = 1234.57%float.
Proof.
  split; [| split; [| split; [| split]]].
  - intros p Hp Hy.
    destruct (roundToPrecision_binary64 p Hp Hy) as (Hf & Hn & Hb).
    split; [split; [exact Hf | exact Hb] | exact Hn].
  - intros p Hp Hb. exact (proj2 (mul_100_spec p Hp) Hb).
  - intros x. unfold roundToPrecision. rewrite pow10_2. reflexivity.
  - exact Exact_roundToPrecision_cent.
  - vm_compute. reflexivity.
Qed.

(** Witness for C5 at the price 1234.567 and at the ties 0.005 and
    -0.015. *)
Lemma roundToPrecision_nearest_cent_witness :
  rounds_to_cent 1234.567 /\ finite (1234.567 * 100)%float /\
  (Exact.roundToPrecision (5 # 1000) 2 == 1 # 100)%Q /\
  (Exact.roundToPrecision (- 15 # 1000) 2 == - 2 # 100)%Q.
Proof.
  destruct roundToPrecision_nearest_cent as (Hb & Hr & _ & Hq & _).
  split; [| split; [| split]].
  - apply (Hb 1234.567%float); vm_compute; exact I.
  - apply (Hr 1234.567%float); [vm_compute; exact I |].
    apply B2R_le_bpow, Z.leb_le. vm_compute. reflexivity.
  - destruct (Hq (5 # 1000)) as (_ & _ & Ht). rewrite (Ht 0%Z); reflexivity.
  - destruct (Hq (- 15 # 1000)) as (_ & _ & Ht). rewrite (Ht (-2)%Z); reflexivity.
Defined.


(** ** The monad *)

Lemma bind_unfold {A B} (m : M A) (f : A -> M B) (w : World) :
  (m ≫= f) w =
  match m w with
  | (Return a, w') => f a w'
  | (Panic e, w') => (Panic e, w')
  | (Exit c, w') => (Exit c, w')
  | (Pending, w') => (Pending, w')
  end.
Proof. reflexivity. Qed.


(** ** The reader *)

Lemma scan_loop_acc (lines acc : list string) :
  length acc <= Chart.max ->
  fold_left
    (fun contents line =>
       (if Chart.max <=? length contents then drop 1 contents else contents) ++ [line])
    lines acc
  = last_n Chart.max (acc ++ lines).
Proof.
  revert acc. induction lines as [|line lines IH]; intros acc Hacc.
  - unfold last_n. rewrite app_nil_r.
    replace (length acc - Chart.max)%nat with 0%nat by lia. reflexivity.
  - cbn [fold_left]. rewrite IH.
    + unfold last_n. destruct (Nat.leb_spec Chart.max (length acc)) as [Hle|Hlt].
      * destruct acc as [|a acc]; [unfold Chart.max in *; cbn in *; lia |].
        cbn [drop]. rewrite drop_0. rewrite <- (app_assoc acc [line] lines).
        cbn [app]. rewrite !length_app. cbn [length] in *.
        rewrite length_app. cbn [length].
        replace (S (length acc + S (length lines)) - Chart.max)%nat
          with (S (length acc + S (length lines) - Chart.max))%nat by lia.
        reflexivity.
      * rewrite <- app_assoc. reflexivity.
    + destruct (Nat.leb_spec Chart.max (length acc)); rewrite length_app; cbn [length].
      * rewrite length_drop. unfold Chart.max in *. lia.
      * lia.
Qed.

Lemma scan_loop_last (lines : list string) :
  Chart.scan_loop lines = last_n Chart.max lines.
Proof. unfold Chart.scan_loop. rewrite scan_loop_acc; [reflexivity | cbn; lia]. Qed.


Section Reader.
Variable ParseFloat : string -> option float.

Lemma fill_points_series (w : World) (lines done : list string) :
  forall (pre rest : list XY),
    length pre = length done ->
    length rest = length lines ->
    Chart.fill_points ParseFloat (done ++ lines)
      (seq (length done) (length lines)) (pre ++ rest) w
    = match series_from ParseFloat (length done) lines with
      | inl e => (Panic e, w)
      | inr pts => (Return (pre ++ pts), w)
      end.
Proof.
  revert done. induction lines as [|line lines IH]; intros done pre rest Hpre Hrest.
  - destruct rest; [| discriminate]. reflexivity.
  - destruct rest as [|r rest]; [discriminate |].
    cbn [length seq Chart.fill_points series_from].
    rewrite lookup_app_r by lia. rewrite Nat.sub_diag. cbn [lookup list_lookup].
    destruct (strings.Split line "|" !! 1%nat) as [field|]; [| reflexivity].
    destruct (ParseFloat field) as [y|]; [| reflexivity].
    rewrite <- Hpre, insert_app_r_alt by lia. rewrite Nat.sub_diag. cbn [insert list_insert].
    specialize (IH (done ++ [line]) (pre ++ [{| X := Chart.float64 (length pre); Y := y |}]) rest).
    rewrite !length_app in IH. cbn [length] in IH.
    rewrite Hpre in IH. rewrite !Nat.add_1_r in IH.
    rewrite <- !app_assoc in IH. cbn [app] in IH.
    rewrite Hpre. rewrite IH by (cbn in Hrest; lia).
    destruct (series_from ParseFloat (S (length done)) lines); [reflexivity |].
    rewrite <- app_assoc. reflexivity.
Qed.

Lemma len_append (s1 s2 : string) : bufio.len (s1 +:+ s2) = (bufio.len s1 + bufio.len s2)%Z.
Proof. unfold bufio.len. rewrite length_append. lia. Qed.

Lemma len_nonneg (s : string) : (0 <= bufio.len s)%Z.
Proof. unfold bufio.len. lia. Qed.

Lemma total_bytes_nonneg (lines : list string) : (0 <= total_bytes lines)%Z.
Proof.
  induction lines as [|l ls IH]; cbn [total_bytes foldr]; [lia |].
  fold (total_bytes ls). pose proof (len_nonneg l). lia.
Qed.

(** Through a descriptor opened read-only, a write either stays in the
    buffer or fails. *)
Lemma WriteString_rdonly (b : bufio.Writer) (s : string) (w : World) :
  bufio.err b = None ->
  os.Flag (bufio.wr b) = os.O_RDONLY ->
  bufio.WriteString b s w =
  if (bufio.Buffered b + bufio.len s <=? bufio.defaultBufSize)%Z
  then (Return (bufio.fill b s, None), w)
  else
    (Return (bufio.fail
               (if (bufio.Buffered b =? 0)%Z then b
                else bufio.fill b (substring 0 (Z.to_nat (bufio.Available b)) s))
               (EBADF "write" (os.Name (bufio.wr b))),
             Some (EBADF "write" (os.Name (bufio.wr b)))), w).
Proof.
  intros Herr Hflag. unfold bufio.WriteString. rewrite Herr.
  unfold bufio.Available.
  destruct (Z.leb_spec (bufio.len s) (bufio.defaultBufSize - bufio.Buffered b)) as [H1|H1];
    destruct (Z.leb_spec (bufio.Buffered b + bufio.len s) bufio.defaultBufSize) as [H2|H2];
    try lia; [reflexivity |].
  destruct (Z.eqb_spec (bufio.Buffered b) 0) as [H0|H0].
  - unfold bufio.forward, os.WriteString. rewrite Hflag. reflexivity.
  - set (b1 := bufio.fill b (substring 0 (Z.to_nat (bufio.defaultBufSize - bufio.Buffered b)) s)).
    assert (bufio.err b1 = None) as Herr1 by exact Herr.
    assert (bufio.wr b1 = bufio.wr b) as Hwr1 by reflexivity.
    assert (bufio.Buffered b1 <> 0)%Z as Hb1.
    { assert (forall x, bufio.len (bufio.buf b +:+ x) <> 0)%Z as Hx.
      { intros x. rewrite len_append. pose proof (len_nonneg x).
        pose proof (len_nonneg (bufio.buf b)). unfold bufio.Buffered in H0. lia. }
      apply Hx. }
    rewrite bind_unfold. unfold bufio.Flush. rewrite Herr1.
    destruct (Z.eqb_spec (bufio.Buffered b1) 0) as [Hz|_]; [contradiction |].
    rewrite bind_unfold. unfold os.WriteString. rewrite Hwr1, Hflag.
    reflexivity.
Qed.

Lemma write_lines_rdonly (contents : list string) :
  forall (b : bufio.Writer) (w : World),
    bufio.err b = None ->
    os.Flag (bufio.wr b) = os.O_RDONLY ->
    (bufio.Buffered b <= bufio.defaultBufSize)%Z ->
    (if (bufio.Buffered b + total_bytes contents <=? bufio.defaultBufSize)%Z
     then exists b', Chart.write_lines b contents w = (Return b', w)
     else Chart.write_lines b contents w
          = (Panic (EBADF "write" (os.Name (bufio.wr b))), w)).
Proof.
  induction contents as [|line rest IH]; intros b w Herr Hflag Hb.
  - cbn [total_bytes foldr]. rewrite Z.add_0_r.
    destruct (Z.leb_spec (bufio.Buffered b) bufio.defaultBufSize); [| lia].
    exists b. reflexivity.
  - cbn [total_bytes foldr Chart.write_lines]. fold (total_bytes rest).
    rewrite bind_unfold, (WriteString_rdonly _ _ _ Herr Hflag).
    assert (bufio.len (line +:+ lit "\n") = bufio.len line + 1)%Z as Hlen
      by (rewrite len_append; reflexivity).
    rewrite Hlen. pose proof (total_bytes_nonneg rest) as Hrest.
    destruct (Z.leb_spec (bufio.Buffered b + (bufio.len line + 1)) bufio.defaultBufSize)
      as [H1|H1].
    + specialize (IH (bufio.fill b (line +:+ lit "\n")) w Herr Hflag).
      assert (bufio.Buffered (bufio.fill b (line +:+ lit "\n"))
              = bufio.Buffered b + (bufio.len line + 1))%Z as Hbuf.
      { unfold bufio.Buffered, bufio.fill. cbn [bufio.buf]. rewrite len_append, Hlen.
        reflexivity. }
      rewrite Hbuf in IH. specialize (IH H1).
      replace (bufio.Buffered b + (bufio.len line + 1 + total_bytes rest))%Z
        with (bufio.Buffered b + (bufio.len line + 1) + total_bytes rest)%Z by lia.
      exact IH.
    + destruct (Z.leb_spec (bufio.Buffered b + (bufio.len line + 1 + total_bytes rest))
                           bufio.defaultBufSize); [lia |].
      reflexivity.
Qed.

Lemma os_Open_run (fname : string) (w : World) :
  os.Open fname w =
  match files w !! fname with
  | None => (Return (inr (ENOENT "open" fname)), w)
  | Some _ => (Return (inl {| os.Name := fname; os.Flag := os.O_RDONLY |}), w)
  end.
Proof.
  unfold os.Open, os.OpenFile. rewrite bind_unfold. unfold get_files.
  destruct (files w !! fname) as [[c|]|]; reflexivity.
Qed.

Lemma os_ReadAll_run (f : os.File) (w : World) :
  os.ReadAll f w =
  (Return (match files w !! os.Name f with
           | Some (RegularFile c) => c
           | _ => EmptyString
           end), w).
Proof.
  unfold os.ReadAll. rewrite bind_unfold. unfold get_files.
  destruct (files w !! os.Name f) as [[c|]|]; reflexivity.
Qed.

(** What [fetchPoints] does, as a function of the store. *)
Lemma fetchPoints_spec (symbolName fname : string) (w : World) :
  Chart.fetchPoints ParseFloat symbolName fname w =
  match files w !! fname with
  | None => (Panic (ENOENT "open" fname), w)
  | Some n =>
      let content := match n with RegularFile c => c | Directory => EmptyString end in
      match series_from ParseFloat 0 (retained content) with
      | inl e => (Panic e, w)
      | inr pts =>
          if (total_bytes (retained content) <=? bufio.defaultBufSize)%Z
          then (Return pts, w)
          else (Panic (EBADF "write" fname), w)
      end
  end.
Proof.
  unfold Chart.fetchPoints.
  rewrite bind_unfold, os_Open_run.
  destruct (files w !! fname) as [n|] eqn:Hf; [| reflexivity].
  rewrite bind_unfold, os_ReadAll_run. cbn [os.Name]. rewrite Hf.
  set (content := match n with RegularFile c => c | Directory => EmptyString end).
  replace (match n with RegularFile c => c | Directory => "" end) with content
    by reflexivity.
  cbv zeta. rewrite scan_loop_last. fold (retained content).
  set (kept := retained content).
  rewrite bind_unfold, length_replicate.
  pose proof (fill_points_series w kept [] [] (replicate (length kept) {| X := 0; Y := 0 |}))
    as Hfill.
  cbn [app length] in Hfill. rewrite Hfill by (rewrite ?length_replicate; reflexivity).
  destruct (series_from ParseFloat 0 kept) as [e|pts]; [reflexivity |].
  rewrite bind_unfold.
  pose proof (write_lines_rdonly kept
                (bufio.NewWriter {| os.Name := fname; os.Flag := os.O_RDONLY |}) w
                eq_refl eq_refl) as Hw.
  change (bufio.Buffered (bufio.NewWriter {| os.Name := fname; os.Flag := os.O_RDONLY |}))
    with 0%Z in Hw.
  rewrite Z.add_0_l in Hw. specialize (Hw ltac:(unfold bufio.defaultBufSize; lia)).
  destruct (total_bytes kept <=? bufio.defaultBufSize)%Z.
  - destruct Hw as [b' ->]. reflexivity.
  - rewrite Hw. reflexivity.
Qed.
End Reader.

Section ReaderFacts.

Variable ParseFloat : string -> option float.

Lemma last_n_length {A} (n : nat) (l : list A) :
  length (last_n n l) = Nat.min (length l) n.
Proof. unfold last_n. rewrite length_drop. lia. Qed.

Lemma Split_no_sep (s : string) (sep : ascii) :
  strings.Contains s sep = false -> strings.Split s sep = [s].
Proof.
  induction s as [|c s IH]; [reflexivity |].
  cbn [strings.Contains strings.Split]. intros H.
  apply orb_false_iff in H as [Hc Hs]. rewrite Hc, (IH Hs). reflexivity.
Qed.

Lemma series_from_ok (lines : list string) (ys : list float) :
  Forall2 (fun line y => price_of ParseFloat line = Some y) lines ys ->
  forall i,
    series_from ParseFloat i lines
    = inr (imap (fun j y => {| X := Chart.float64 (i + j); Y := y |}) ys).
Proof.
  induction 1 as [|line y lines ys Hy _ IH]; intros i; [reflexivity |].
  cbn [series_from]. unfold price_of in Hy.
  destruct (strings.Split line "|" !! 1%nat) as [field|]; [| discriminate].
  cbn in Hy. rewrite Hy, IH. cbn [imap]. rewrite Nat.add_0_r.
  do 2 f_equal. apply imap_ext. intros j z _. cbv [compose].
  rewrite <- Nat.add_succ_comm. reflexivity.
Qed.

Lemma series_from_no_sep (good : list string) (ys : list float)
      (line : string) (rest : list string) :
  Forall2 (fun line y => price_of ParseFloat line = Some y) good ys ->
  strings.Contains line "|" = false ->
  forall i,
    series_from ParseFloat i (good ++ line :: rest) = inl (IndexOutOfRange 1 1).
Proof.
  intros Hgood Hline.
  induction Hgood as [|l y good ys Hy _ IH]; intros i.
  - cbn [app series_from]. rewrite (Split_no_sep _ _ Hline). reflexivity.
  - cbn [app series_from]. unfold price_of in Hy.
    destruct (strings.Split l "|" !! 1%nat) as [field|]; [| discriminate].
    cbn in Hy. rewrite Hy, IH. reflexivity.
Qed.

(** The file is never rewritten: whatever happens, [fetchPoints] leaves the
    store as it found it. *)
Lemma fetchPoints_world (symbolName fname : string) (w : World) :
  snd (Chart.fetchPoints ParseFloat symbolName fname w) = w.
Proof.
  rewrite fetchPoints_spec.
  destruct (files w !! fname) as [n|]; [| reflexivity].
  cbv zeta.
  destruct (series_from ParseFloat 0 _); [reflexivity |].
  destruct (_ <=? _)%Z; reflexivity.
Qed.

(** When the lines that are kept fit the buffer of the writer, the series
    has one point per kept line, in file order, with the index as [X] and
    the parsed price as [Y]. *)
Lemma fetchPoints_series (symbolName fname content : string) (w : World)
      (ys : list float) :
  files w !! fname = Some (RegularFile content) ->
  Forall2 (fun line y => price_of ParseFloat line = Some y) (retained content) ys ->
  (total_bytes (retained content) <= bufio.defaultBufSize)%Z ->
  Chart.fetchPoints ParseFloat symbolName fname w
  = (Return (imap (fun i y => {| X := Chart.float64 i; Y := y |}) ys), w)
  /\ length ys = Nat.min (length (bufio.ScanLines content)) 100.
Proof.
  intros Hf Hys Hsize. split.
  - rewrite fetchPoints_spec, Hf. cbv zeta.
    rewrite (series_from_ok _ _ Hys 0).
    destruct (Z.leb_spec (total_bytes (retained content)) bufio.defaultBufSize);
      [reflexivity | lia].
  - rewrite <- (Forall2_length _ _ _ Hys). apply last_n_length.
Qed.

(** When they do not fit, the flush through the read-only descriptor
    fails and [fetchPoints] panics. *)
Lemma fetchPoints_overflow (symbolName fname content : string) (w : World)
      (ys : list float) :
  files w !! fname = Some (RegularFile content) ->
  Forall2 (fun line y => price_of ParseFloat line = Some y) (retained content) ys ->
  (bufio.defaultBufSize < total_bytes (retained content))%Z ->
  Chart.fetchPoints ParseFloat symbolName fname w
  = (Panic (EBADF "write" fname), w).
Proof.
  intros Hf Hys Hsize.
  rewrite fetchPoints_spec, Hf. cbv zeta.
  rewrite (series_from_ok _ _ Hys 0).
  destruct (Z.leb_spec (total_bytes (retained content)) bufio.defaultBufSize);
    [lia | reflexivity].
Qed.

(** C9: when a kept line has no ["|"] and the kept lines before it are
    well formed, [fetchPoints] panics on the second field of the split:
    index 1 out of range for a slice of length 1. *)
Theorem fetchPoints_no_separator (symbolName fname content : string) (w : World)
        (good : list string) (ys : list float) (line : string) (rest : list string) :
  files w !! fname = Some (RegularFile content) ->
  retained content = good ++ line :: rest ->
  Forall2 (fun line y => price_of ParseFloat line = Some y) good ys ->
  strings.Contains line "|" = false ->
  Chart.fetchPoints ParseFloat symbolName fname w
  = (Panic (IndexOutOfRange 1 1), w).
Proof.
  intros Hf Hkept Hgood Hline.
  rewrite fetchPoints_spec, Hf. cbv zeta.
  rewrite Hkept, (series_from_no_sep _ _ _ _ Hgood Hline). reflexivity.
Qed.

End ReaderFacts.

(** Witness for C9: a history whose second line has no separator. *)
Lemma fetchPoints_no_separator_witness :
  Chart.fetchPoints strconv.ParseFloat "Ethereum" ".data.1027"
    (world_with ".data.1027" (lit "2024-01-01 00:00:00|1.50\n2024-01-01 01:00:00 1.75\n"))
  = (Panic (IndexOutOfRange 1 1),
     world_with ".data.1027" (lit "2024-01-01 00:00:00|1.50\n2024-01-01 01:00:00 1.75\n")).
Proof.
  apply (fetchPoints_no_separator strconv.ParseFloat "Ethereum" ".data.1027"
           (lit "2024-01-01 00:00:00|1.50\n2024-01-01 01:00:00 1.75\n") _
           ["2024-01-01 00:00:00|1.50"] [1.5%float] "2024-01-01 01:00:00 1.75" []).
  - reflexivity.
  - vm_compute. reflexivity.
  - constructor; [vm_compute; reflexivity | constructor].
  - reflexivity.
Defined.

(** C1: [fetchPoints] never changes the store; on a history of 101 lines
    it returns 100 points and the file still holds its 101 lines. *)
Theorem fetchPoints_does_not_rewrite :
  (forall (ParseFloat : string -> option float) (symbolName fname : string)
          (w : World),
      snd (Chart.fetchPoints ParseFloat symbolName fname w) = w) /\
  (let w := world_with ".data.1027" (history (numbered 101)) in
   let r := Chart.fetchPoints strconv.ParseFloat "Ethereum" ".data.1027" w in
   (exists pts, fst r = Return pts /\ length pts = 100%nat) /\
   length (bufio.ScanLines (file_content (snd r) ".data.1027")) = 101%nat).
Proof.
  split; [exact fetchPoints_world |].
  cbv zeta. rewrite fetchPoints_world. split.
  - eexists. split; [vm_compute; reflexivity | reflexivity].
  - vm_compute. reflexivity.
Qed.

(** C2: on a history of 90 well-formed lines of 46 bytes each (with the
    newline), 4140 bytes in all, [fetchPoints] returns no series, whatever
    the parser: the writer overflows its 4096 bytes and the flush through
    the read-only descriptor panics. *)
Theorem fetchPoints_long_lines_panic :
  let prices := replicate 90 "1000000000000000000000.00" in
  let w := world_with ".data.1027" (history prices) in
  Forall (fun line => is_Some (price_of strconv.ParseFloat line))
         (bufio.ScanLines (history prices)) /\
  length (bufio.ScanLines (history prices)) = 90%nat /\
  total_bytes (retained (history prices)) = 4140%Z /\
  Chart.fetchPoints strconv.ParseFloat "Ethereum" ".data.1027" w
  = (Panic (EBADF "write" ".data.1027"), w) /\
  (forall ParseFloat : string -> option float,
      exists e, Chart.fetchPoints ParseFloat "Ethereum" ".data.1027" w = (Panic e, w)).
Proof.
  cbv zeta. split; [| split; [| split; [| split]]].
  - apply Forall_forall. intros line Hin.
    assert (bufio.ScanLines (history (replicate 90 "1000000000000000000000.00"))
            = replicate 90 "2024-01-01 00:00:00|1000000000000000000000.00") as E
      by (vm_compute; reflexivity).
    rewrite E in Hin. apply elem_of_replicate in Hin as [-> _].
    vm_compute. eexists. reflexivity.
  - vm_compute. reflexivity.
  - vm_compute. reflexivity.
  - vm_compute. reflexivity.
  - intros ParseFloat. rewrite fetchPoints_spec.
    unfold world_with at 1. cbn [files]. rewrite lookup_singleton_eq. cbv zeta.
    destruct (series_from ParseFloat 0 _) as [e|pts]; [eexists; reflexivity |].
    assert ((total_bytes (retained (history (replicate 90 "1000000000000000000000.00")))
             <=? bufio.defaultBufSize)%Z = false) as -> by (vm_compute; reflexivity).
    eexists. reflexivity.
Qed.

(** ** Formatted text *)

Lemma all_in_append (allowed s1 s2 : string) :
  all_in allowed (s1 +:+ s2) = all_in allowed s1 && all_in allowed s2.
Proof.
  induction s1 as [|c s1 IH]; [reflexivity |].
  rewrite append_cons. cbn [all_in]. rewrite IH. apply andb_assoc.
Qed.

Lemma all_in_not_contains (allowed s : string) (c : ascii) :
  all_in allowed s = true -> strings.Contains allowed c = false ->
  strings.Contains s c = false.
Proof.
  intros Hs Hc. induction s as [|c' s IH]; [reflexivity |].
  cbn [all_in strings.Contains] in *. apply andb_true_iff in Hs as [H1 H2].
  rewrite (IH H2), orb_false_r.
  destruct (Ascii.eqb_spec c' c) as [->|]; [congruence | reflexivity].
Qed.

Lemma uint_numeric (d : Decimal.uint) :
  all_in numeric (NilEmpty.string_of_uint d) = true.
Proof. induction d; cbn [NilEmpty.string_of_uint all_in]; [reflexivity | rewrite IHd; reflexivity ..]. Qed.

Lemma digits_numeric (n : Z) : all_in numeric (digits n) = true.
Proof.
  unfold digits, NilZero.string_of_uint.
  destruct (N.to_uint (Z.to_N n)) eqn:E; rewrite <- ?E; try apply uint_numeric.
  reflexivity.
Qed.

Lemma two_digits_numeric (n : Z) : all_in numeric (two_digits n) = true.
Proof.
  unfold two_digits. rewrite all_in_append, digits_numeric.
  destruct (n <? 10)%Z; reflexivity.
Qed.

Lemma FormatFloat_f2_numeric (x : float) :
  all_in numeric (fmt.FormatFloat_f2 x) = true.
Proof.
  unfold fmt.FormatFloat_f2.
  destruct (Prim2SF x) as [[]|[]| |[] m e];
    rewrite ?all_in_append, ?digits_numeric, ?two_digits_numeric; reflexivity.
Qed.

Lemma zeros_numeric (k : nat) :
  all_in numeric (string_of_list_ascii (repeat "0"%char k)) = true.
Proof. induction k as [|k IH]; [reflexivity |]. cbn [repeat string_of_list_ascii all_in]. rewrite IH. reflexivity. Qed.

Lemma appendInt_numeric (x : Z) (width : nat) :
  all_in numeric (time.appendInt x width) = true.
Proof.
  unfold time.appendInt.
  rewrite !all_in_append, zeros_numeric, digits_numeric.
  destruct (x <? 0)%Z; reflexivity.
Qed.

Lemma Format_numeric (t : time.Time) : all_in numeric (time.Format t) = true.
Proof.
  unfold time.Format. rewrite !all_in_append, !appendInt_numeric. reflexivity.
Qed.

Lemma Split_app_sep (s1 s2 : string) (sep : ascii) :
  strings.Contains s1 sep = false ->
  strings.Split (s1 +:+ String sep s2) sep = s1 :: strings.Split s2 sep.
Proof.
  induction s1 as [|c s1 IH]; intros H.
  - rewrite append_nil_l. cbn [strings.Split]. rewrite Ascii.eqb_refl. reflexivity.
  - cbn [strings.Contains] in H. apply orb_false_iff in H as [Hc Hs].
    rewrite append_cons. cbn [strings.Split]. rewrite Hc, (IH Hs). reflexivity.
Qed.

Lemma Split_unlines (ls : list string) :
  Forall (fun l => strings.Contains l nl = false) ls ->
  strings.Split (unlines ls) nl = ls ++ [EmptyString].
Proof.
  induction 1 as [|l ls Hl _ IH]; [reflexivity |].
  cbn [unlines]. rewrite (Split_app_sep _ _ _ Hl), IH. reflexivity.
Qed.

Lemma raw_lines_unlines (ls : list string) :
  Forall (fun l => strings.Contains l nl = false) ls ->
  bufio.raw_lines (unlines ls) = ls.
Proof.
  intros H. unfold bufio.raw_lines. rewrite (Split_unlines _ H).
  rewrite last_snoc, removelast_last. reflexivity.
Qed.

Lemma unlines_snoc (ls : list string) (l : string) :
  unlines (ls ++ [l]) = unlines ls +:+ l +:+ String nl EmptyString.
Proof.
  induction ls as [|x ls IH]; [reflexivity |].
  cbn [app unlines]. rewrite IH. string_norm. reflexivity.
Qed.

Lemma Sprintf_data (key : string) : fmt.Sprintf ".data.%s" key = ".data." +:+ key.
Proof. cbv [fmt.Sprintf fmt.parse_format fmt.sprintf_go]. rewrite append_nil_r. reflexivity. Qed.

Lemma Sprintf_sample (tFmt : string) (price : float) :
  fmt.Sprintf (lit "%s|%.2f\n") tFmt price
  = (tFmt +:+ "|" +:+ fmt.FormatFloat_f2 price) +:+ lit "\n".
Proof.
  cbv [fmt.Sprintf fmt.parse_format fmt.sprintf_go lit nl]. string_norm. reflexivity.
Qed.

Lemma os_OpenFile_append (name : string) (w : World) :
  os.OpenFile name os.O_APPEND_WRONLY_CREATE w =
  match files w !! name with
  | Some (RegularFile _) =>
      (Return (inl {| os.Name := name; os.Flag := os.O_APPEND_WRONLY_CREATE |}), w)
  | Some Directory => (Return (inr (EISDIR "open" name)), w)
  | None =>
      (Return (inl {| os.Name := name; os.Flag := os.O_APPEND_WRONLY_CREATE |}),
       {| files := <[name := RegularFile EmptyString]> (files w); trace := trace w |})
  end.
Proof.
  unfold os.OpenFile. rewrite bind_unfold. unfold get_files.
  destruct (files w !! name) as [[c|]|]; reflexivity.
Qed.

Lemma os_WriteString_append (f : os.File) (s c : string) (w : World) :
  os.Flag f = os.O_APPEND_WRONLY_CREATE ->
  files w !! os.Name f = Some (RegularFile c) ->
  os.WriteString f s w =
  (Return None,
   {| files := <[os.Name f := RegularFile (c +:+ s)]> (files w); trace := trace w |}).
Proof.
  intros Hflag Hf. unfold os.WriteString. rewrite Hflag, bind_unfold.
  unfold get_files. rewrite Hf. reflexivity.
Qed.

Lemma appendSample_spec (key : string) (t : time.Time) (price : float) (w : World) :
  let fname := ".data." +:+ key in
  let line := time.Format t +:+ "|" +:+ fmt.FormatFloat_f2 price in
  Chart.appendSample key t price w =
  match files w !! fname with
  | Some Directory => (Panic (EISDIR "open" fname), w)
  | _ =>
      (Return fname,
       {| files := <[fname := RegularFile (file_content w fname +:+ line +:+ lit "\n")]> (files w);
          trace := trace w |})
  end.
Proof.
  cbv zeta. unfold Chart.appendSample, file_content.
  rewrite Sprintf_data, Sprintf_sample.
  rewrite bind_unfold, os_OpenFile_append.
  destruct (files w !! (".data." +:+ key)) as [[c|]|] eqn:Hf.
  - rewrite bind_unfold, (os_WriteString_append _ _ c) by (try reflexivity; exact Hf).
    cbn [os.Name]. rewrite append_assoc. reflexivity.
  - reflexivity.
  - rewrite bind_unfold, (os_WriteString_append _ _ EmptyString)
      by (try reflexivity; cbn [files os.Name]; apply lookup_insert_eq).
    cbn [os.Name files trace]. rewrite insert_insert_eq, append_assoc. reflexivity.
Qed.

Example Format_sample :
  time.Format {| time.Year := 2024; time.Month := 3; time.Day := 9; time.Hour := 7 |}
  = "2024-03-09 07:00:00".
Proof. vm_compute. reflexivity. Qed.

Lemma sample_line_fields (t : time.Time) (price : float) :
  strings.Split (time.Format t +:+ "|" +:+ fmt.FormatFloat_f2 price) "|"
  = [time.Format t; fmt.FormatFloat_f2 price].
Proof.
  change ("|" +:+ fmt.FormatFloat_f2 price) with (String "|"%char (fmt.FormatFloat_f2 price)).
  rewrite Split_app_sep, Split_no_sep; [reflexivity | |].
  - exact (all_in_not_contains _ _ "|"%char (FormatFloat_f2_numeric price) eq_refl).
  - exact (all_in_not_contains _ _ "|"%char (Format_numeric t) eq_refl).
Qed.

Lemma Contains_append (s1 s2 : string) (c : ascii) :
  strings.Contains (s1 +:+ s2) c = strings.Contains s1 c || strings.Contains s2 c.
Proof.
  induction s1 as [|c1 s1 IH]; [reflexivity |].
  rewrite append_cons. cbn [strings.Contains]. rewrite IH. apply orb_assoc.
Qed.

Lemma all_in_mono (allowed allowed' s : string) :
  (forall c, strings.Contains allowed c = true -> strings.Contains allowed' c = true) ->
  all_in allowed s = true -> all_in allowed' s = true.
Proof.
  intros Hsub. induction s as [|c s IH]; [reflexivity |].
  cbn [all_in]. intros H. apply andb_true_iff in H as [H1 H2].
  rewrite (Hsub _ H1), (IH H2). reflexivity.
Qed.

Lemma sample_line_contains (t : time.Time) (price : float) (c : ascii) :
  strings.Contains numeric c = false -> c <> "|"%char ->
  strings.Contains (time.Format t +:+ "|" +:+ fmt.FormatFloat_f2 price) c = false.
Proof.
  intros Hc Hbar.
  assert (forall s, all_in numeric s = true -> all_in (numeric +:+ "|") s = true) as Hmono.
  { intros s. apply all_in_mono. intros c' Hc'.
    rewrite Contains_append, Hc'. reflexivity. }
  apply (all_in_not_contains (numeric +:+ "|")).
  - rewrite !all_in_append.
    rewrite (Hmono _ (Format_numeric t)), (Hmono _ (FormatFloat_f2_numeric price)).
    reflexivity.
  - rewrite Contains_append, Hc. cbn [strings.Contains orb].
    rewrite orb_false_r. destruct (Ascii.eqb_spec "|" c); [congruence | reflexivity].
Qed.

Lemma uint_all_digits (d : Decimal.uint) :
  all_digits (NilEmpty.string_of_uint d) = true.
Proof.
  unfold all_digits.
  induction d; cbn [NilEmpty.string_of_uint all_in]; [reflexivity | rewrite IHd; reflexivity ..].
Qed.

Lemma digits_all_digits (n : Z) : digits n <> EmptyString /\ all_digits (digits n) = true.
Proof.
  unfold digits, NilZero.string_of_uint.
  destruct (N.to_uint (Z.to_N n)) eqn:E; rewrite <- ?E.
  1: split; [discriminate | reflexivity].
  all: split; [rewrite E; discriminate | apply uint_all_digits].
Qed.

Lemma two_digits_width (n : Z) :
  (0 <= n < 100)%Z ->
  String.length (two_digits n) = 2 /\ all_digits (two_digits n) = true.
Proof.
  intros Hn.
  assert (forallb (fun k => (String.length (two_digits (Z.of_nat k)) =? 2)%nat
                            && all_digits (two_digits (Z.of_nat k)))
                  (seq 0 100) = true) as Hall by (vm_compute; reflexivity).
  rewrite forallb_forall in Hall.
  specialize (Hall (Z.to_nat n)). rewrite Z2Nat.id in Hall by lia.
  apply andb_true_iff in Hall as [H1 H2].
  - split; [apply Nat.eqb_eq; exact H1 | exact H2].
  - apply in_seq. lia.
Qed.

Lemma FormatFloat_f2_two_decimals (x : float) :
  finite x -> two_decimals (fmt.FormatFloat_f2 x).
Proof.
  unfold finite, fmt.FormatFloat_f2.
  destruct (Prim2SF x) as [s| |  |s m e]; try contradiction; intros _.
  - exists (if s then "-" else ""), "0", "00".
    split; [destruct s; reflexivity |].
    split; [destruct s; auto |]. repeat split; discriminate.
  - set (n := if (0 <=? e)%Z then _ else _).
    exists (if s then "-" else ""), (digits (n / 100)), (two_digits (n mod 100)).
    split; [reflexivity |].
    split; [destruct s; auto |].
    split; [apply digits_all_digits |].
    apply two_digits_width. apply Z.mod_pos_bound. lia.
Qed.

Lemma is_finite_finite (x : float) : is_finite x = true -> finite x.
Proof.
  unfold is_finite, finite, Prim2SF. intros H.
  apply negb_true_iff, orb_false_iff in H as [Hnan Hinf].
  rewrite Hnan. destruct (PrimFloat.is_zero x); [exact I |]. rewrite Hinf.
  destruct (Z.frexp x) as [r ex].
  destruct (shr_fexp prec emax _ _ _) as [shr e'].
  destruct (shr_m shr); exact I.
Qed.

Lemma appendInt_reads (width : nat) (bound : Z) :
  forallb (fun n => (String.length (time.appendInt (Z.of_nat n) width) =? width)%nat
                    && all_digits (time.appendInt (Z.of_nat n) width)
                    && (decimal_value (time.appendInt (Z.of_nat n) width) =? Z.of_nat n)%Z)
          (seq 0 (Z.to_nat bound)) = true ->
  forall x : Z, (0 <= x < bound)%Z ->
    String.length (time.appendInt x width) = width /\
    all_digits (time.appendInt x width) = true /\
    decimal_value (time.appendInt x width) = x.
Proof.
  intros Hall x Hx. rewrite forallb_forall in Hall.
  specialize (Hall (Z.to_nat x)). rewrite Z2Nat.id in Hall by lia.
  apply andb_true_iff in Hall as [H12 H3]; [| apply in_seq; lia].
  apply andb_true_iff in H12 as [H1 H2].
  split; [apply Nat.eqb_eq; exact H1 | split; [exact H2 | apply Z.eqb_eq; exact H3]].
Qed.

Lemma appendInt_reads_4 (x : Z) :
  (0 <= x <= 9999)%Z ->
  String.length (time.appendInt x 4) = 4 /\ all_digits (time.appendInt x 4) = true /\
  decimal_value (time.appendInt x 4) = x.
Proof.
  intros Hx. apply (appendInt_reads 4 10000); [vm_compute; reflexivity | lia].
Qed.

Lemma appendInt_reads_2 (x : Z) :
  (0 <= x <= 99)%Z ->
  String.length (time.appendInt x 2) = 2 /\ all_digits (time.appendInt x 2) = true /\
  decimal_value (time.appendInt x 2) = x.
Proof.
  intros Hx. apply (appendInt_reads 2 100); [vm_compute; reflexivity | lia].
Qed.

Lemma Format_timestamp_of (t : time.Time) :
  valid_time t -> timestamp_of t (time.Format t).
Proof.
  intros (Hy & Hm & Hd & Hh).
  exists (time.appendInt (time.Year t) 4), (time.appendInt (Z.of_nat (time.Month t)) 2),
         (time.appendInt (Z.of_nat (time.Day t)) 2), (time.appendInt (Z.of_nat (time.Hour t)) 2).
  split; [reflexivity |].
  split; [apply appendInt_reads_4; lia |].
  split; [apply appendInt_reads_2; lia |].
  split; apply appendInt_reads_2; lia.
Qed.

Lemma Split_nonempty (s : string) (sep : ascii) : strings.Split s sep <> [].
Proof.
  destruct s as [|c s]; cbn [strings.Split]; [discriminate |].
  destruct (Ascii.eqb c sep); [discriminate |].
  destruct (strings.Split s sep); discriminate.
Qed.

Lemma Split_append_line (content line : string) :
  strings.Contains line nl = false ->
  strings.Split (content +:+ line +:+ String nl EmptyString) nl
  = complete_lines content ++ [open_line content +:+ line; EmptyString].
Proof.
  intros Hline. unfold complete_lines, open_line.
  induction content as [|c content IH].
  - rewrite append_nil_l. rewrite (Split_app_sep _ _ _ Hline). reflexivity.
  - rewrite append_cons. cbn [strings.Split].
    pose proof (Split_nonempty content nl) as Hne.
    rewrite IH. destruct (Ascii.eqb c nl).
    + destruct (strings.Split content nl) as [|f fs]; [contradiction |].
      cbn [removelast]. destruct fs as [|g fs]; reflexivity.
    + destruct (strings.Split content nl) as [|f fs]; [contradiction |].
      destruct fs as [|g fs]; reflexivity.
Qed.

Section Hundredths.

Local Open Scope R_scope.

Lemma round_half_even_half (num den : Z) :
  (0 < den)%Z ->
  Rabs (IZR (fmt.round_half_even num den) - IZR num / IZR den) <= 1 / 2.
Proof.
  intros Hden. unfold fmt.round_half_even.
  pose proof (Z.div_mod num den ltac:(lia)) as Hdm.
  pose proof (Z.mod_pos_bound num den Hden) as Hr.
  set (q := (num / den)%Z) in *. set (r := (num mod den)%Z) in *.
  assert (0 < IZR den) as HD by (apply IZR_lt; exact Hden).
  assert (IZR num / IZR den = IZR q + IZR r / IZR den) as Hq.
  { rewrite Hdm, plus_IZR, mult_IZR. field. lra. }
  rewrite Hq.
  assert (IZR r / IZR den * IZR den = IZR r) as Hrho by (field; lra).
  destruct Hr as [Hr0 Hr1]. apply IZR_le in Hr0. apply IZR_lt in Hr1.
  set (rho := IZR r / IZR den) in *.
  assert (0 <= rho < 1) as Hrho01 by (split; nra).
  destruct (2 * r ?= den)%Z eqn:C.
  - apply Z.compare_eq_iff in C. apply (f_equal IZR) in C.
    rewrite mult_IZR in C. assert (rho = / 2) as Hhalf by nra.
    destruct (Z.even q); rewrite ?plus_IZR; apply Rabs_le; lra.
  - apply Z.compare_lt_iff in C. apply IZR_lt in C. rewrite mult_IZR in C.
    assert (rho < / 2) by nra. apply Rabs_le; lra.
  - apply Z.compare_gt_iff in C. apply IZR_lt in C. rewrite mult_IZR in C.
    assert (/ 2 < rho) by nra. rewrite plus_IZR. apply Rabs_le; lra.
Qed.

Lemma round_half_even_nonneg (num den : Z) :
  (0 <= num)%Z -> (0 < den)%Z -> (0 <= fmt.round_half_even num den)%Z.
Proof.
  intros Hnum Hden. unfold fmt.round_half_even.
  pose proof (Z.div_pos num den Hnum Hden).
  destruct (_ ?= _)%Z; [destruct (Z.even _) | |]; lia.
Qed.

Lemma FormatFloat_f2_to_the_cent (x : float) :
  finite x -> to_the_cent x (fmt.FormatFloat_f2 x).
Proof.
  unfold finite, to_the_cent, fmt.FormatFloat_f2, signbit, B2R.
  destruct (Prim2SF x) as [s| | |s m e]; try contradiction; intros _.
  - exists 0%Z. split; [lia | split; [destruct s; reflexivity |]].
    cbn [SF2R]. rewrite Rabs_R0. replace (0 - 100 * 0) with 0 by ring.
    rewrite Rabs_R0. lra.
  - cbn [SF2R]. rewrite Rabs_Rsign.
    pose proof (bpow_pos e) as Hb.
    assert (0 < IZR (Z.pos m)) as Hm by (apply IZR_lt; lia).
    rewrite Rabs_pos_eq by (apply Rmult_le_pos; lra).
    destruct (Z.leb_spec 0 e) as [He|He].
    + exists (Z.pos m * 2 ^ e * 100)%Z.
      split; [pose proof (Z.pow_pos_nonneg 2 e); lia | split; [reflexivity |]].
      rewrite !mult_IZR, (bpow_IZR e He).
      replace (_ - _) with 0 by ring. rewrite Rabs_R0. lra.
    + assert (0 < 2 ^ (- e))%Z as Hden by (apply Z.pow_pos_nonneg; lia).
      exists (fmt.round_half_even (Z.pos m * 100) (2 ^ (- e))).
      split; [apply round_half_even_nonneg; lia | split; [reflexivity |]].
      pose proof (round_half_even_half (Z.pos m * 100) (2 ^ (- e)) Hden) as Hnear.
      replace (100 * (IZR (Z.pos m) * bpow e))
        with (IZR (Z.pos m * 100) / IZR (2 ^ (- e))); [exact Hnear |].
      rewrite mult_IZR, <- (bpow_IZR (- e)) by lia. rewrite bpow_opp.
      field. pose proof (bpow_pos e). lra.
Qed.

End Hundredths.

(** C8: when the path is not a directory, [appendSample] returns after
    adding to the file [".data." ++ key] (empty when it was absent) the
    bytes ["<time>|<price>\n"] and nothing else; other files are untouched.
    The added text is one line, with no newline before its last byte and
    the time and the price as its two fields.  Every line of the file that
    a newline ended is still there, in its place and unchanged, and one
    line comes after them: what stood after the last newline of the file,
    nothing in a history that this program wrote, followed by the sample;
    so a file of the lines [ls] becomes the file of [ls] and the sample.
    The time reads ["YYYY-MM-DD HH:00:00"] with the year, the month, the
    day and the hour of the sample, for a date with a four-digit year;
    the price, when it is a number, is written with two digits after the
    point, to the nearest hundredth and under its sign. *)
Theorem appendSample_appends_one_line (key : string) (t : time.Time)
        (price : float) (w : World) :
  let fname := ".data." +:+ key in
  let line := time.Format t +:+ "|" +:+ fmt.FormatFloat_f2 price in
  let old := file_content w fname in
  files w !! fname <> Some Directory ->
  Chart.appendSample key t price w
  = (Return fname,
     {| files := <[fname := RegularFile (old +:+ line +:+ lit "\n")]> (files w);
        trace := trace w |})
  /\ (forall other, other <> fname ->
        files (snd (Chart.appendSample key t price w)) !! other = files w !! other)
  /\ strings.Contains line nl = false
  /\ strings.Split line "|" = [time.Format t; fmt.FormatFloat_f2 price]
  /\ (complete_lines (old +:+ line +:+ lit "\n")
      = complete_lines old ++ [open_line old +:+ line] /\
      open_line (old +:+ line +:+ lit "\n") = EmptyString)
  /\ (forall ls : list string,
        Forall (fun l => strings.Contains l nl = false) ls ->
        old = unlines ls ->
        bufio.raw_lines (old +:+ line +:+ lit "\n") = ls ++ [line])
  /\ (valid_time t -> timestamp_of t (time.Format t))
  /\ (finite price ->
      two_decimals (fmt.FormatFloat_f2 price) /\
      to_the_cent price (fmt.FormatFloat_f2 price)).
Proof.
  cbv zeta. intros Hdir.
  assert (Chart.appendSample key t price w
    = (Return (".data." +:+ key),
       {| files := <[".data." +:+ key :=
                      RegularFile (file_content w (".data." +:+ key) +:+
                                   (time.Format t +:+ "|" +:+ fmt.FormatFloat_f2 price) +:+
                                   lit "\n")]> (files w);
          trace := trace w |})) as Hrun.
  { rewrite appendSample_spec. cbv zeta.
    destruct (files w !! (".data." +:+ key)) as [[c|]|]; [reflexivity | congruence | reflexivity]. }
  assert (strings.Contains (time.Format t +:+ "|" +:+ fmt.FormatFloat_f2 price) nl = false)
    as Hnl by (apply sample_line_contains; [reflexivity | discriminate]).
  split; [exact Hrun |].
  split; [| split; [exact Hnl | split; [| split; [| split; [| split]]]]].
  - intros other Hother. rewrite Hrun. cbn [snd files].
    apply lookup_insert_ne. congruence.
  - apply sample_line_fields.
  - change (lit "\n") with (String nl EmptyString).
    set (old := file_content w (".data." +:+ key)).
    set (line := time.Format t +:+ "|" +:+ fmt.FormatFloat_f2 price) in *.
    pose proof (Split_append_line old line Hnl) as Hsplit.
    change [open_line old +:+ line; EmptyString]
      with ([open_line old +:+ line] ++ [EmptyString]) in Hsplit.
    rewrite app_assoc in Hsplit.
    change (complete_lines (old +:+ line +:+ String nl EmptyString))
      with (removelast (strings.Split (old +:+ line +:+ String nl EmptyString) nl)).
    change (open_line (old +:+ line +:+ String nl EmptyString))
      with (default EmptyString
              (last (strings.Split (old +:+ line +:+ String nl EmptyString) nl))).
    rewrite Hsplit, removelast_last, last_snoc. split; reflexivity.
  - intros ls Hls Hcontent. rewrite Hcontent.
    change (lit "\n") with (String nl EmptyString).
    rewrite <- unlines_snoc. apply raw_lines_unlines.
    apply Forall_app. split; [exact Hls | constructor; [exact Hnl | constructor]].
  - apply Format_timestamp_of.
  - intros Hfin. split; [apply FormatFloat_f2_two_decimals | apply FormatFloat_f2_to_the_cent];
      exact Hfin.
Qed.

(** Witness for C8: a sample of June 2025 added to a history of one line
    of January 2024. *)
Lemma appendSample_appends_one_line_witness :
  let w := world_with ".data.1027" (history ["1234.57"]) in
  let t := {| time.Year := 2025; time.Month := 6; time.Day := 15; time.Hour := 10 |} in
  Chart.appendSample "1027" t 1234.567 w
  = (Return ".data.1027",
     world_with ".data.1027"
       (lit "2024-01-01 00:00:00|1234.57\n2025-06-15 10:00:00|1234.57\n")).
Proof.
  cbv zeta.
  destruct (appendSample_appends_one_line "1027"
              {| time.Year := 2025; time.Month := 6; time.Day := 15; time.Hour := 10 |}
              1234.567 (world_with ".data.1027" (history ["1234.57"])))
    as [Hrun _]; [vm_compute; discriminate |].
  rewrite Hrun. vm_compute. reflexivity.
Defined.

(** ** A sample, then the series *)

Lemma dropCR_id (l : string) : strings.Contains l cr = false -> bufio.dropCR l = l.
Proof.
  induction l as [|c l IH]; [reflexivity |].
  cbn [strings.Contains]. intros H. apply orb_false_iff in H as [Hc Hl].
  destruct l as [|c' l].
  - cbn [bufio.dropCR]. rewrite Hc. reflexivity.
  - change (bufio.dropCR (String c (String c' l)))
      with (String c (bufio.dropCR (String c' l))).
    rewrite (IH Hl). reflexivity.
Qed.

Lemma ScanLines_unlines (ls : list string) :
  Forall plain ls -> bufio.ScanLines (unlines ls) = ls.
Proof.
  intros Hls. unfold bufio.ScanLines.
  rewrite raw_lines_unlines
    by (eapply Forall_impl; [exact Hls | intros l (H & _ & _); exact H]).
  induction Hls as [|l ls (_ & Hcr & Hlen) _ IH]; [reflexivity |].
  cbn [bufio.take_short].
  destruct (Z.ltb_spec (bufio.len l) bufio.MaxScanTokenSize) as [_|]; [| lia].
  rewrite fmap_cons, IH, (dropCR_id _ Hcr). reflexivity.
Qed.

Lemma total_bytes_app (xs ys : list string) :
  total_bytes (xs ++ ys) = (total_bytes xs + total_bytes ys)%Z.
Proof.
  induction xs as [|x xs IH]; [reflexivity |].
  cbn [app total_bytes foldr]. fold (total_bytes (xs ++ ys)) (total_bytes xs).
  rewrite IH. lia.
Qed.

Lemma last_n_snoc {A} (n : nat) (l : list A) (x : A) :
  last_n (S n) (l ++ [x]) = last_n n l ++ [x].
Proof.
  unfold last_n. rewrite length_app. cbn [length].
  replace (length l + 1 - S n)%nat with (length l - n)%nat by lia.
  rewrite drop_app_le by lia. reflexivity.
Qed.

Section SampleThenRead.

Variable ParseFloat : string -> option float.

(** When the file holds well-formed lines and the lines then kept fit the
    buffer of the writer, the series ends with the sample just added. *)
Lemma sampleAndRead_series (key : string) (t : time.Time) (price : float)
      (w : World) (ls : list string) (ys : list float) (y : float) :
  let fname := ".data." +:+ key in
  let line := time.Format t +:+ "|" +:+ fmt.FormatFloat_f2 price in
  files w !! fname <> Some Directory ->
  file_content w fname = unlines ls ->
  Forall plain ls ->
  Forall2 (fun l y => price_of ParseFloat l = Some y) (last_n 99 ls) ys ->
  ParseFloat (fmt.FormatFloat_f2 price) = Some y ->
  (total_bytes (last_n 99 ls ++ [line]) <= bufio.defaultBufSize)%Z ->
  exists pts,
    fst (Chart.sampleAndRead ParseFloat key t price w) = Return pts /\
    pts = imap (fun i y => {| X := Chart.float64 i; Y := y |}) (ys ++ [y]) /\
    last pts = Some {| X := Chart.float64 (length ys); Y := y |}.
Proof.
  cbv zeta. intros Hdir Hcontent Hls Hys Hy Hsize.
  set (fname := ".data." +:+ key) in *.
  set (line := time.Format t +:+ "|" +:+ fmt.FormatFloat_f2 price) in *.
  assert (Chart.appendSample key t price w
          = (Return fname,
             {| files := <[fname := RegularFile (file_content w fname +:+ line +:+ lit "\n")]> (files w);
                trace := trace w |})) as Hrun.
  { rewrite appendSample_spec. cbv zeta. fold fname line.
    destruct (files w !! fname) as [[c|]|]; [reflexivity | congruence | reflexivity]. }
  assert (strings.Contains line nl = false) as Hnl
    by (apply sample_line_contains; [reflexivity | discriminate]).
  pose proof (sample_line_fields t price) as Hfields. fold line in Hfields.
  assert (plain line) as Hplain.
  { split; [exact Hnl | split].
    - apply sample_line_contains; [reflexivity | discriminate].
    - rewrite total_bytes_app in Hsize. cbn [total_bytes foldr] in Hsize.
      pose proof (total_bytes_nonneg (last_n 99 ls)).
      unfold bufio.defaultBufSize, bufio.MaxScanTokenSize in *. lia. }
  assert (price_of ParseFloat line = Some y) as Hline.
  { unfold price_of. rewrite Hfields. exact Hy. }
  unfold Chart.sampleAndRead. rewrite bind_unfold, Hrun.
  set (w' := {| files := _; trace := _ |}).
  assert (files w' !! fname
          = Some (RegularFile (unlines (ls ++ [line])))) as Hf'.
  { unfold w'. cbn [files]. rewrite lookup_insert_eq, Hcontent, unlines_snoc.
    reflexivity. }
  assert (retained (unlines (ls ++ [line])) = last_n 99 ls ++ [line]) as Hkept.
  { unfold retained. rewrite ScanLines_unlines.
    - apply (last_n_snoc 99).
    - apply Forall_app. split; [exact Hls | constructor; [exact Hplain | constructor]]. }
  destruct (fetchPoints_series ParseFloat key fname _ w' (ys ++ [y]) Hf') as [Hread _].
  - rewrite Hkept. apply Forall2_app; [exact Hys | constructor; [exact Hline | constructor]].
  - rewrite Hkept. exact Hsize.
  - rewrite Hread. eexists. split; [reflexivity | split; [reflexivity |]].
    rewrite imap_app. cbn [imap]. rewrite last_snoc, Nat.add_0_r. reflexivity.
Qed.

End SampleThenRead.

Example sampleAndRead_105 :
  let w := world_with ".data.1027" (history (numbered 105)) in
  let t := {| time.Year := 2024; time.Month := 1; time.Day := 2; time.Hour := 0 |} in
  let r := Chart.sampleAndRead strconv.ParseFloat "1027" t 1234.567 w in
  exists pts,
    fst r = Return pts /\ length pts = 100%nat /\
    X <$> pts = Chart.float64 <$> seq 0 100 /\
    Y <$> head pts = Some 6.5%float /\
    last pts = Some {| X := 99; Y := 1234.57 |} /\
    length (bufio.ScanLines (file_content (snd r) ".data.1027")) = 106%nat.
Proof.
  cbv zeta. eexists.
  split; [vm_compute; reflexivity |].
  repeat split; vm_compute; reflexivity.
Qed.

(** C10: a history of 89 well-formed lines of 46 bytes (4094 bytes) is read
    back whole; after one more sample the 4119 bytes kept overflow the
    writer of [fetchPoints], the flush through the read-only descriptor
    fails, and no series is returned, whatever the parser. The sample stays
    in the file. *)
Theorem sampleAndRead_overflow_panics :
  let prices := replicate 89 "1000000000000000000000.00" in
  let w := world_with ".data.1027" (history prices) in
  let t := {| time.Year := 2024; time.Month := 1; time.Day := 2; time.Hour := 0 |} in
  let w' := world_with ".data.1027"
              (history prices +:+ lit "2024-01-02 00:00:00|1.00\n") in
  (exists pts,
     Chart.fetchPoints strconv.ParseFloat "1027" ".data.1027" w = (Return pts, w) /\
     length pts = 89%nat) /\
  strconv.ParseFloat (fmt.FormatFloat_f2 1) = Some 1%float /\
  Chart.sampleAndRead strconv.ParseFloat "1027" t 1 w
  = (Panic (EBADF "write" ".data.1027"), w') /\
  (forall ParseFloat : string -> option float,
      exists e, Chart.sampleAndRead ParseFloat "1027" t 1 w = (Panic e, w')).
Proof.
  cbv zeta. split; [| split; [| split]].
  - eexists. split; [vm_compute; reflexivity | reflexivity].
  - vm_compute. reflexivity.
  - vm_compute. reflexivity.
  - intros ParseFloat. unfold Chart.sampleAndRead.
    rewrite bind_unfold, appendSample_spec. cbv zeta.
    set (w := world_with ".data.1027" _).
    assert (files w !! (".data." +:+ "1027")
            = Some (RegularFile (history (replicate 89 "1000000000000000000000.00"))))
      as Hf by (vm_compute; reflexivity).
    rewrite Hf.
    match goal with
    | |- context [Chart.fetchPoints _ _ _ ?w1] =>
        assert (w1 = world_with ".data.1027"
                       (history (replicate 89 "1000000000000000000000.00") +:+
                        lit "2024-01-02 00:00:00|1.00\n")) as ->
          by (vm_compute; reflexivity)
    end.
    rewrite fetchPoints_spec.
    unfold world_with at 1. cbn [files].
    change (".data." +:+ "1027") with ".data.1027".
    rewrite lookup_singleton_eq. cbv zeta.
    destruct (series_from ParseFloat 0 _) as [e|pts]; [eexists; reflexivity |].
    assert ((total_bytes
               (retained (history (replicate 89 "1000000000000000000000.00") +:+
                          lit "2024-01-02 00:00:00|1.00\n"))
             <=? bufio.defaultBufSize)%Z = false) as -> by (vm_compute; reflexivity).
    eexists. reflexivity.
Qed.

(** ** The text of a cycle *)

Lemma collect_keys_id (order : list string) : collect_keys order = order.
Proof.
  unfold collect_keys.
  assert (forall acc, fold_left (fun keys key => keys ++ [key]) order acc = acc ++ order)
    as H.
  { induction order as [|k order IH]; intros acc; cbn [fold_left].
    - symmetry. apply app_nil_r.
    - rewrite IH, <- app_assoc. reflexivity. }
  apply H.
Qed.

Lemma Builder_fold (f : string -> string) (keys : list string) (acc : string) :
  fold_left (fun b key => Builder.WriteString b (f key)) keys acc
  = acc +:+ foldr (fun key rest => f key +:+ rest) EmptyString keys.
Proof.
  revert acc. induction keys as [|k keys IH]; intros acc; cbn [fold_left foldr].
  - symmetry. apply append_nil_r.
  - rewrite IH. unfold Builder.WriteString. apply append_assoc.
Qed.

Lemma format_blocks (resData : Response) (order : list string) :
  Text.format resData order = blocks resData (sort.Strings order).
Proof.
  unfold Text.format, blocks, Builder.String, Builder.empty.
  rewrite collect_keys_id.
  rewrite (Builder_fold (fun key => caption (map_get (Data resData) zeroCryptoData key))).
  reflexivity.
Qed.

Lemma sort_Strings_sorted (x : list string) : StronglySorted String.le (sort.Strings x).
Proof. apply StronglySorted_merge_sort; apply _. Qed.

Lemma sort_Strings_perm (x : list string) : sort.Strings x ≡ₚ x.
Proof. apply merge_sort_Permutation. Qed.

Lemma sort_Strings_unique (x y : list string) :
  x ≡ₚ y -> sort.Strings x = sort.Strings y.
Proof.
  intros Hxy.
  apply (StronglySorted_unique String.le _ _
           (sort_Strings_sorted x) (sort_Strings_sorted y)).
  rewrite !sort_Strings_perm. exact Hxy.
Qed.

Lemma sort_Strings_is (x sorted : list string) :
  x ≡ₚ sorted -> StronglySorted String.le sorted -> sort.Strings x = sorted.
Proof.
  intros Hperm Hsorted.
  apply (StronglySorted_unique String.le _ _ (sort_Strings_sorted x) Hsorted).
  rewrite sort_Strings_perm. exact Hperm.
Qed.

(** C6: the text of a cycle lists the assets in increasing order of their
    keys, whatever the order in which the map is visited; with the keys
    "1027", "5426" and "34625" the order is 1027, 34625, 5426. *)
Theorem format_sorted_keys (resData : Response) :
  (exists keys,
      keys ≡ₚ (map_to_list (Data resData)).*1 /\
      StronglySorted String.le keys /\
      NoDup keys /\
      forall order, ranges (Data resData) order ->
                    Text.format resData order = blocks resData keys) /\
  (forall order1 order2,
      ranges (Data resData) order1 -> ranges (Data resData) order2 ->
      Text.format resData order1 = Text.format resData order2) /\
  (forall (eth sol pip : CryptoData) (order : list string),
      Data resData = {[ "1027" := eth; "5426" := sol; "34625" := pip ]} ->
      ranges (Data resData) order ->
      Text.format resData order = caption eth +:+ caption pip +:+ caption sol).
Proof.
  split; [| split].
  - exists (sort.Strings (map_to_list (Data resData)).*1).
    split; [apply sort_Strings_perm | split; [apply sort_Strings_sorted | split]].
    + rewrite sort_Strings_perm. apply NoDup_fst_map_to_list.
    + intros order Horder. rewrite format_blocks.
      f_equal. apply sort_Strings_unique. exact Horder.
  - intros order1 order2 H1 H2. rewrite !format_blocks.
    f_equal. apply sort_Strings_unique. unfold ranges in *. rewrite H1, H2. reflexivity.
  - intros eth sol pip order Hdata Horder. rewrite format_blocks.
    unfold ranges in Horder. rewrite Hdata in Horder.
    rewrite (sort_Strings_is order ["1027"; "34625"; "5426"]).
    + unfold blocks. rewrite Hdata. cbn [foldr]. rewrite append_nil_r.
      reflexivity.
    + rewrite Horder. vm_compute.
      apply (Permutation_app_comm [_; _] [_]).
    + apply (bool_decide_unpack _). vm_compute. exact I.
Qed.

(** Witness for C6: two visits of the same three assets, in different
    orders, give the same text. *)
Lemma format_sorted_keys_witness :
  let resData :=
    {| RStatus := {| Timestamp := ""; ErrorCode := 0; ErrorMessage := None;
                     Elapsed := 0; CreditCount := 1; Notice := None |};
       Data := {[ "1027" := zeroCryptoData; "5426" := zeroCryptoData;
                  "34625" := zeroCryptoData ]} |} in
  Text.format resData ["5426"; "34625"; "1027"]
  = Text.format resData ["34625"; "1027"; "5426"].
Proof.
  cbv zeta.
  match goal with
  | |- Text.format ?r _ = _ => destruct (format_sorted_keys r) as (_ & H & _)
  end.
  apply H; unfold ranges; vm_compute.
  - apply perm_swap.
  - apply perm_skip, perm_swap.
Defined.


(** C3: with an error code other than zero and no data, the cycle of the
    text variant sends an empty text, sleeps and returns; the chart variant
    sends nothing. The status of the response is never read: the text
    depends on the data alone. *)
Theorem cycle_empty_on_error (ParseFloat : string -> option float)
        (gonum : plot.Library) (it : iteration) (resData : Response) (w : World) :
  response it = Decoded resData ->
  ErrorCode (RStatus resData) <> 0%Z ->
  Data resData = ∅ ->
  ranges (Data resData) (range_order it) ->
  Text.format resData (range_order it) = EmptyString /\
  Text.cycle it w
  = (Return tt,
     {| files := files w;
        trace := trace w ++ [Get; SendText EmptyString; Sleep 5] |}) /\
  Chart.cycle ParseFloat gonum it w
  = (Return tt, {| files := files w; trace := trace w ++ [Get; Sleep 15] |}) /\
  (forall (status : Status) (order : list string),
      Text.format {| RStatus := status; Data := Data resData |} order
      = Text.format resData order).
Proof.
  intros Hresp _ Hdata Horder.
  assert (range_order it = []) as Hnil.
  { unfold ranges in Horder. rewrite Hdata, map_to_list_empty in Horder.
    apply Permutation_nil_r in Horder. exact Horder. }
  split; [| split; [| split]].
  - rewrite Hnil. reflexivity.
  - unfold Text.cycle. rewrite Hresp, Hnil.
    unfold mbind, M_bind, emit. cbn [trace files].
    rewrite <- !app_assoc. reflexivity.
  - unfold Chart.cycle. rewrite Hresp, Hnil. cbv zeta.
    change (sort.Strings (collect_keys [])) with (@nil string).
    cbn [for_each]. unfold mbind, M_bind, mret, M_ret, emit. cbn [trace files].
    rewrite <- !app_assoc. reflexivity.
  - intros status order. reflexivity.
Qed.

(** Witness for C3: error code 1001 and no data. *)
Lemma cycle_empty_on_error_witness :
  let resData :=
    {| RStatus := {| Timestamp := "2024-01-01T00:00:00.000Z"; ErrorCode := 1001;
                     ErrorMessage := Some "This API Key is invalid.";
                     Elapsed := 0; CreditCount := 0; Notice := None |};
       Data := ∅ |} in
  let it :=
    {| stop_ready := false; response := Decoded resData; range_order := [];
       now := fun _ => {| time.Year := 2024; time.Month := 1; time.Day := 1;
                          time.Hour := 0 |} |} in
  fst (Text.cycle it {| files := ∅; trace := [] |}) = Return tt /\
  trace (snd (Text.cycle it {| files := ∅; trace := [] |}))
  = [Get; SendText EmptyString; Sleep 5].
Proof.
  cbv zeta.
  match goal with
  | |- fst (Text.cycle ?it ?w) = _ /\ _ =>
      destruct (cycle_empty_on_error strconv.ParseFloat drawing it
                  {| RStatus := {| Timestamp := "2024-01-01T00:00:00.000Z";
                                   ErrorCode := 1001;
                                   ErrorMessage := Some "This API Key is invalid.";
                                   Elapsed := 0; CreditCount := 0; Notice := None |};
                     Data := ∅ |} w)
        as (_ & Hrun & _)
  end.
  - reflexivity.
  - discriminate.
  - reflexivity.
  - unfold ranges. cbn [Data]. rewrite map_to_list_empty. reflexivity.
  - rewrite Hrun. split; reflexivity.
Defined.

(** ** The loop *)

Lemma quiet_ret {A} (a : A) : quiet (mret a).
Proof.
  intros w. exists []. cbn. rewrite app_nil_r. repeat split; [constructor | discriminate].
Qed.

Lemma quiet_panic {A} (e : error) : quiet (@panic A e).
Proof.
  intros w. exists []. cbn. rewrite app_nil_r. repeat split; [constructor | discriminate].
Qed.

Lemma quiet_exit {A} (code : Z) : quiet (@os_Exit A code).
Proof.
  intros w. exists []. cbn. rewrite app_nil_r. repeat split; [constructor | discriminate].
Qed.

Lemma quiet_emit (e : event) : publish_event e -> quiet (emit e).
Proof.
  intros He w. exists [e]. cbn. repeat split; [repeat constructor; exact He | discriminate].
Qed.

Lemma quiet_bind {A B} (m : M A) (f : A -> M B) :
  quiet m -> (forall a, quiet (f a)) -> quiet (m ≫= f).
Proof.
  intros Hm Hf w. rewrite bind_unfold.
  destruct (Hm w) as (b1 & Ht1 & Hb1 & Hp1).
  destruct (m w) as [[a|e|c|] w1]; cbn [fst snd] in *.
  - destruct (Hf a w1) as (b2 & Ht2 & Hb2 & Hp2).
    exists (b1 ++ b2). rewrite Ht2, Ht1, app_assoc.
    repeat split; [apply Forall_app; split; assumption | exact Hp2].
  - exists b1. repeat split; [exact Ht1 | exact Hb1 | discriminate].
  - exists b1. repeat split; [exact Ht1 | exact Hb1 | discriminate].
  - contradiction.
Qed.

Lemma quiet_same_world {A} (m : M A) :
  (forall w, trace (snd (m w)) = trace w /\ fst (m w) <> Pending) -> quiet m.
Proof.
  intros H w. destruct (H w) as [Ht Hp]. exists [].
  rewrite app_nil_r. repeat split; [exact Ht | constructor | exact Hp].
Qed.

Lemma quiet_for_each {A} (body : A -> M unit) (l : list A) :
  (forall a, quiet (body a)) -> quiet (for_each body l).
Proof.
  intros Hbody. induction l as [|a l IH]; cbn [for_each].
  - apply quiet_ret.
  - apply quiet_bind; [apply Hbody | intros _; exact IH].
Qed.

Lemma once_after_get (m : M unit) :
  quiet m ->
  forall w, exists body,
      trace (snd ((emit Get;; m) w)) = trace w ++ body /\
      one_cycle body /\
      fst ((emit Get;; m) w) <> Pending.
Proof.
  intros Hm w. rewrite bind_unfold. unfold emit. cbv beta iota.
  set (w1 := {| files := files w; trace := trace w ++ [Get] |}).
  destruct (Hm w1) as (rest & Ht & Hrest & Hp).
  exists (Get :: rest). split; [| split; [| exact Hp]].
  - rewrite Ht. unfold w1. cbn [trace]. rewrite <- app_assoc. reflexivity.
  - exists rest. split; [reflexivity | exact Hrest].
Qed.

Lemma text_cycle_once : fetches_once Text.cycle.
Proof.
  intros it w. unfold Text.cycle. apply once_after_get.
  destruct (response it).
  - apply quiet_exit.
  - apply quiet_exit.
  - apply quiet_bind; [apply quiet_emit; exact I |].
    intros _. apply quiet_emit. exact I.
Qed.

Lemma quiet_fetchPoints (ParseFloat : string -> option float)
      (symbolName fname : string) :
  quiet (Chart.fetchPoints ParseFloat symbolName fname).
Proof.
  apply quiet_same_world. intros w. rewrite fetchPoints_spec.
  destruct (files w !! fname) as [n|]; [| split; [reflexivity | discriminate]].
  cbv zeta. destruct (series_from ParseFloat 0 _); [split; [reflexivity | discriminate] |].
  destruct (_ <=? _)%Z; split; try reflexivity; discriminate.
Qed.

Lemma quiet_appendSample (key : string) (t : time.Time) (price : float) :
  quiet (Chart.appendSample key t price).
Proof.
  apply quiet_same_world. intros w. rewrite appendSample_spec. cbv zeta.
  destruct (files w !! (".data." +:+ key)) as [[c|]|];
    split; try reflexivity; discriminate.
Qed.

Lemma Save_run (gonum : plot.Library) (title : string) (pts : list XY)
      (plotName : string) (w : World) :
  Chart.Save gonum title pts plotName w =
  let r := plot.Save gonum title pts plotName (files w !! plotName) in
  let w' := {| files := partial_alter (fun _ => snd r) plotName (files w);
               trace := trace w |} in
  match fst r with
  | plot.Saved => (Return None, w')
  | plot.SaveError e => (Return (Some e), w')
  | plot.SavePanic e => (Panic e, w')
  end.
Proof.
  unfold Chart.Save.
  destruct (plot.Save gonum title pts plotName (files w !! plotName)) as [[|e|e] n];
    reflexivity.
Qed.

Lemma quiet_Save (gonum : plot.Library) (title : string) (pts : list XY)
      (plotName : string) :
  quiet (Chart.Save gonum title pts plotName).
Proof.
  apply quiet_same_world. intros w. rewrite Save_run. cbv zeta.
  destruct (fst (plot.Save gonum title pts plotName (files w !! plotName)));
    split; try reflexivity; discriminate.
Qed.

Lemma chart_cycle_once (ParseFloat : string -> option float) (gonum : plot.Library) :
  fetches_once (Chart.cycle ParseFloat gonum).
Proof.
  intros it w. unfold Chart.cycle. apply once_after_get.
  destruct (response it).
  - apply quiet_exit.
  - apply quiet_exit.
  - apply quiet_bind; [| intros _; apply quiet_emit; exact I].
    apply quiet_for_each. intros key. unfold Chart.asset.
    apply quiet_bind; [apply quiet_appendSample |].
    intros fname. apply quiet_bind; [apply quiet_fetchPoints |].
    intros pts. destruct (plot.NewLinePoints gonum pts); [apply quiet_panic |].
    apply quiet_bind; [apply quiet_Save |].
    intros [e|]; [apply quiet_exit | apply quiet_emit; exact I].
Qed.

Section Loop.

Variable cycle : iteration -> M unit.
Hypothesis cycle_once : fetches_once cycle.

Lemma loop_cons (it : iteration) (env : list iteration) (w : World) :
  loop cycle (it :: env) w =
  let w1 := {| files := files w; trace := trace w ++ [Select (stop_ready it)] |} in
  if stop_ready it then (Return tt, w1)
  else
    match cycle it w1 with
    | (Return _, w2) => loop cycle env w2
    | (Panic e, w2) => (Panic e, w2)
    | (Exit c, w2) => (Exit c, w2)
    | (Pending, w2) => (Pending, w2)
    end.
Proof.
  cbn [loop]. rewrite bind_unfold. unfold emit. cbv zeta.
  destruct (stop_ready it); [reflexivity |].
  rewrite bind_unfold. reflexivity.
Qed.

Lemma loop_runs (env : list iteration) :
  forall w, exists tr,
      runs (fst (loop cycle env w)) tr /\
      trace (snd (loop cycle env w)) = trace w ++ tr.
Proof.
  induction env as [|it env IH]; intros w.
  - exists []. cbn. rewrite app_nil_r. split; [constructor | reflexivity].
  - rewrite loop_cons. cbv zeta.
    set (w1 := {| files := files w; trace := trace w ++ [Select (stop_ready it)] |}).
    assert (trace w1 = trace w ++ [Select (stop_ready it)]) as Hw1 by reflexivity.
    clearbody w1.
    destruct (stop_ready it) eqn:Hready.
    + exists [Select true]. cbn [fst snd]. split; [constructor | exact Hw1].
    + destruct (cycle_once it w1) as (body & Ht & Hbody & Hp).
      destruct (cycle it w1) as [[[]|e|c|] w2]; cbn [fst snd] in *.
      * destruct (IH w2) as (tr & Hruns & Htr).
        exists (Select false :: body ++ tr).
        split; [constructor; assumption |].
        rewrite Htr, Ht, Hw1, <- !app_assoc. reflexivity.
      * exists (Select false :: body).
        split; [constructor; assumption |].
        rewrite Ht, Hw1, <- app_assoc. reflexivity.
      * exists (Select false :: body).
        split; [constructor; assumption |].
        rewrite Ht, Hw1, <- app_assoc. reflexivity.
      * contradiction.
Qed.

Lemma loop_ignores_after_stop (pre : list iteration) (it : iteration)
      (post : list iteration) :
  stop_ready it = true ->
  forall w, loop cycle (pre ++ it :: post) w = loop cycle (pre ++ [it]) w.
Proof.
  intros Hready. induction pre as [|p pre IH]; intros w.
  - cbn [app]. rewrite !loop_cons, Hready. reflexivity.
  - cbn [app]. rewrite !loop_cons. cbv zeta.
    destruct (stop_ready p); [reflexivity |].
    destruct (cycle p _) as [[[]|e|c|] w2]; try reflexivity.
    apply IH.
Qed.

Lemma rounds_cons (it : iteration) (pre : list iteration) (w : World) :
  rounds cycle (it :: pre) w =
  match cycle it {| files := files w; trace := trace w ++ [Select false] |} with
  | (Return _, w2) => rounds cycle pre w2
  | (Panic e, w2) => (Panic e, w2)
  | (Exit c, w2) => (Exit c, w2)
  | (Pending, w2) => (Pending, w2)
  end.
Proof.
  unfold rounds. cbn [for_each]. rewrite !bind_unfold. unfold emit at 1.
  destruct (cycle it _) as [[[]|e|c|] w2]; reflexivity.
Qed.

Lemma rounds_not_pending (pre : list iteration) :
  forall w, fst (rounds cycle pre w) <> Pending.
Proof.
  induction pre as [|p pre IH]; intros w.
  - cbn. discriminate.
  - rewrite rounds_cons.
    destruct (cycle_once p {| files := files w; trace := trace w ++ [Select false] |})
      as (body & _ & _ & Hp).
    destruct (cycle p _) as [[[]|e|c|] w2]; cbn [fst] in *;
      [apply IH | discriminate | discriminate | exact Hp].
Qed.

Lemma loop_rounds (pre : list iteration) (it : iteration) (post : list iteration) :
  Forall (fun i => stop_ready i = false) pre -> stop_ready it = true ->
  forall w,
    loop cycle (pre ++ it :: post) w =
    match rounds cycle pre w with
    | (Return _, w') =>
        (Return tt, {| files := files w'; trace := trace w' ++ [Select true] |})
    | (Panic e, w') => (Panic e, w')
    | (Exit c, w') => (Exit c, w')
    | (Pending, w') => (Pending, w')
    end.
Proof.
  intros Hpre Hready. induction Hpre as [|p pre Hp _ IH]; intros w.
  - cbn [app]. rewrite loop_cons, Hready. reflexivity.
  - cbn [app]. rewrite loop_cons, rounds_cons, Hp. cbv zeta.
    destruct (cycle p _) as [[[]|e|c|] w2]; try reflexivity.
    apply IH.
Qed.

Lemma pollApi_with_stops : stops_at_signal cycle (pollApi_with cycle).
Proof.
  intros chat w. split; [| split; [| split]].
  - intros env. unfold pollApi_with, with_defer.
    destruct (loop_runs env w) as (tr & Hruns & Htr).
    exists tr.
    destruct (loop cycle env w) as [[[]|e|c|] w']; cbn [fst snd released emit trace] in *;
      (split; [exact Hruns |]); rewrite Htr, ?app_nil_r, <- ?app_assoc; reflexivity.
  - intros it post Hready. unfold pollApi_with, with_defer.
    rewrite loop_cons, Hready. cbv zeta. unfold emit. cbn [snd trace files].
    rewrite <- app_assoc. reflexivity.
  - intros pre it post Hready. unfold pollApi_with, with_defer.
    rewrite (loop_ignores_after_stop pre it post Hready). reflexivity.
  - intros pre it post Hpre Hready. unfold pollApi_with, with_defer.
    rewrite (loop_rounds pre it post Hpre Hready).
    pose proof (rounds_not_pending pre w) as Hp.
    destruct (rounds cycle pre w) as [[[]|e|c|] w']; cbn [fst snd emit trace files] in *.
    + split; [discriminate |]. rewrite <- app_assoc. reflexivity.
    + split; [discriminate | reflexivity].
    + split; [discriminate | reflexivity].
    + contradiction.
Qed.

End Loop.

Lemma text_rounds (pre : list iteration) :
  Forall (fun i => decodes i = true) pre ->
  forall w,
    rounds Text.cycle pre w
    = (Return tt,
       {| files := files w; trace := trace w ++ concat (text_round <$> pre) |}).
Proof.
  induction 1 as [|p pre Hp _ IH]; intros w.
  - cbn. rewrite app_nil_r. destruct w; reflexivity.
  - rewrite rounds_cons, fmap_cons. cbn [concat].
    unfold decodes in Hp. unfold text_round at 1. unfold Text.cycle at 1.
    destruct (response p) as [| |resData]; try discriminate.
    unfold mbind, M_bind, emit. cbn [files trace].
    rewrite IH. cbn [files trace]. rewrite <- !app_assoc. reflexivity.
Qed.

(** C7: in both variants the stop signal is looked at once per iteration,
    before the cycle and never inside it; when it is found, at the first
    check or at a later one, the loop returns there and releases its
    completion handle, having run the cycles before that check and no
    other, and nothing of the environment after that point is used: no
    further request, text, photo or sleep.  Only a cycle that panics or
    ends the process keeps the loop from that check.  For the text
    variant, whose cycle returns whenever the response decodes, the
    events are one check, request, text and sleep per iteration, then
    the check that finds the signal and the release. *)
Theorem pollApi_stops_at_signal :
  stops_at_signal Text.cycle Text.pollApi /\
  (forall (ParseFloat : string -> option float) (gonum : plot.Library),
      stops_at_signal (Chart.cycle ParseFloat gonum) (Chart.pollApi ParseFloat gonum)) /\
  (forall (chat : Z) (w : World) (pre : list iteration) (it : iteration)
          (post : list iteration),
      Forall (fun i => stop_ready i = false /\ decodes i = true) pre ->
      stop_ready it = true ->
      Text.pollApi (Some chat) (pre ++ it :: post) w
      = (Return tt,
         {| files := files w;
            trace := trace w ++ concat (text_round <$> pre) ++ [Select true; WgDone] |})).
Proof.
  split; [| split].
  - apply pollApi_with_stops. exact text_cycle_once.
  - intros ParseFloat gonum. apply pollApi_with_stops. apply chart_cycle_once.
  - intros chat w pre it post Hpre Hready.
    destruct (pollApi_with_stops Text.cycle text_cycle_once chat w)
      as (_ & _ & _ & Hlater).
    destruct (Hlater pre it post) as [_ Hrun]; [| exact Hready |].
    + eapply Forall_impl; [exact Hpre | intros i [H _]; exact H].
    + unfold Text.pollApi. rewrite Hrun, text_rounds.
      * cbn [files trace]. rewrite <- app_assoc. reflexivity.
      * eapply Forall_impl; [exact Hpre | intros i [_ H]; exact H].
Qed.

(** Witness for C7: two cycles, then the signal; the iteration that the
    environment holds after the signal leaves no event. *)
Lemma pollApi_stops_at_signal_witness :
  let it := fun ready =>
    {| stop_ready := ready;
       response := Decoded {| RStatus := {| Timestamp := ""; ErrorCode := 0;
                                            ErrorMessage := None; Elapsed := 0;
                                            CreditCount := 1; Notice := None |};
                              Data := ∅ |};
       range_order := [];
       now := fun _ => {| time.Year := 2024; time.Month := 1; time.Day := 1;
                          time.Hour := 0 |} |} in
  Text.pollApi (Some 42%Z) [it false; it false; it true; it false]
    {| files := ∅; trace := [] |}
  = (Return tt,
     {| files := ∅;
        trace := [Select false; Get; SendText EmptyString; Sleep 5;
                  Select false; Get; SendText EmptyString; Sleep 5;
                  Select true; WgDone] |}).
Proof.
  cbv zeta.
  destruct pollApi_stops_at_signal as (_ & _ & Htext).
  match goal with
  | |- Text.pollApi _ [?a; ?b; ?c; ?d] ?w = _ =>
      pose proof (Htext 42%Z w [a; b] c [d]) as Hrun
  end.
  cbn [app] in Hrun. rewrite Hrun.
  - reflexivity.
  - repeat constructor.
  - reflexivity.
Defined.

(* ================================================================== *)
(** * Part III: the edges, the files and the ways out *)
(* ================================================================== *)

(** ** The formatter's rounding at its edges *)

Lemma SFopp_involutive (x : spec_float) : SFopp (SFopp x) = x.
Proof. destruct x as [s|s| |s m e]; cbn; rewrite ?negb_involutive; reflexivity. Qed.

Lemma opp_involutive (x : float) : (- - x)%float = x.
Proof. apply Prim2SF_inj. rewrite !FloatAxioms.opp_spec. apply SFopp_involutive. Qed.

Lemma binary_round_aux_opp (s : bool) (m e : Z) (l : location) :
  binary_round_aux prec emax (negb s) m e l
  = SFopp (binary_round_aux prec emax s m e l).
Proof.
  unfold binary_round_aux.
  destruct (shr_fexp prec emax m e l) as [mrs' e'].
  destruct (shr_fexp prec emax _ e' loc_Exact) as [mrs'' e''].
  destruct (shr_m mrs''); [reflexivity | | reflexivity].
  destruct (e'' <=? emax - prec)%Z; reflexivity.
Qed.

Lemma mul_100_opp (x : float) : (- x * 100)%float = (- (x * 100))%float.
Proof.
  apply Prim2SF_inj.
  rewrite FloatAxioms.opp_spec, !FloatAxioms.mul_spec, FloatAxioms.opp_spec.
  change (Prim2SF 100) with (S754_finite false 7036874417766400 (-46)).
  destruct (Prim2SF x) as [s|s| |s m e]; cbn [SFopp SF64mul SFmul];
    rewrite ?xorb_false_r; try reflexivity.
  apply binary_round_aux_opp.
Qed.

Lemma div_100_opp (x : float) : (- x / 100)%float = (- (x / 100))%float.
Proof.
  apply Prim2SF_inj.
  rewrite FloatAxioms.opp_spec, !FloatAxioms.div_spec, FloatAxioms.opp_spec.
  change (Prim2SF 100) with (S754_finite false 7036874417766400 (-46)).
  destruct (Prim2SF x) as [s|s| |s m e]; cbn [SFopp SF64div SFdiv];
    rewrite ?xorb_false_r; try reflexivity.
  destruct (SFdiv_core_binary prec emax (Z.pos m) e (Z.pos 7036874417766400) (-46))
    as [[mz ez] lz].
  apply binary_round_aux_opp.
Qed.

Lemma Round_opp (y : float) : math.Round (- y) = (- math.Round y)%float.
Proof.
  unfold math.Round. rewrite FloatAxioms.opp_spec.
  destruct (Prim2SF y) as [s|s| |s m e]; cbn [SFopp]; try reflexivity.
  destruct (0 <=? e)%Z; [reflexivity |].
  destruct s; cbn [negb]; [| reflexivity].
  symmetry. apply opp_involutive.
Qed.

(** Rounding is symmetric about zero: the opposite of a price is rounded
    to the opposite of its rounding, for every [float64]. *)
Theorem roundToPrecision_opp (p : float) :
  roundToPrecision (- p) 2 = (- roundToPrecision p 2)%float.
Proof.
  unfold roundToPrecision. rewrite pow10_2, mul_100_opp, Round_opp, div_100_opp.
  reflexivity.
Qed.

(** Zeros, infinities and NaN come back as they are. *)
Theorem roundToPrecision_special (p : float) :
  match Prim2SF p with
  | S754_finite _ _ _ => True
  | _ => roundToPrecision p 2 = p
  end.
Proof.
  destruct (Prim2SF p) as [s|s| |s m e] eqn:Hp; [| | | exact I].
  all: assert (Prim2SF (p * 100) = Prim2SF p) as Hy
       by (rewrite FloatAxioms.mul_spec, Hp;
           change (Prim2SF 100) with (S754_finite false 7036874417766400 (-46));
           cbn [SF64mul SFmul]; rewrite ?xorb_false_r; reflexivity).
  all: assert (math.Round (p * 100) = (p * 100)%float) as Hr
       by (unfold math.Round; rewrite Hy, Hp; reflexivity).
  all: apply Prim2SF_inj; unfold roundToPrecision;
    rewrite pow10_2, Hr, FloatAxioms.div_spec, Hy, Hp;
    change (Prim2SF 100) with (S754_finite false 7036874417766400 (-46));
    cbn [SF64div SFdiv]; rewrite ?xorb_false_r; reflexivity.
Qed.

(** ** What the formatter prints *)

Section Printing.

Local Open Scope R_scope.

Lemma binary_round_aux_sign (s : bool) (m e : Z) (l : location) :
  match binary_round_aux prec emax s m e l with
  | S754_zero s' | S754_infinity s' | S754_finite s' _ _ => s' = s
  | S754_nan => True
  end.
Proof.
  unfold binary_round_aux.
  destruct (shr_fexp prec emax m e l) as [mrs' e'].
  destruct (shr_fexp prec emax _ e' loc_Exact) as [mrs'' e''].
  destruct (shr_m mrs''); [reflexivity | | exact I].
  destruct (e'' <=? emax - prec)%Z; reflexivity.
Qed.

Lemma signbit_mul_100 (p : float) :
  finite p -> finite (p * 100) -> signbit (p * 100) = signbit p.
Proof.
  unfold finite, signbit. rewrite FloatAxioms.mul_spec.
  change (Prim2SF 100) with (S754_finite false 7036874417766400 (-46)).
  destruct (Prim2SF p) as [s|s| |s m e]; try contradiction; intros _;
    cbn [SF64mul SFmul]; [intros _; apply xorb_false_r |].
  pose proof (binary_round_aux_sign (xorb s false) (Z.pos (m * 7036874417766400))
                (e + -46) loc_Exact) as Hs.
  destruct (binary_round_aux _ _ _ _ _ _) as [s'|s'| |s' m' e'];
    try contradiction; intros _; rewrite Hs; apply xorb_false_r.
Qed.

Lemma signbit_div_100 (x : float) :
  finite x -> signbit (x / 100) = signbit x.
Proof.
  intros Hx. pose proof (proj1 (div_100_spec x Hx)) as Hfin. revert Hx Hfin.
  unfold finite, signbit. rewrite FloatAxioms.div_spec.
  change (Prim2SF 100) with (S754_finite false 7036874417766400 (-46)).
  destruct (Prim2SF x) as [s|s| |s m e]; try contradiction; intros _;
    cbn [SF64div SFdiv]; [intros _; apply xorb_false_r |].
  destruct (SFdiv_core_binary prec emax (Z.pos m) e (Z.pos 7036874417766400) (-46))
    as [[mz ez] lz].
  pose proof (binary_round_aux_sign (xorb s false) mz ez lz) as Hs.
  destruct (binary_round_aux _ _ _ _ _ _) as [s'|s'| |s' m' e'];
    try contradiction; intros _; rewrite Hs; apply xorb_false_r.
Qed.

Lemma signbit_of_uint63 (n : Z) :
  (0 <= n < 2 ^ 53)%Z -> signbit (of_uint63 (of_Z n)) = false.
Proof.
  intros Hn. pose proof (proj1 (of_uint63_exact n Hn)) as Hfin. revert Hfin.
  unfold finite, signbit. rewrite of_uint63_spec, Uint63.of_Z_spec.
  rewrite Z.mod_small by (change wB with (2 ^ 63)%Z; lia).
  destruct n as [|q|q]; try lia; cbn [binary_normalize]; [reflexivity |].
  unfold binary_round.
  destruct (shl_align q 0 (fexp prec emax (Z.pos (digits2_pos q) + 0))) as [mz ez].
  pose proof (binary_round_aux_sign false (Z.pos mz) ez loc_Exact) as Hs.
  destruct (binary_round_aux _ _ _ _ _ _) as [s'|s'| |s' m' e'];
    try contradiction; intros _; exact Hs.
Qed.

Lemma signbit_opp (x : float) : finite x -> signbit (- x) = negb (signbit x).
Proof.
  unfold finite, signbit. rewrite FloatAxioms.opp_spec.
  destruct (Prim2SF x); try contradiction; reflexivity.
Qed.

Lemma signbit_Round (y : float) : finite y -> signbit (math.Round y) = signbit y.
Proof.
  intros Hfin. unfold math.Round.
  destruct (Prim2SF y) as [s|s| |s m e] eqn:Hy; try reflexivity.
  destruct (valid_finite y s m e Hy) as (_ & He & Hm).
  destruct (0 <=? e)%Z eqn:E0; [reflexivity |].
  apply Z.leb_gt in E0.
  rewrite Z.shiftl_1_l, Z.shiftr_div_pow2 by lia.
  set (n0 := ((Z.pos m + 2 ^ (- e - 1)) / 2 ^ (- e))%Z).
  assert (0 <= n0 < 2 ^ 53)%Z as Hn0.
  { unfold n0. assert (0 < 2 ^ (- e - 1))%Z as Ha by (apply Z.pow_pos_nonneg; lia).
    assert (2 ^ (- e) = 2 * 2 ^ (- e - 1))%Z as Hk2.
    { replace (- e)%Z with (- e - 1 + 1)%Z at 1 by lia.
      rewrite Z.pow_add_r by lia. lia. }
    rewrite Hk2. split; [apply Z.div_pos; lia |].
    apply Z.div_lt_upper_bound; lia. }
  pose proof (signbit_of_uint63 n0 Hn0) as Hs.
  pose proof (proj1 (of_uint63_exact n0 Hn0)) as Hf.
  unfold signbit at 2. rewrite Hy.
  destruct s; [rewrite (signbit_opp _ Hf), Hs; reflexivity | exact Hs].
Qed.

Lemma integer_of_spec (x : float) (k : Z) :
  finite x -> B2R x = IZR k -> integer_of x = k.
Proof.
  unfold finite, B2R, integer_of.
  destruct (Prim2SF x) as [s|s| |s m e] eqn:Hx; try contradiction; intros _;
    cbn [SF2R]; intros Hk.
  - apply eq_IZR. exact Hk.
  - cbv zeta. destruct (0 <=? e)%Z eqn:E0.
    + apply Z.leb_le in E0. apply eq_IZR. rewrite <- Hk.
      destruct s; unfold Rsign; rewrite ?opp_IZR, mult_IZR, <- bpow_IZR by lia; ring.
    + apply Z.leb_gt in E0.
      assert (0 < 2 ^ (- e))%Z as HD by (apply Z.pow_pos_nonneg; lia).
      assert ((if s then - Z.pos m else Z.pos m) = k * 2 ^ (- e))%Z as Hz.
      { apply eq_IZR. rewrite mult_IZR, <- bpow_IZR, <- Hk by lia.
        rewrite Rmult_assoc, Rmult_assoc, <- bpow_add.
        replace (e + - e)%Z with 0%Z by lia. change (bpow 0) with 1.
        destruct s; unfold Rsign; rewrite ?opp_IZR; ring. }
      destruct s.
      * replace (Z.pos m) with (- k * 2 ^ (- e))%Z by lia.
        rewrite Z.div_mul by lia. lia.
      * rewrite Hz, Z.div_mul by lia. reflexivity.
Qed.

(** The quotient rounded by [round_half_even] is the integer within less
    than one half of it. *)
Lemma round_half_even_near (num den k : Z) :
  (0 < den)%Z -> Rabs (IZR num / IZR den - IZR k) < 1 / 2 ->
  fmt.round_half_even num den = k.
Proof.
  intros Hden Hnear. unfold fmt.round_half_even.
  pose proof (Z.div_mod num den ltac:(lia)) as Hdm.
  pose proof (Z.mod_pos_bound num den Hden) as Hr.
  set (q := (num / den)%Z) in *. set (r := (num mod den)%Z) in *.
  apply Rabs_def2 in Hnear. destruct Hnear as [H1 H2].
  assert (0 < IZR den) as HD by (apply IZR_lt; exact Hden).
  assert (IZR num / IZR den = IZR q + IZR r / IZR den) as Hq.
  { rewrite Hdm, plus_IZR, mult_IZR. field. lra. }
  rewrite Hq in H1, H2.
  assert (IZR r / IZR den * IZR den = IZR r) as Hrho by (field; lra).
  destruct Hr as [Hr0 Hr1]. apply IZR_le in Hr0. apply IZR_lt in Hr1.
  set (rho := IZR r / IZR den) in *.
  assert (0 <= rho < 1) as Hrho01 by (split; nra).
  assert (forall a b : Z, IZR a - IZR b < 1 -> IZR b - IZR a < 1 -> a = b) as Hint.
  { intros a b Ha Hb. apply IZR_near. apply Rabs_def1; lra. }
  destruct (2 * r ?= den)%Z eqn:C.
  - exfalso. apply Z.compare_eq_iff in C. apply (f_equal IZR) in C.
    rewrite mult_IZR in C. assert (rho = / 2) as Hhalf by nra.
    assert (q < k)%Z as Hlt by (apply lt_IZR; lra).
    assert (k < q + 1)%Z as Hlt' by (apply lt_IZR; rewrite plus_IZR; lra).
    lia.
  - apply Z.compare_lt_iff in C. apply IZR_lt in C. rewrite mult_IZR in C.
    assert (rho < / 2) by nra. apply Hint; lra.
  - apply Z.compare_gt_iff in C. apply IZR_lt in C. rewrite mult_IZR in C.
    assert (/ 2 < rho) by nra. apply Hint; rewrite plus_IZR; lra.
Qed.

Lemma bpow_43 : bpow 43 = 8796093022208.
Proof. rewrite bpow_IZR by lia. reflexivity. Qed.

Lemma FormatFloat_f2_of_cents (p : float) :
  finite p -> Rabs (B2R p) <= bpow 43 ->
  half_away (B2R (p * 100)) (cents p) /\
  fmt.FormatFloat_f2 (roundToPrecision p 2)
  = decimal2 (signbit p) (Z.abs (cents p)).
Proof.
  intros Hfin Hbound.
  assert (Rabs (B2R p) <= bpow 1000) as Hbig.
  { eapply Rle_trans; [exact Hbound | apply bpow_le; lia]. }
  destruct (mul_100_spec p Hfin) as [He1 Hf1].
  specialize (Hf1 Hbig). specialize (He1 Hf1).
  destruct (Round_spec (p * 100) Hf1) as (n & Hf2 & Hv2 & Hn).
  assert (cents p = n) as Hc by (apply integer_of_spec; assumption).
  rewrite Hc. split; [exact Hn |].
  destruct (div_100_spec _ Hf2) as [Hf3 He3]. rewrite Hv2 in He3.
  assert (roundToPrecision p 2 = (math.Round (p * 100) / 100)%float) as Hr
    by (unfold roundToPrecision; rewrite pow10_2; reflexivity).
  rewrite Hr.
  assert (signbit (math.Round (p * 100) / 100) = signbit p) as Hsign.
  { rewrite (signbit_div_100 _ Hf2), (signbit_Round _ Hf1).
    apply signbit_mul_100; assumption. }
  (* the size of the cents and of the error *)
  assert (Rabs (IZR n) <= 1125899906842623 /\
          100 * Rabs (B2R (math.Round (p * 100) / 100) - IZR n / 100) < 1 / 2)
    as [Hsize Herr].
  { pose proof (Rabs_pos (B2R p)) as Ha0.
    pose proof (Rabs_le_inv _ _ (Rle_refl (Rabs (B2R p)))) as HP.
    pose proof bpow_tiny as Htiny.
    rewrite bpow_neg_53, bpow_43 in *.
    set (a := Rabs (B2R p)) in *. set (P := B2R p) in *.
    set (c := bpow (-1075)) in *. set (y := B2R (p * 100)) in *.
    apply Rabs_le_inv in He1.
    assert (- (1 / 2) <= IZR n - y <= 1 / 2) as He2.
    { destruct Hn as [Hn1 Hn2]. destruct (Rle_or_lt 0 y) as [Hy|Hy].
      - specialize (Hn1 Hy). lra.
      - specialize (Hn2 ltac:(lra)). lra. }
    assert (Rabs (IZR n) <= 1125899906842623) as Hsize by (apply Rabs_le; lra).
    split; [exact Hsize |].
    set (E := Rabs (B2R (math.Round (p * 100) / 100) - IZR n / 100)) in *.
    set (an := Rabs (IZR n)) in *. lra. }
  assert (Rabs (Rabs (B2R (math.Round (p * 100) / 100)) - IZR (Z.abs n) / 100)
          <= Rabs (B2R (math.Round (p * 100) / 100) - IZR n / 100)) as Habs.
  { rewrite abs_IZR.
    replace (Rabs (IZR n) / 100) with (Rabs (IZR n / 100)).
    - apply Rabs_triang_inv2.
    - unfold Rdiv. rewrite Rabs_mult, (Rabs_pos_eq (/ 100)) by lra. reflexivity. }
  set (r := (math.Round (p * 100) / 100)%float) in *.
  unfold decimal2. rewrite <- Hsign. clear Hsign.
  unfold fmt.FormatFloat_f2, signbit, finite, B2R in *.
  destruct (Prim2SF r) as [s|s| |s m e] eqn:Hpr; try contradiction.
  - (* the rounded price is a zero: so are the cents *)
    cbn [SF2R] in *.
    assert (n = 0%Z) as ->.
    { apply IZR_near. rewrite Rminus_0_r.
      rewrite Rminus_0_l, Rabs_Ropp in Herr.
      replace (IZR n) with (100 * (IZR n / 100)) by field.
      rewrite Rabs_mult, (Rabs_pos_eq 100) by lra. lra. }
    reflexivity.
  - cbn [SF2R] in *. rewrite Rabs_Rsign in Habs.
    destruct (valid_finite r s m e Hpr) as (_ & He & Hm).
    pose proof (bpow_pos e) as Hu.
    assert (0 < IZR (Z.pos m)) as HM by (apply IZR_lt; lia).
    rewrite (Rabs_pos_eq (IZR (Z.pos m) * bpow e)) in Habs by nra.
    assert (Rabs (100 * (IZR (Z.pos m) * bpow e) - IZR (Z.abs n)) < 1 / 2) as Hnear.
    { replace (100 * (IZR (Z.pos m) * bpow e) - IZR (Z.abs n))
        with (100 * (IZR (Z.pos m) * bpow e - IZR (Z.abs n) / 100)) by field.
      rewrite Rabs_mult, (Rabs_pos_eq 100) by lra. lra. }
    assert ((if (0 <=? e)%Z then (Z.pos m * 2 ^ e * 100)%Z
             else fmt.round_half_even (Z.pos m * 100) (2 ^ (- e))) = Z.abs n) as ->.
    { destruct (0 <=? e)%Z eqn:E0.
      - apply Z.leb_le in E0. apply IZR_near.
        rewrite !mult_IZR, <- bpow_IZR by lia.
        replace (IZR (Z.pos m) * bpow e * 100) with (100 * (IZR (Z.pos m) * bpow e))
          by ring.
        lra.
      - apply Z.leb_gt in E0. apply round_half_even_near.
        + apply Z.pow_pos_nonneg; lia.
        + rewrite mult_IZR, <- bpow_IZR by lia.
          replace (IZR (Z.pos m) * 100 / bpow (- e))
            with (100 * (IZR (Z.pos m) * bpow e)); [exact Hnear |].
          rewrite bpow_opp. field. lra. }
    reflexivity.
Qed.

(** What [%.2f] prints of a rounded price is the cents that [math.Round]
    chose, two digits after the point, under the sign of the price: the
    second rounding, by the verb, never moves the first. *)
Theorem FormatFloat_f2_cents (p : float) :
  finite p -> Rabs (B2R p) <= bpow 43 ->
  half_away (B2R (p * 100)) (cents p) /\
  fmt.FormatFloat_f2 (roundToPrecision p 2)
  = decimal2 (signbit p) (Z.abs (cents p)).
Proof. exact (FormatFloat_f2_of_cents p). Qed.

Lemma valid_canonical (x : float) (s : bool) (m : positive) (e : Z) :
  Prim2SF x = S754_finite s m e ->
  fexp prec emax (Zdigits2 (Z.pos m) + e) = e.
Proof.
  intros Hx. pose proof (Prim2SF_valid x) as Hv. rewrite Hx in Hv.
  cbn [SpecFloat.valid_binary] in Hv. unfold bounded, canonical_mantissa in Hv.
  apply andb_prop in Hv. destruct Hv as [Hc _].
  apply Z.eqb_eq in Hc. exact Hc.
Qed.

(** Two numbers of the same value and sign bit are the same [float64]. *)
Lemma float_eq_by_value (a b : float) :
  finite a -> finite b -> B2R a = B2R b -> signbit a = signbit b -> a = b.
Proof.
  unfold finite, B2R, signbit. intros Ha Hb Hv Hs. apply Prim2SF_inj.
  destruct (Prim2SF a) as [s1|s1| |s1 m1 e1] eqn:Ea; try contradiction;
    destruct (Prim2SF b) as [s2|s2| |s2 m2 e2] eqn:Eb; try contradiction;
    cbn [SF2R] in Hv; subst s2.
  - reflexivity.
  - exfalso. pose proof (bpow_pos e2). pose proof (IZR_lt 0 (Z.pos m2) ltac:(lia)).
    destruct s1; unfold Rsign in Hv; nra.
  - exfalso. pose proof (bpow_pos e1). pose proof (IZR_lt 0 (Z.pos m1) ltac:(lia)).
    destruct s1; unfold Rsign in Hv; nra.
  - assert (IZR (Z.pos m1) * bpow e1 = IZR (Z.pos m2) * bpow e2) as Hv'
      by (destruct s1; unfold Rsign in Hv; lra).
    pose proof (digits_bpow_le (Z.pos m1) e1 ltac:(lia)) as L1.
    pose proof (digits_bpow_lt (Z.pos m1) e1 ltac:(lia)) as U1.
    pose proof (digits_bpow_le (Z.pos m2) e2 ltac:(lia)) as L2.
    pose proof (digits_bpow_lt (Z.pos m2) e2 ltac:(lia)) as U2.
    assert (Zdigits2 (Z.pos m1) + e1 = Zdigits2 (Z.pos m2) + e2)%Z as Hd.
    { assert (Zdigits2 (Z.pos m1) - 1 + e1 < Zdigits2 (Z.pos m2) + e2)%Z
        by (apply bpow_lt_inv; lra).
      assert (Zdigits2 (Z.pos m2) - 1 + e2 < Zdigits2 (Z.pos m1) + e1)%Z
        by (apply bpow_lt_inv; lra).
      lia. }
    pose proof (valid_canonical a _ _ _ Ea) as C1.
    pose proof (valid_canonical b _ _ _ Eb) as C2.
    rewrite Hd, C2 in C1. subst e2.
    pose proof (bpow_pos e1).
    assert (IZR (Z.pos m1) = IZR (Z.pos m2)) as Hm by nra.
    apply eq_IZR in Hm. injection Hm as ->. reflexivity.
Qed.

(** Rounding twice is rounding once. *)
Theorem roundToPrecision_idempotent (p : float) :
  finite p -> Rabs (B2R p) <= bpow 43 ->
  roundToPrecision (roundToPrecision p 2) 2 = roundToPrecision p 2.
Proof.
  intros Hfin Hbound.
  assert (Rabs (B2R p) <= bpow 1000) as Hbig.
  { eapply Rle_trans; [exact Hbound | apply bpow_le; lia]. }
  destruct (mul_100_spec p Hfin) as [He1 Hf1].
  specialize (Hf1 Hbig). specialize (He1 Hf1).
  destruct (Round_spec (p * 100) Hf1) as (n & Hf2 & Hv2 & Hn).
  destruct (div_100_spec _ Hf2) as [Hf3 He3]. rewrite Hv2 in He3.
  assert (forall q : float,
             roundToPrecision q 2 = (math.Round (q * 100) / 100)%float) as Hr
    by (intros q; unfold roundToPrecision; rewrite pow10_2; reflexivity).
  rewrite (Hr p). set (x := math.Round (p * 100)) in *.
  set (r := (x / 100)%float) in *. rewrite (Hr r).
  (* the size of the cents and of the rounded price *)
  assert (Rabs (IZR n) <= 1125899906842623) as Hsize.
  { pose proof (Rabs_pos (B2R p)) as Ha0.
    pose proof (Rabs_le_inv _ _ (Rle_refl (Rabs (B2R p)))) as HP.
    pose proof bpow_tiny as Htiny.
    rewrite bpow_neg_53, bpow_43 in *.
    set (a := Rabs (B2R p)) in *. set (P := B2R p) in *.
    set (c := bpow (-1075)) in *. set (y := B2R (p * 100)) in *.
    apply Rabs_le_inv in He1.
    assert (- (1 / 2) <= IZR n - y <= 1 / 2) as He2.
    { destruct Hn as [Hn1 Hn2]. destruct (Rle_or_lt 0 y) as [Hy|Hy].
      - specialize (Hn1 Hy). lra.
      - specialize (Hn2 ltac:(lra)). lra. }
    apply Rabs_le; lra. }
  assert (Rabs (B2R r) <= bpow 1000) as Hrbig.
  { pose proof bpow_tiny as Htiny. pose proof (bpow_le 44 1000 ltac:(lia)) as H44.
    rewrite (bpow_IZR 44) in H44 by lia. change (2 ^ 44)%Z with 17592186044416%Z in H44.
    rewrite bpow_neg_53 in He3. apply Rabs_le_inv in He3.
    pose proof (Rabs_pos (IZR n)) as Hn0.
    pose proof (Rabs_le_inv _ _ (Rle_refl (Rabs (IZR n)))) as HN.
    set (an := Rabs (IZR n)) in *. set (c := bpow (-1075)) in *.
    apply Rabs_le. lra. }
  destruct (mul_100_spec r Hf3) as [He4 Hf4].
  specialize (Hf4 Hrbig). specialize (He4 Hf4).
  destruct (Round_spec (r * 100) Hf4) as (n2 & Hf5 & Hv5 & Hn2).
  assert (n2 = n) as ->.
  { apply IZR_near.
    pose proof bpow_tiny as Htiny. rewrite bpow_neg_53 in *.
    apply Rabs_le_inv in He3. apply Rabs_le_inv in He4.
    pose proof (Rabs_pos (IZR n)) as Hn0.
    pose proof (Rabs_le_inv _ _ (Rle_refl (Rabs (IZR n)))) as HN.
    pose proof (Rabs_pos (B2R r)) as Hr0.
    assert (Rabs (B2R r)
            <= Rabs (IZR n) / 100
               + (bpow (-1075) + Rabs (IZR n) / 100 * / 9007199254740992)) as HR
      by (apply Rabs_le; lra).
    set (an := Rabs (IZR n)) in *. set (ar := Rabs (B2R r)) in *.
    set (c := bpow (-1075)) in *. set (y2 := B2R (r * 100)) in *.
    assert (- (1 / 2) <= IZR n2 - y2 <= 1 / 2) as He5.
    { destruct Hn2 as [Hn1 Hn2]. destruct (Rle_or_lt 0 y2) as [Hy|Hy].
      - specialize (Hn1 Hy). lra.
      - specialize (Hn2 ltac:(lra)). lra. }
    apply Rabs_def1; lra. }
  assert (math.Round (r * 100) = x) as ->; [| reflexivity].
  apply float_eq_by_value; [exact Hf5 | exact Hf2 | rewrite Hv5, Hv2; reflexivity |].
  rewrite (signbit_Round _ Hf4), (signbit_mul_100 _ Hf3 Hf4).
  apply signbit_div_100. exact Hf2.
Qed.

End Printing.

(** Witness: 1234.567 prints as 1234.57 and -0.004 as -0.00. *)
Lemma FormatFloat_f2_cents_witness :
  cents 1234.567 = 123457%Z /\
  fmt.FormatFloat_f2 (roundToPrecision 1234.567 2) = "1234.57" /\
  fmt.FormatFloat_f2 (roundToPrecision (-0.004) 2) = "-0.00".
Proof.
  split; [vm_compute; reflexivity | split].
  - rewrite (proj2 (FormatFloat_f2_cents 1234.567 I
               ltac:(apply B2R_le_bpow, Z.leb_le; vm_compute; reflexivity))).
    vm_compute. reflexivity.
  - rewrite (proj2 (FormatFloat_f2_cents (-0.004) I
               ltac:(apply B2R_le_bpow, Z.leb_le; vm_compute; reflexivity))).
    vm_compute. reflexivity.
Defined.

(** Witness: 2.675 is rounded to 2.68, and 2.68 to itself. *)
Lemma roundToPrecision_idempotent_witness :
  roundToPrecision (roundToPrecision 2.675 2) 2 = 2.68%float.
Proof.
  rewrite (roundToPrecision_idempotent 2.675 I
             ltac:(apply B2R_le_bpow, Z.leb_le; vm_compute; reflexivity)).
  vm_compute. reflexivity.
Defined.

(** An asset without a quote in USD: indexing the map gives the zero
    quote, and the caption shows the price 0.00 and three flat changes,
    each under the negative marker. *)
Theorem caption_without_usd (value : CryptoData) :
  CQuote value !! "USD" = None ->
  caption value
  = CName value +:+
    lit ": 0.00\n🟥 1h:\n0.00%\n🟥 24h:\n0.00%\n🟥 7d:\n0.00%\n\n".
Proof.
  intros Hq. unfold caption, map_get. rewrite Hq. cbn [default zeroQuote Price
    PercentChange1h PercentChange24h PercentChange7d].
  unfold buildPriceString.
  change (0 <? 0)%float with false. cbv iota.
  change (roundToPrecision 0 2) with 0%float.
  cbv [Builder.WriteString Builder.empty Builder.String fmt.Sprintf lit nl
       fmt.parse_format fmt.sprintf_go].
  change (fmt.FormatFloat_f2 0) with "0.00".
  string_norm. reflexivity.
Qed.

(** Witness: the zero value of an asset has no quote at all. *)
Lemma caption_without_usd_witness :
  caption zeroCryptoData
  = lit ": 0.00\n🟥 1h:\n0.00%\n🟥 24h:\n0.00%\n🟥 7d:\n0.00%\n\n".
Proof. apply (caption_without_usd zeroCryptoData). reflexivity. Defined.

(** ** The reader at its edges *)

Section ReaderEdges.

Variable ParseFloat : string -> option float.

(** A history file that does not exist: [os.Open] fails and [fetchPoints]
    panics with its error. *)
Theorem fetchPoints_missing_file (symbolName fname : string) (w : World) :
  files w !! fname = None ->
  Chart.fetchPoints ParseFloat symbolName fname w
  = (Panic (ENOENT "open" fname), w).
Proof. intros Hf. rewrite fetchPoints_spec, Hf. reflexivity. Qed.

(** A directory opens, the first read fails, the scanner ends its loop and
    nobody asks it why: the series is empty. *)
Theorem fetchPoints_directory (symbolName fname : string) (w : World) :
  files w !! fname = Some Directory ->
  Chart.fetchPoints ParseFloat symbolName fname w = (Return [], w).
Proof. intros Hf. rewrite fetchPoints_spec, Hf. reflexivity. Qed.

Lemma series_from_not_a_number (good : list string) (ys : list float)
      (line field : string) (rest : list string) :
  Forall2 (fun line y => price_of ParseFloat line = Some y) good ys ->
  strings.Split line "|" !! 1%nat = Some field ->
  ParseFloat field = None ->
  forall i,
    series_from ParseFloat i (good ++ line :: rest)
    = inl (NumError "ParseFloat" field).
Proof.
  intros Hgood Hfield Hparse.
  induction Hgood as [|l y good ys Hy _ IH]; intros i.
  - cbn [app series_from]. rewrite Hfield, Hparse. reflexivity.
  - cbn [app series_from]. unfold price_of in Hy.
    destruct (strings.Split l "|" !! 1%nat) as [f|]; [| discriminate].
    cbn in Hy. rewrite Hy, IH. reflexivity.
Qed.

(** A kept line whose second field is not a number, after well-formed
    ones: the panic carries the error of [strconv.ParseFloat] for that
    field. *)
Theorem fetchPoints_not_a_number (symbolName fname content : string) (w : World)
        (good : list string) (ys : list float) (line field : string)
        (rest : list string) :
  files w !! fname = Some (RegularFile content) ->
  retained content = good ++ line :: rest ->
  Forall2 (fun line y => price_of ParseFloat line = Some y) good ys ->
  strings.Split line "|" !! 1%nat = Some field ->
  ParseFloat field = None ->
  Chart.fetchPoints ParseFloat symbolName fname w
  = (Panic (NumError "ParseFloat" field), w).
Proof.
  intros Hf Hkept Hgood Hfield Hparse.
  rewrite fetchPoints_spec, Hf. cbv zeta.
  rewrite Hkept, (series_from_not_a_number _ _ _ _ _ Hgood Hfield Hparse).
  reflexivity.
Qed.

Lemma fetchPoints_by_kept (symbolName fname c1 c2 : string) (w1 w2 : World) :
  files w1 !! fname = Some (RegularFile c1) ->
  files w2 !! fname = Some (RegularFile c2) ->
  retained c1 = retained c2 ->
  fst (Chart.fetchPoints ParseFloat symbolName fname w1)
  = fst (Chart.fetchPoints ParseFloat symbolName fname w2).
Proof.
  intros H1 H2 Hkept. rewrite !fetchPoints_spec, H1, H2. cbv zeta.
  rewrite Hkept.
  destruct (series_from ParseFloat 0 (retained c2)); [reflexivity |].
  destruct (_ <=? _)%Z; reflexivity.
Qed.

Lemma ScanLines_scanned (ls : list string) :
  Forall scanned ls -> bufio.ScanLines (unlines ls) = bufio.dropCR <$> ls.
Proof.
  intros Hls. unfold bufio.ScanLines.
  rewrite raw_lines_unlines
    by (eapply Forall_impl; [exact Hls | intros l (H & _); exact H]).
  f_equal. induction Hls as [|l ls (_ & Hlen) _ IH]; [reflexivity |].
  cbn [bufio.take_short].
  destruct (Z.ltb_spec (bufio.len l) bufio.MaxScanTokenSize) as [_|]; [| lia].
  rewrite IH. reflexivity.
Qed.

(** Only the last hundred lines count.  In a file of lines that are each
    shorter than 65536 bytes, so that the scan reaches the end, what
    stands before the last hundred, well formed or not, changes neither
    the series nor the panic. *)
Theorem fetchPoints_last_hundred (symbolName fname : string) (w1 w2 : World)
        (old recent : list string) :
  Forall scanned old -> Forall scanned recent -> length recent = 100%nat ->
  files w1 !! fname = Some (RegularFile (unlines (old ++ recent))) ->
  files w2 !! fname = Some (RegularFile (unlines recent)) ->
  fst (Chart.fetchPoints ParseFloat symbolName fname w1)
  = fst (Chart.fetchPoints ParseFloat symbolName fname w2).
Proof.
  intros Hold Hrecent Hlen H1 H2.
  apply (fetchPoints_by_kept _ _ _ _ _ _ H1 H2).
  unfold retained.
  rewrite !ScanLines_scanned by (try apply Forall_app; auto).
  unfold last_n, Chart.max. rewrite fmap_app, length_app, !length_fmap, Hlen.
  replace (length old + 100 - 100)%nat with (length (bufio.dropCR <$> old))
    by (rewrite length_fmap; lia).
  rewrite drop_app_length. replace (100 - 100)%nat with 0%nat by lia.
  reflexivity.
Qed.




Lemma Contains_snoc (l : string) (c d : ascii) :
  strings.Contains (l +:+ String d EmptyString) c
  = strings.Contains l c || Ascii.eqb d c.
Proof.
  induction l as [|a l IH].
  - cbn. apply orb_false_r.
  - change (String a l +:+ String d EmptyString) with (String a (l +:+ String d EmptyString)).
    cbn [strings.Contains]. rewrite IH. apply orb_assoc.
Qed.

Lemma dropCR_snoc (l : string) : bufio.dropCR (l +:+ String cr EmptyString) = l.
Proof.
  induction l as [|a l IH]; [reflexivity |].
  change (String a l +:+ String cr EmptyString) with (String a (l +:+ String cr EmptyString)).
  destruct l as [|b l]; [reflexivity |].
  change (String a (String b l +:+ String cr EmptyString))
    with (String a (String b (l +:+ String cr EmptyString))).
  change (bufio.dropCR (String a (String b (l +:+ String cr ""))))
    with (String a (bufio.dropCR (String b (l +:+ String cr "")))).
  f_equal. exact IH.
Qed.

Lemma ScanLines_crlf (ls : list string) :
  Forall (fun l => strings.Contains l nl = false /\
                   (bufio.len l + 1 < bufio.MaxScanTokenSize)%Z) ls ->
  bufio.ScanLines (unlines ((fun l => l +:+ String cr EmptyString) <$> ls)) = ls.
Proof.
  intros Hls. unfold bufio.ScanLines. rewrite raw_lines_unlines.
  - induction Hls as [|l ls [_ Hlen] _ IH]; [reflexivity |].
    rewrite fmap_cons. cbn [bufio.take_short].
    rewrite len_append. change (bufio.len (String cr EmptyString)) with 1%Z.
    destruct (Z.ltb_spec (bufio.len l + 1) bufio.MaxScanTokenSize); [| lia].
    rewrite fmap_cons, IH, dropCR_snoc. reflexivity.
  - apply Forall_fmap. eapply Forall_impl; [exact Hls |].
    intros l [Hnl _]. cbn. rewrite Contains_snoc, Hnl. reflexivity.
Qed.

(** Lines that end in a carriage return and a newline are read like lines
    that end in a newline; this for lines that do not end in a carriage
    return of their own and that, with the one added, stay under the
    largest token. *)
Theorem fetchPoints_crlf (symbolName fname : string) (w1 w2 : World)
        (ls : list string) :
  Forall (fun l => strings.Contains l nl = false /\ bufio.dropCR l = l) ls ->
  Forall (fun l => (bufio.len l + 1 < bufio.MaxScanTokenSize)%Z) ls ->
  files w1 !! fname
  = Some (RegularFile (unlines ((fun l => l +:+ String cr EmptyString) <$> ls))) ->
  files w2 !! fname = Some (RegularFile (unlines ls)) ->
  fst (Chart.fetchPoints ParseFloat symbolName fname w1)
  = fst (Chart.fetchPoints ParseFloat symbolName fname w2).
Proof.
  intros Hline Hlen H1 H2.
  apply (fetchPoints_by_kept _ _ _ _ _ _ H1 H2).
  unfold retained. rewrite (ScanLines_scanned ls), ScanLines_crlf.
  - f_equal. clear H1 H2 Hlen.
    induction Hline as [|l ls [_ Hcr] _ IH]; [reflexivity |].
    rewrite fmap_cons, Hcr, <- IH. reflexivity.
  - apply Forall_forall. intros l Hin.
    rewrite Forall_forall in Hline, Hlen.
    destruct (Hline l Hin) as (Hnl & _). split; [exact Hnl | exact (Hlen l Hin)].
  - apply Forall_forall. intros l Hin.
    rewrite Forall_forall in Hline, Hlen.
    destruct (Hline l Hin) as (Hnl & _). pose proof (Hlen l Hin).
    split; [exact Hnl | lia].
Qed.

End ReaderEdges.

(** Witness: no file in the store. *)
Lemma fetchPoints_missing_file_witness :
  Chart.fetchPoints strconv.ParseFloat "Ethereum" ".data.1027"
    {| files := ∅; trace := [] |}
  = (Panic (ENOENT "open" ".data.1027"), {| files := ∅; trace := [] |}).
Proof.
  apply (fetchPoints_missing_file strconv.ParseFloat). reflexivity.
Defined.

(** Witness: a directory where the history should be. *)
Lemma fetchPoints_directory_witness :
  Chart.fetchPoints strconv.ParseFloat "Ethereum" ".data.1027"
    {| files := {[ ".data.1027" := Directory ]}; trace := [] |}
  = (Return [], {| files := {[ ".data.1027" := Directory ]}; trace := [] |}).
Proof.
  apply (fetchPoints_directory strconv.ParseFloat). reflexivity.
Defined.

(** Witness: a price that reads ["n/a"]. *)
Lemma fetchPoints_not_a_number_witness :
  Chart.fetchPoints strconv.ParseFloat "Ethereum" ".data.1027"
    (world_with ".data.1027" (lit "2024-01-01 00:00:00|1.50\n2024-01-01 01:00:00|n/a\n"))
  = (Panic (NumError "ParseFloat" "n/a"),
     world_with ".data.1027" (lit "2024-01-01 00:00:00|1.50\n2024-01-01 01:00:00|n/a\n")).
Proof.
  apply (fetchPoints_not_a_number strconv.ParseFloat "Ethereum" ".data.1027"
           (lit "2024-01-01 00:00:00|1.50\n2024-01-01 01:00:00|n/a\n") _
           ["2024-01-01 00:00:00|1.50"] [1.5%float] "2024-01-01 01:00:00|n/a" "n/a" []).
  - reflexivity.
  - vm_compute. reflexivity.
  - constructor; [vm_compute; reflexivity | constructor].
  - reflexivity.
  - reflexivity.
Defined.

(** Witness: a line without a separator, then a hundred good lines. *)
Lemma fetchPoints_last_hundred_witness :
  let recent := replicate 100 "2024-01-01 00:00:00|1.50" in
  fst (Chart.fetchPoints strconv.ParseFloat "Ethereum" ".data.1027"
         (world_with ".data.1027" (unlines ("no separator here" :: recent))))
  = fst (Chart.fetchPoints strconv.ParseFloat "Ethereum" ".data.1027"
           (world_with ".data.1027" (unlines recent))).
Proof.
  cbv zeta.
  apply (fetchPoints_last_hundred strconv.ParseFloat "Ethereum" ".data.1027" _ _
           ["no separator here"] (replicate 100 "2024-01-01 00:00:00|1.50")).
  - constructor; [| constructor]. repeat split; reflexivity.
  - apply Forall_replicate. repeat split; reflexivity.
  - reflexivity.
  - apply lookup_singleton_eq.
  - apply lookup_singleton_eq.
Defined.


(** Witness: one line with a carriage return before its newline. *)
Lemma fetchPoints_crlf_witness :
  fst (Chart.fetchPoints strconv.ParseFloat "Ethereum" ".data.1027"
         (world_with ".data.1027"
            ("2024-01-01 00:00:00|1.50" +:+ String cr (String nl EmptyString))))
  = Return [{| X := 0; Y := 1.5 |}].
Proof.
  rewrite (fetchPoints_crlf strconv.ParseFloat "Ethereum" ".data.1027"
             (world_with ".data.1027"
                ("2024-01-01 00:00:00|1.50" +:+ String cr (String nl EmptyString)))
             (world_with ".data.1027" (lit "2024-01-01 00:00:00|1.50\n"))
             ["2024-01-01 00:00:00|1.50"]).
  - vm_compute. reflexivity.
  - constructor; [| constructor]. repeat split; reflexivity.
  - constructor; [| constructor]. reflexivity.
  - reflexivity.
  - reflexivity.
Defined.

(** ** Appending at its edge *)

(** A directory at the path of the history: [os.OpenFile] fails, the
    panic carries its error and nothing is written. *)
Theorem appendSample_directory (key : string) (t : time.Time) (price : float)
        (w : World) :
  files w !! (".data." +:+ key) = Some Directory ->
  Chart.appendSample key t price w
  = (Panic (EISDIR "open" (".data." +:+ key)), w).
Proof. intros Hf. rewrite appendSample_spec. cbv zeta. rewrite Hf. reflexivity. Qed.

(** Witness: the history of 1027 is a directory. *)
Lemma appendSample_directory_witness :
  Chart.appendSample "1027"
    {| time.Year := 2024; time.Month := 1; time.Day := 1; time.Hour := 0 |} 1234.567
    {| files := {[ ".data.1027" := Directory ]}; trace := [] |}
  = (Panic (EISDIR "open" ".data.1027"),
     {| files := {[ ".data.1027" := Directory ]}; trace := [] |}).
Proof. apply (appendSample_directory "1027"). reflexivity. Defined.

(** ** One asset of a chart cycle *)

Section Asset.

Variable ParseFloat : string -> option float.
Variable gonum : plot.Library.

Lemma Sprintf_png (key : string) : fmt.Sprintf "%s.png" key = key +:+ ".png".
Proof. reflexivity. Qed.

Lemma asset_run (resData : Response) (now : string -> time.Time) (key : string)
      (w : World) :
  let value := map_get (Data resData) zeroCryptoData key in
  let fname := ".data." +:+ key in
  let line := time.Format (now key) +:+ "|" +:+
              fmt.FormatFloat_f2 (Price (map_get (CQuote value) zeroQuote "USD")) in
  let stored :=
    <[fname := RegularFile (file_content w fname +:+ line +:+ lit "\n")]> (files w) in
  let w1 := {| files := stored; trace := trace w |} in
  let plotName := key +:+ ".png" in
  Chart.asset ParseFloat gonum resData now key w =
  match files w !! fname with
  | Some Directory => (Panic (EISDIR "open" fname), w)
  | _ =>
      match fst (Chart.fetchPoints ParseFloat (CName value) fname w1) with
      | Return pts =>
          match plot.NewLinePoints gonum pts with
          | Some _ => (Panic NilDereference, w1)
          | None =>
              let r := plot.Save gonum (CName value) pts plotName (stored !! plotName) in
              let saved := partial_alter (fun _ => snd r) plotName stored in
              match fst r with
              | plot.Saved =>
                  (Return tt,
                   {| files := saved;
                      trace := trace w ++ [SendPhoto plotName (caption value) pts] |})
              | plot.SaveError _ => (Exit 1, {| files := saved; trace := trace w |})
              | plot.SavePanic e => (Panic e, {| files := saved; trace := trace w |})
              end
          end
      | Panic e => (Panic e, w1)
      | Exit c => (Exit c, w1)
      | Pending => (Pending, w1)
      end
  end.
Proof.
  cbv zeta. unfold Chart.asset. rewrite bind_unfold, appendSample_spec. cbv zeta.
  destruct (files w !! (".data." +:+ key)) as [[c|]|] eqn:Hf; [| reflexivity |].
  all: rewrite bind_unfold;
    match goal with
    | |- context [Chart.fetchPoints ParseFloat ?n ?f ?w1] =>
        pose proof (fetchPoints_world ParseFloat n f w1) as Hw;
        destruct (Chart.fetchPoints ParseFloat n f w1) as [[pts|e|c'|] w2]
    end; cbn [fst snd] in *; subst w2; try reflexivity.
  all: destruct (plot.NewLinePoints gonum pts); [reflexivity |].
  all: rewrite bind_unfold, Save_run, Sprintf_png; cbv zeta; cbn [files trace].
  all: destruct (fst (plot.Save gonum _ _ _ _)); reflexivity.
Qed.

Lemma png_not_history (key : string) : key +:+ ".png" <> ".data." +:+ key.
Proof.
  intros H. apply (f_equal String.length) in H.
  rewrite !length_append in H. cbn in H. lia.
Qed.

(** The sample is written before the series is read and before anything
    is drawn: however the asset ends, the new line is in the history.  A
    panic of the reading is the panic of the asset, and nothing is drawn
    or sent.  A series that [NewLinePoints] refuses gives the panic of a
    nil pointer.  Otherwise the series is drawn to the picture named
    after the key: with the picture saved, one photo with the caption of
    the asset is sent; an error of [Save] ends the process with status 1
    and a panic of [Save] is the panic of the asset, both without a
    photo. *)
Theorem asset_sample_before_series (resData : Response) (now : string -> time.Time)
        (key : string) (w : World) :
  let value := map_get (Data resData) zeroCryptoData key in
  let fname := ".data." +:+ key in
  let line := time.Format (now key) +:+ "|" +:+
              fmt.FormatFloat_f2 (Price (map_get (CQuote value) zeroQuote "USD")) in
  let stored :=
    <[fname := RegularFile (file_content w fname +:+ line +:+ lit "\n")]> (files w) in
  let w1 := {| files := stored; trace := trace w |} in
  let plotName := key +:+ ".png" in
  files w !! fname <> Some Directory ->
  files (snd (Chart.asset ParseFloat gonum resData now key w)) !! fname
  = Some (RegularFile (file_content w fname +:+ line +:+ lit "\n")) /\
  (forall e,
      fst (Chart.fetchPoints ParseFloat (CName value) fname w1) = Panic e ->
      Chart.asset ParseFloat gonum resData now key w = (Panic e, w1)) /\
  (forall pts,
      fst (Chart.fetchPoints ParseFloat (CName value) fname w1) = Return pts ->
      match plot.NewLinePoints gonum pts with
      | Some _ =>
          Chart.asset ParseFloat gonum resData now key w = (Panic NilDereference, w1)
      | None =>
          let r := plot.Save gonum (CName value) pts plotName (stored !! plotName) in
          let saved := partial_alter (fun _ => snd r) plotName stored in
          Chart.asset ParseFloat gonum resData now key w =
          match fst r with
          | plot.Saved =>
              (Return tt,
               {| files := saved;
                  trace := trace w ++ [SendPhoto plotName (caption value) pts] |})
          | plot.SaveError _ => (Exit 1, {| files := saved; trace := trace w |})
          | plot.SavePanic e => (Panic e, {| files := saved; trace := trace w |})
          end
      end).
Proof.
  cbv zeta. intros Hdir. rewrite asset_run. cbv zeta.
  assert (forall (n : option node) (m : gmap string node) (x : node),
             partial_alter (fun _ => n) (key +:+ ".png") (<[".data." +:+ key := x]> m)
               !! (".data." +:+ key) = Some x) as Hkeep.
  { intros n m x. rewrite lookup_partial_alter_ne by apply png_not_history.
    apply lookup_insert_eq. }
  destruct (files w !! (".data." +:+ key)) as [[c|]|] eqn:Hf; [| congruence |].
  all: destruct (fst (Chart.fetchPoints ParseFloat _ _ _)) as [pts|e|c'|];
    (split; [| split; [intros e' He' | intros pts' Hp']]);
    try discriminate; try congruence;
    try (cbn [snd files]; apply lookup_insert_eq).
  all: try (injection Hp' as <-).
  all: destruct (plot.NewLinePoints gonum pts);
    try reflexivity; try (cbn [snd files]; apply lookup_insert_eq).
  all: destruct (fst (plot.Save gonum _ _ _ _)); cbn [snd files]; apply Hkeep.
Qed.

Lemma for_each_asset_photos (resData : Response) (now : string -> time.Time)
      (keys : list string) :
  forall w,
    fst (for_each (Chart.asset ParseFloat gonum resData now) keys w) = Return tt ->
    exists photos,
      trace (snd (for_each (Chart.asset ParseFloat gonum resData now) keys w))
      = trace w ++ photos /\
      Forall2 (fun key e =>
                 is_photo key (caption (map_get (Data resData) zeroCryptoData key)) e)
              keys photos.
Proof.
  induction keys as [|key keys IH]; intros w; cbn [for_each].
  - intros _. exists []. split; [symmetry; apply app_nil_r | constructor].
  - rewrite bind_unfold, asset_run. cbv zeta.
    destruct (files w !! (".data." +:+ key)) as [[c|]|]; [| discriminate |].
    all: destruct (fst (Chart.fetchPoints ParseFloat _ _ _)) as [pts|e|c'|];
      try discriminate;
      (destruct (plot.NewLinePoints gonum pts); [discriminate |]);
      (destruct (fst (plot.Save gonum _ _ _ _)); try discriminate);
      intros Hret; destruct (IH _ Hret) as (photos & Ht & Hphotos);
      eexists (_ :: photos);
      (split; [rewrite Ht; cbn [trace]; rewrite <- app_assoc; reflexivity |]);
      constructor; [eexists; reflexivity | exact Hphotos].
Qed.

Lemma cycle_decoded (it : iteration) (resData : Response) (w : World) :
  response it = Decoded resData ->
  Chart.cycle ParseFloat gonum it w =
  match for_each (Chart.asset ParseFloat gonum resData (now it))
                 (sort.Strings (range_order it))
                 {| files := files w; trace := trace w ++ [Get] |} with
  | (Return _, w2) =>
      (Return tt, {| files := files w2; trace := trace w2 ++ [Sleep 15] |})
  | (Panic e, w2) => (Panic e, w2)
  | (Exit c, w2) => (Exit c, w2)
  | (Pending, w2) => (Pending, w2)
  end.
Proof.
  intros Hresp. unfold Chart.cycle. rewrite Hresp, collect_keys_id. reflexivity.
Qed.

(** A chart cycle that comes back has made one request, sent one photo per
    asset, in increasing order of the keys, each named after its key and
    captioned with the text of the asset, and slept for fifteen minutes. *)
Theorem chart_cycle_photos (it : iteration) (resData : Response) (w : World) :
  response it = Decoded resData ->
  fst (Chart.cycle ParseFloat gonum it w) = Return tt ->
  exists photos,
    trace (snd (Chart.cycle ParseFloat gonum it w))
    = trace w ++ [Get] ++ photos ++ [Sleep 15] /\
    Forall2 (fun key e =>
               is_photo key (caption (map_get (Data resData) zeroCryptoData key)) e)
            (sort.Strings (range_order it)) photos.
Proof.
  intros Hresp.
  set (w1 := {| files := files w; trace := trace w ++ [Get] |}).
  rewrite (cycle_decoded it resData w Hresp). fold w1.
  pose proof (for_each_asset_photos resData (now it) (sort.Strings (range_order it)) w1)
    as Hfor.
  destruct (for_each _ _ w1) as [[[]|e|c|] w2]; cbn [fst snd] in *; try discriminate.
  intros _. destruct (Hfor eq_refl) as (photos & Ht & Hphotos).
  exists photos. split; [| exact Hphotos].
  cbn [trace]. rewrite Ht. unfold w1. cbn [trace]. rewrite <- !app_assoc. reflexivity.
Qed.

(** The chart cycle does the same whatever the order in which the map of
    the response is visited. *)
Theorem chart_cycle_any_order (it1 it2 : iteration) (w : World) :
  response it1 = response it2 -> now it1 = now it2 ->
  range_order it1 ≡ₚ range_order it2 ->
  Chart.cycle ParseFloat gonum it1 w = Chart.cycle ParseFloat gonum it2 w.
Proof.
  intros Hresp Hnow Horder. unfold Chart.cycle.
  rewrite Hresp, Hnow, !collect_keys_id, (sort_Strings_unique _ _ Horder).
  reflexivity.
Qed.

End Asset.
(** Witness: a history with a corrupt line; the asset panics on it and
    the new sample is in the file all the same. *)
Lemma asset_sample_before_series_witness :
  let resData :=
    {| RStatus := {| Timestamp := ""; ErrorCode := 0; ErrorMessage := None;
                     Elapsed := 0; CreditCount := 1; Notice := None |};
       Data := {[ "1027" := zeroCryptoData ]} |} in
  let now := fun _ : string =>
    {| time.Year := 2024; time.Month := 1; time.Day := 1; time.Hour := 0 |} in
  Chart.asset strconv.ParseFloat drawing resData now "1027"
    (world_with ".data.1027" (lit "corrupt\n"))
  = (Panic (IndexOutOfRange 1 1),
     world_with ".data.1027" (lit "corrupt\n2024-01-01 00:00:00|0.00\n")).
Proof.
  cbv zeta.
  match goal with
  | |- Chart.asset _ _ ?r ?n _ ?w = _ =>
      destruct (asset_sample_before_series strconv.ParseFloat drawing r n "1027" w)
        as (_ & Hpanic & _)
  end.
  - vm_compute. discriminate.
  - rewrite (Hpanic (IndexOutOfRange 1 1)); [| vm_compute; reflexivity].
    vm_compute. reflexivity.
Defined.

(** Witness: two assets visited in decreasing order of their keys. *)
Lemma chart_cycle_photos_witness :
  let resData :=
    {| RStatus := {| Timestamp := ""; ErrorCode := 0; ErrorMessage := None;
                     Elapsed := 0; CreditCount := 1; Notice := None |};
       Data := {[ "1027" := zeroCryptoData; "5426" := zeroCryptoData ]} |} in
  let it :=
    {| stop_ready := false; response := Decoded resData;
       range_order := ["5426"; "1027"];
       now := fun _ => {| time.Year := 2024; time.Month := 1; time.Day := 1;
                          time.Hour := 0 |} |} in
  exists p1 p2,
    trace (snd (Chart.cycle strconv.ParseFloat drawing it {| files := ∅; trace := [] |}))
    = [Get; p1; p2; Sleep 15] /\
    is_photo "1027" (caption zeroCryptoData) p1 /\
    is_photo "5426" (caption zeroCryptoData) p2.
Proof.
  cbv zeta.
  match goal with
  | |- exists p1 p2, trace (snd (Chart.cycle _ _ ?it ?w)) = _ /\ _ =>
      destruct (chart_cycle_photos strconv.ParseFloat drawing it
                  {| RStatus := {| Timestamp := ""; ErrorCode := 0;
                                   ErrorMessage := None; Elapsed := 0;
                                   CreditCount := 1; Notice := None |};
                     Data := {[ "1027" := zeroCryptoData; "5426" := zeroCryptoData ]} |}
                  w eq_refl)
        as (photos & Ht & Hphotos)
  end.
  - vm_compute. reflexivity.
  - change (sort.Strings (range_order _)) with ["1027"; "5426"] in Hphotos.
    inversion Hphotos as [|k1 p1 ks ps Hp1 Hrest]; subst.
    inversion Hrest as [|k2 p2 ks' ps' Hp2 Hnil]; subst.
    inversion Hnil; subst.
    exists p1, p2. split; [exact Ht | split; assumption].
Defined.

(** Witness: the same two assets, visited in both orders. *)
Lemma chart_cycle_any_order_witness :
  let resData :=
    {| RStatus := {| Timestamp := ""; ErrorCode := 0; ErrorMessage := None;
                     Elapsed := 0; CreditCount := 1; Notice := None |};
       Data := {[ "1027" := zeroCryptoData; "5426" := zeroCryptoData ]} |} in
  let it := fun order =>
    {| stop_ready := false; response := Decoded resData; range_order := order;
       now := fun _ => {| time.Year := 2024; time.Month := 1; time.Day := 1;
                          time.Hour := 0 |} |} in
  Chart.cycle strconv.ParseFloat drawing (it ["5426"; "1027"]) {| files := ∅; trace := [] |}
  = Chart.cycle strconv.ParseFloat drawing (it ["1027"; "5426"]) {| files := ∅; trace := [] |}.
Proof.
  cbv zeta.
  apply (chart_cycle_any_order strconv.ParseFloat drawing); [reflexivity | reflexivity |].
  apply perm_swap.
Defined.

(** ** How the loop can end *)

Lemma loop_returns_on_signal (cycle : iteration -> M unit) (env : list iteration) :
  forall w,
    fst (loop cycle env w) = Return tt ->
    Exists (fun it => stop_ready it = true) env.
Proof.
  induction env as [|it env IH]; intros w.
  - cbn. discriminate.
  - rewrite loop_cons. cbv zeta.
    destruct (stop_ready it) eqn:Hready; [intros _; left; exact Hready |].
    destruct (cycle it _) as [[[]|e|c|] w2]; cbn [fst]; try discriminate.
    intros H. right. exact (IH _ H).
Qed.

Lemma loop_exit_code (cycle : iteration -> M unit) :
  (forall it w c, fst (cycle it w) = Exit c -> c = 1%Z) ->
  forall env w c, fst (loop cycle env w) = Exit c -> c = 1%Z.
Proof.
  intros Hcycle env. induction env as [|it env IH]; intros w c.
  - cbn. discriminate.
  - rewrite loop_cons. cbv zeta.
    destruct (stop_ready it); [cbn; discriminate |].
    pose proof (Hcycle it {| files := files w; trace := trace w ++ [Select false] |})
      as Hc.
    destruct (cycle it _) as [[[]|e|c'|] w2]; cbn [fst] in *; try discriminate.
    + apply IH.
    + intros H. apply Hc. exact H.
Qed.

Lemma loop_no_panic (cycle : iteration -> M unit) :
  (forall it w e, fst (cycle it w) <> Panic e) ->
  forall env w e, fst (loop cycle env w) <> Panic e.
Proof.
  intros Hcycle env. induction env as [|it env IH]; intros w e.
  - cbn. discriminate.
  - rewrite loop_cons. cbv zeta.
    destruct (stop_ready it); [cbn; discriminate |].
    pose proof (Hcycle it {| files := files w; trace := trace w ++ [Select false] |})
      as Hc.
    destruct (cycle it _) as [[[]|e'|c'|] w2]; cbn [fst] in *; try discriminate.
    + apply IH.
    + exfalso. exact (Hc e' eq_refl).
Qed.

Lemma loop_files (cycle : iteration -> M unit) :
  (forall it w, files (snd (cycle it w)) = files w) ->
  forall env w, files (snd (loop cycle env w)) = files w.
Proof.
  intros Hcycle env. induction env as [|it env IH]; intros w.
  - reflexivity.
  - rewrite loop_cons. cbv zeta.
    destruct (stop_ready it); [reflexivity |].
    pose proof (Hcycle it {| files := files w; trace := trace w ++ [Select false] |})
      as Hc.
    destruct (cycle it _) as [[[]|e'|c'|] w2]; cbn [fst snd files] in *;
      try exact Hc.
    rewrite IH. exact Hc.
Qed.

Lemma pollApi_with_outcome (cycle : iteration -> M unit) (chat : option Z)
      (env : list iteration) (w : World) :
  fst (pollApi_with cycle chat env w)
  = match chat with None => Exit 1 | Some _ => fst (loop cycle env w) end /\
  files (snd (pollApi_with cycle chat env w))
  = match chat with None => files w | Some _ => files (snd (loop cycle env w)) end.
Proof.
  unfold pollApi_with, with_defer. destruct chat as [c|]; [| split; reflexivity].
  destruct (loop cycle env w) as [[[]|e|c'|] w2]; split; reflexivity.
Qed.

Lemma text_cycle_outcome (it : iteration) (w : World) :
  files (snd (Text.cycle it w)) = files w /\
  (forall e, fst (Text.cycle it w) <> Panic e) /\
  (forall c, fst (Text.cycle it w) = Exit c -> c = 1%Z).
Proof.
  unfold Text.cycle, mbind, M_bind, emit, os_Exit.
  destruct (response it); cbn [fst snd files];
    (split; [reflexivity | split; [discriminate | intros c H; congruence]]).
Qed.

Lemma asset_exit_code (ParseFloat : string -> option float) (gonum : plot.Library)
      (resData : Response) (now : string -> time.Time) (key : string) (w : World)
      (c : Z) :
  fst (Chart.asset ParseFloat gonum resData now key w) = Exit c -> c = 1%Z.
Proof.
  rewrite asset_run. cbv zeta.
  destruct (files w !! (".data." +:+ key)) as [[c1|]|]; [| discriminate |].
  all: match goal with
       | |- context [Chart.fetchPoints ?P ?n ?f ?w1] =>
           rewrite (fetchPoints_spec P n f w1)
       end; cbn [files]; rewrite lookup_insert_eq; cbv zeta;
    (destruct (series_from _ 0 _); [discriminate |]);
    (destruct (_ <=? _)%Z; cbn [fst]; [| discriminate]);
    (destruct (plot.NewLinePoints gonum _); [discriminate |]);
    destruct (fst (plot.Save gonum _ _ _ _)); cbn [fst]; congruence.
Qed.

Lemma chart_cycle_exit_code (ParseFloat : string -> option float)
      (gonum : plot.Library) (it : iteration) (w : World) (c : Z) :
  fst (Chart.cycle ParseFloat gonum it w) = Exit c -> c = 1%Z.
Proof.
  unfold Chart.cycle. rewrite bind_unfold. unfold emit at 1. cbv beta iota.
  destruct (response it) as [| |resData]; [cbn; congruence | cbn; congruence |].
  cbv zeta. rewrite bind_unfold.
  set (w1 := {| files := files w; trace := trace w ++ [Get] |}).
  assert (forall keys w0 c0,
             fst (for_each (Chart.asset ParseFloat gonum resData (now it)) keys w0)
             = Exit c0 -> c0 = 1%Z) as Hfor.
  { induction keys as [|key keys IH]; intros w0 c0; cbn [for_each].
    - cbn. discriminate.
    - rewrite bind_unfold.
      pose proof (asset_exit_code ParseFloat gonum resData (now it) key w0) as Hone.
      destruct (Chart.asset ParseFloat gonum resData (now it) key w0)
        as [[[]|e|c1|] w2]; cbn [fst] in *; try discriminate.
      + apply IH.
      + intros [= <-]. apply Hone. reflexivity. }
  pose proof (Hfor (sort.Strings (collect_keys (range_order it))) w1 c) as H.
  destruct (for_each _ _ w1) as [[[]|e|c'|] w2]; cbn [fst] in *;
    try discriminate; exact H.
Qed.

Lemma text_pollApi_ends (chat : option Z) (env : list iteration) (w : World) :
  files (snd (Text.pollApi chat env w)) = files w /\
  (forall e, fst (Text.pollApi chat env w) <> Panic e) /\
  (forall c, fst (Text.pollApi chat env w) = Exit c -> c = 1%Z) /\
  (fst (Text.pollApi chat env w) = Return tt ->
   chat <> None /\ Exists (fun it => stop_ready it = true) env).
Proof.
  unfold Text.pollApi.
  destruct (pollApi_with_outcome Text.cycle chat env w) as [-> ->].
  destruct chat as [c|].
  - split; [| split; [| split]].
    + apply loop_files. intros it w0. apply text_cycle_outcome.
    + apply loop_no_panic. intros it w0. apply text_cycle_outcome.
    + apply loop_exit_code. intros it w0. apply text_cycle_outcome.
    + intros H. split; [discriminate | exact (loop_returns_on_signal _ _ _ H)].
  - repeat split; try discriminate. congruence.
Qed.

Lemma chart_pollApi_ends (ParseFloat : string -> option float) (gonum : plot.Library)
      (chat : option Z) (env : list iteration) (w : World) :
  (forall c, fst (Chart.pollApi ParseFloat gonum chat env w) = Exit c -> c = 1%Z) /\
  (fst (Chart.pollApi ParseFloat gonum chat env w) = Return tt ->
   chat <> None /\ Exists (fun it => stop_ready it = true) env).
Proof.
  unfold Chart.pollApi.
  destruct (pollApi_with_outcome (Chart.cycle ParseFloat gonum) chat env w) as [-> _].
  destruct chat as [c|].
  - split.
    + apply loop_exit_code. intros it w0. apply chart_cycle_exit_code.
    + intros H. split; [discriminate | exact (loop_returns_on_signal _ _ _ H)].
  - split; [congruence | discriminate].
Qed.

(** The text variant never panics and never touches a file; when it ends
    the process the status is 1, and it returns only when the channel id
    was resolved and a stop signal was found. *)
Theorem text_pollApi_outcomes (chat : option Z) (env : list iteration) (w : World) :
  files (snd (Text.pollApi chat env w)) = files w /\
  (forall e, fst (Text.pollApi chat env w) <> Panic e) /\
  (forall c, fst (Text.pollApi chat env w) = Exit c -> c = 1%Z) /\
  (fst (Text.pollApi chat env w) = Return tt ->
   chat <> None /\ Exists (fun it => stop_ready it = true) env).
Proof. apply text_pollApi_ends. Qed.


Lemma unsignalled_never_ready (env : list turn) :
  ~ Exists (fun it => stop_ready it = true) (unsignalled <$> env).
Proof.
  intros H. apply Exists_exists in H as (it & Hin & Hready).
  apply list_elem_of_fmap in Hin as (t & -> & _). discriminate.
Qed.

(** [main] never returns: nothing sends on the stop channel, so the bot
    runs until a request fails or, in the chart variant, a panic; the text
    variant ends with status 1 or not at all, and leaves every file as it
    was. *)
Theorem main_never_returns (s : startup) (env : list turn) (w : World) :
  (fst (main_text s env w) = Exit 1 \/ fst (main_text s env w) = Pending) /\
  files (snd (main_text s env w)) = files w /\
  (forall (ParseFloat : string -> option float) (gonum : plot.Library),
      fst (main_chart ParseFloat gonum s env w) <> Return tt /\
      forall c, fst (main_chart ParseFloat gonum s env w) = Exit c -> c = 1%Z).
Proof.
  unfold main_text, main_chart, main_with.
  destruct (dotenv_loaded s); cbn [negb];
    [| split; [left; reflexivity | split; [reflexivity |]];
       intros P g; split; [discriminate | cbn; congruence]].
  destruct (bot_created s); cbn [negb];
    [| split; [left; reflexivity | split; [reflexivity |]];
       intros P g; split; [discriminate | cbn; congruence]].
  split; [| split].
  - destruct (text_pollApi_ends (chat_id s) (unsignalled <$> env) w)
      as (_ & Hpanic & Hexit & Hret).
    destruct (fst (Text.pollApi (chat_id s) (unsignalled <$> env) w)) as [[]|e|c|].
    + exfalso. destruct (Hret eq_refl) as [_ H].
      exact (unsignalled_never_ready env H).
    + exfalso. exact (Hpanic e eq_refl).
    + left. rewrite (Hexit c eq_refl). reflexivity.
    + right. reflexivity.
  - apply text_pollApi_ends.
  - intros P g.
    destruct (chart_pollApi_ends P g (chat_id s) (unsignalled <$> env) w)
      as (Hexit & Hret).
    split; [| exact Hexit].
    intros H. destruct (Hret H) as [_ H']. exact (unsignalled_never_ready env H').
Qed.

(** ** The files only grow, the pictures apart *)









(** ** One line per asset and cycle *)

Lemma append_inj_r (s t1 t2 : string) : s +:+ t1 = s +:+ t2 -> t1 = t2.
Proof.
  induction s as [|c s IH]; intros H.
  - rewrite !append_nil_l in H. exact H.
  - rewrite !append_cons in H. injection H as H. exact (IH H).
Qed.

Lemma asset_files (ParseFloat : string -> option float) (gonum : plot.Library)
      (resData : Response) (now : string -> time.Time) (key : string) (w : World) :
  fst (Chart.asset ParseFloat gonum resData now key w) = Return tt ->
  exists n : option node,
    files (snd (Chart.asset ParseFloat gonum resData now key w))
    = partial_alter (fun _ => n) (key +:+ ".png")
        (<[".data." +:+ key :=
             RegularFile (file_content w (".data." +:+ key) +:+
                          sample_line resData now key)]> (files w)).
Proof.
  rewrite asset_run. cbv zeta. unfold sample_line.
  destruct (files w !! (".data." +:+ key)) as [[c|]|]; [| discriminate |].
  all: destruct (fst (Chart.fetchPoints _ _ _ _)); try discriminate;
    (destruct (plot.NewLinePoints gonum _); [discriminate |]);
    (destruct (plot.Save gonum _ _ _ _) as [[|e|e] n]; try discriminate);
    intros _; exists n; cbn [snd files]; rewrite !append_assoc; reflexivity.
Qed.

Lemma for_each_asset_files (ParseFloat : string -> option float)
      (gonum : plot.Library) (resData : Response) (now : string -> time.Time)
      (keys : list string) (key : string) :
  NoDup keys ->
  (forall k, k ∈ keys -> k +:+ ".png" <> ".data." +:+ key) ->
  forall w,
    fst (for_each (Chart.asset ParseFloat gonum resData now) keys w) = Return tt ->
    file_content (snd (for_each (Chart.asset ParseFloat gonum resData now) keys w))
                 (".data." +:+ key)
    = if bool_decide (key ∈ keys)
      then file_content w (".data." +:+ key) +:+ sample_line resData now key
      else file_content w (".data." +:+ key).
Proof.
  induction 1 as [|k ks Hk Hks IH]; intros Hpng w; cbn [for_each].
  - intros _. rewrite bool_decide_eq_false_2 by apply not_elem_of_nil.
    reflexivity.
  - rewrite bind_unfold.
    pose proof (asset_files ParseFloat gonum resData now k w) as Hfiles.
    destruct (Chart.asset ParseFloat gonum resData now k w) as [[[]|e|c|] w1];
      cbn [fst snd] in *; try discriminate.
    destruct (Hfiles eq_refl) as [n Hn]. clear Hfiles. intros Hret.
    rewrite (IH ltac:(intros k' Hk'; apply Hpng, list_elem_of_further, Hk') w1 Hret).
    assert (files w1 !! (".data." +:+ key)
            = <[".data." +:+ k :=
                  RegularFile (file_content w (".data." +:+ k) +:+
                               sample_line resData now k)]> (files w)
              !! (".data." +:+ key)) as Hlook.
    { rewrite Hn. apply lookup_partial_alter_ne.
      apply Hpng. apply list_elem_of_here. }
    destruct (decide (key = k)) as [->|Hne].
    + rewrite (bool_decide_eq_false_2 _ Hk), bool_decide_eq_true_2 by apply list_elem_of_here.
      unfold file_content at 1. rewrite Hlook, lookup_insert_eq. reflexivity.
    + assert (file_content w1 (".data." +:+ key) = file_content w (".data." +:+ key))
        as Hother.
      { unfold file_content. rewrite Hlook, lookup_insert_ne; [reflexivity |].
        intros Heq. apply append_inj_r in Heq. congruence. }
      rewrite Hother.
      destruct (decide (key ∈ ks)) as [Hin|Hnin].
      * rewrite !bool_decide_eq_true_2; [reflexivity | | exact Hin].
        apply list_elem_of_further. exact Hin.
      * rewrite !bool_decide_eq_false_2; [reflexivity | | exact Hnin].
        intros Hin. apply elem_of_cons in Hin as [?|?]; contradiction.
Qed.

(** A chart cycle that comes back has added to the history of each asset
    of the response one line, its sample, and has left the history of
    every other key as it was; this for a history that is not the picture
    of an asset of the response, a name that only a key beginning with
    [".data."] gives a picture. *)
Theorem chart_cycle_one_line_each (ParseFloat : string -> option float)
        (gonum : plot.Library) (it : iteration) (resData : Response) (w : World)
        (key : string) :
  response it = Decoded resData ->
  ranges (Data resData) (range_order it) ->
  (forall k, is_Some (Data resData !! k) -> k +:+ ".png" <> ".data." +:+ key) ->
  fst (Chart.cycle ParseFloat gonum it w) = Return tt ->
  file_content (snd (Chart.cycle ParseFloat gonum it w)) (".data." +:+ key)
  = match Data resData !! key with
    | Some _ => file_content w (".data." +:+ key) +:+ sample_line resData (now it) key
    | None => file_content w (".data." +:+ key)
    end.
Proof.
  intros Hresp Hrange Hpng.
  set (w1 := {| files := files w; trace := trace w ++ [Get] |}).
  rewrite (cycle_decoded ParseFloat gonum it resData w Hresp). fold w1.
  assert (NoDup (sort.Strings (range_order it))) as Hnodup.
  { rewrite sort_Strings_perm. unfold ranges in Hrange. rewrite Hrange.
    apply NoDup_fst_map_to_list. }
  assert (forall k, k ∈ sort.Strings (range_order it) <-> is_Some (Data resData !! k))
    as Hin.
  { intros k. rewrite sort_Strings_perm. unfold ranges in Hrange. rewrite Hrange.
    rewrite list_elem_of_fmap. split.
    - intros ([k' v] & -> & Hkv). apply elem_of_map_to_list in Hkv. eauto.
    - intros [v Hv]. exists (k, v). split; [reflexivity |].
      apply elem_of_map_to_list. exact Hv. }
  pose proof (for_each_asset_files ParseFloat gonum resData (now it) _ key Hnodup
                ltac:(intros k Hk; apply Hpng, Hin, Hk) w1) as Hfor.
  destruct (for_each _ _ w1) as [[[]|e|c|] w2]; cbn [fst snd] in *; try discriminate.
  intros _. specialize (Hfor eq_refl).
  change (file_content {| files := files w2; trace := trace w2 ++ [Sleep 15] |}
                       (".data." +:+ key))
    with (file_content w2 (".data." +:+ key)).
  rewrite Hfor.
  change (file_content w1 (".data." +:+ key)) with (file_content w (".data." +:+ key)).
  destruct (Data resData !! key) as [v|] eqn:Hk.
  - rewrite bool_decide_eq_true_2; [reflexivity | apply Hin; rewrite Hk; eauto].
  - rewrite bool_decide_eq_false_2; [reflexivity |].
    intros H. apply Hin in H. rewrite Hk in H. destruct H as [v Hv]. discriminate.
Qed.

(** Witness: the first cycle of an asset whose history does not exist. *)
Lemma chart_cycle_one_line_each_witness :
  let resData :=
    {| RStatus := {| Timestamp := ""; ErrorCode := 0; ErrorMessage := None;
                     Elapsed := 0; CreditCount := 1; Notice := None |};
       Data := {[ "1027" := zeroCryptoData ]} |} in
  let it :=
    {| stop_ready := false; response := Decoded resData; range_order := ["1027"];
       now := fun _ => {| time.Year := 2024; time.Month := 1; time.Day := 1;
                          time.Hour := 0 |} |} in
  file_content (snd (Chart.cycle strconv.ParseFloat drawing it {| files := ∅; trace := [] |}))
               (".data." +:+ "1027")
  = lit "2024-01-01 00:00:00|0.00\n".
Proof.
  cbv zeta.
  match goal with
  | |- file_content (snd (Chart.cycle _ _ ?it ?w)) _ = _ =>
      rewrite (chart_cycle_one_line_each strconv.ParseFloat drawing it
                 {| RStatus := {| Timestamp := ""; ErrorCode := 0;
                                  ErrorMessage := None; Elapsed := 0;
                                  CreditCount := 1; Notice := None |};
                    Data := {[ "1027" := zeroCryptoData ]} |}
                 w "1027" eq_refl)
  end.
  - vm_compute. reflexivity.
  - unfold ranges. vm_compute. reflexivity.
  - intros k [v Hv]. cbn [Data] in Hv.
    apply lookup_singleton_Some in Hv as [<- _]. discriminate.
  - vm_compute. reflexivity.
Defined.

(** ** A panic ends the cycle *)

Lemma for_each_app {A} (body : A -> M unit) (l1 l2 : list A) (w : World) :
  for_each body (l1 ++ l2) w =
  match for_each body l1 w with
  | (Return _, w1) => for_each body l2 w1
  | (Panic e, w1) => (Panic e, w1)
  | (Exit c, w1) => (Exit c, w1)
  | (Pending, w1) => (Pending, w1)
  end.
Proof.
  revert w. induction l1 as [|a l1 IH]; intros w; cbn [app for_each].
  - reflexivity.
  - rewrite !bind_unfold. destruct (body a w) as [[[]|e|c|] w1]; try reflexivity.
    apply IH.
Qed.

(** When an asset panics, the cycle ends there: the assets that sort
    before it have their samples and photos, the assets after it get
    neither, and there is no sleep. *)
Theorem chart_cycle_panic_stops (ParseFloat : string -> option float) (gonum : plot.Library)
        (it : iteration) (resData : Response) (w : World)
        (before : list string) (key : string) (after : list string) (e : error) :
  response it = Decoded resData ->
  sort.Strings (range_order it) = before ++ key :: after ->
  let w1 := {| files := files w; trace := trace w ++ [Get] |} in
  let done := for_each (Chart.asset ParseFloat gonum resData (now it)) before w1 in
  fst done = Return tt ->
  fst (Chart.asset ParseFloat gonum resData (now it) key (snd done)) = Panic e ->
  Chart.cycle ParseFloat gonum it w
  = (Panic e, snd (Chart.asset ParseFloat gonum resData (now it) key (snd done))).
Proof.
  intros Hresp Hkeys w1 done Hdone Hpanic.
  rewrite (cycle_decoded ParseFloat gonum it resData w Hresp). fold w1.
  rewrite Hkeys, for_each_app. fold done.
  destruct done as [[[]|e1|c1|] w2]; cbn [fst snd] in *; try discriminate.
  cbn [for_each]. rewrite bind_unfold.
  destruct (Chart.asset ParseFloat gonum resData (now it) key w2) as [[[]|e2|c2|] w3];
    cbn [fst snd] in *; try discriminate.
  congruence.
Qed.

(** Witness: the history of the first of two assets is corrupt; the
    second asset gets no sample. *)
Lemma chart_cycle_panic_stops_witness :
  let resData :=
    {| RStatus := {| Timestamp := ""; ErrorCode := 0; ErrorMessage := None;
                     Elapsed := 0; CreditCount := 1; Notice := None |};
       Data := {[ "1027" := zeroCryptoData; "5426" := zeroCryptoData ]} |} in
  let it :=
    {| stop_ready := false; response := Decoded resData;
       range_order := ["5426"; "1027"];
       now := fun _ => {| time.Year := 2024; time.Month := 1; time.Day := 1;
                          time.Hour := 0 |} |} in
  Chart.cycle strconv.ParseFloat drawing it (world_with ".data.1027" (lit "corrupt\n"))
  = (Panic (IndexOutOfRange 1 1),
     {| files := {[ ".data.1027" :=
                      RegularFile (lit "corrupt\n2024-01-01 00:00:00|0.00\n") ]};
        trace := [Get] |}).
Proof.
  cbv zeta.
  match goal with
  | |- Chart.cycle _ _ ?it ?w = _ =>
      rewrite (chart_cycle_panic_stops strconv.ParseFloat drawing it
                 {| RStatus := {| Timestamp := ""; ErrorCode := 0;
                                  ErrorMessage := None; Elapsed := 0;
                                  CreditCount := 1; Notice := None |};
                    Data := {[ "1027" := zeroCryptoData; "5426" := zeroCryptoData ]} |}
                 w [] "1027" ["5426"] (IndexOutOfRange 1 1) eq_refl)
  end.
  - vm_compute. reflexivity.
  - vm_compute. reflexivity.
  - reflexivity.
  - vm_compute. reflexivity.
Defined.

(** ** The caption in cents *)

(** The whole caption is decided by the cents of its four numbers, and a
    change under the green marker is never shown with a minus sign. *)
Theorem buildPriceString_in_cents (token : string) (price c1 c24 c7 : float) :
  moderate price -> moderate c1 -> moderate c24 -> moderate c7 ->
  buildPriceString token price c1 c24 c7
  = token +:+ ": " +:+ shown price +:+ lit "\n" +:+
    shown_block "1h" c1 +:+ shown_block "24h" c24 +:+ shown_block "7d" c7 +:+
    lit "\n"
  /\ (forall pct : float, (0 <? pct)%float = true -> signbit pct = false).
Proof.
  intros [Hp1 Hp2] [H11 H12] [H21 H22] [H31 H32]. split.
  - unfold buildPriceString, shown_block, shown.
    destruct (0 <? c1)%float, (0 <? c24)%float, (0 <? c7)%float;
      cbv [Builder.WriteString Builder.empty Builder.String fmt.Sprintf lit nl
           fmt.parse_format fmt.sprintf_go];
      rewrite (proj2 (FormatFloat_f2_of_cents price Hp1 Hp2)),
              (proj2 (FormatFloat_f2_of_cents c1 H11 H12)),
              (proj2 (FormatFloat_f2_of_cents c24 H21 H22)),
              (proj2 (FormatFloat_f2_of_cents c7 H31 H32));
      string_norm; reflexivity.
  - intros pct Hpos. apply ltb_zero_above in Hpos.
    unfold above_zero, signbit in *.
    destruct (Prim2SF pct) as [s|[]| |[] m e]; try contradiction; reflexivity.
Qed.

(** Witness: a price, a rise, a flat hour and a fall. *)
Lemma buildPriceString_in_cents_witness :
  buildPriceString "Ethereum" 1234.567 0.5 0 (-1.005)
  = "Ethereum" +:+
    lit ": 1234.57\n🟩 1h:\n0.50%\n🟥 24h:\n0.00%\n🟥 7d:\n-1.00%\n\n".
Proof.
  rewrite (proj1 (buildPriceString_in_cents "Ethereum" 1234.567 0.5 0 (-1.005)
                    ltac:(split; [exact I | apply B2R_le_bpow, Z.leb_le; vm_compute; reflexivity])
                    ltac:(split; [exact I | apply B2R_le_bpow, Z.leb_le; vm_compute; reflexivity])
                    ltac:(split; [exact I | apply B2R_le_bpow, Z.leb_le; vm_compute; reflexivity])
                    ltac:(split; [exact I | apply B2R_le_bpow, Z.leb_le; vm_compute; reflexivity]))).
  vm_compute. reflexivity.
Defined.

(** ** What a returned series is *)




(** ** A picture that cannot be saved ends the process *)

(** When [p.Save] returns an error for an asset, [log.Fatal] ends the
    process with status 1 there: the assets that sort before it have
    their samples and photos, this asset has its sample and no photo, the
    assets after it get nothing, there is no sleep, and [pollApi] ends
    without releasing its completion handle. *)
Theorem chart_cycle_save_error_exits (ParseFloat : string -> option float)
        (gonum : plot.Library) (it : iteration) (resData : Response) (w : World)
        (before : list string) (key : string) (after : list string)
        (pts : list XY) (e : error) (chat : Z) (env : list iteration) :
  response it = Decoded resData -> stop_ready it = false ->
  sort.Strings (range_order it) = before ++ key :: after ->
  let value := map_get (Data resData) zeroCryptoData key in
  let w0 := {| files := files w; trace := trace w ++ [Select false; Get] |} in
  let done := for_each (Chart.asset ParseFloat gonum resData (now it)) before w0 in
  let fname := ".data." +:+ key in
  let stored :=
    <[fname := RegularFile (file_content (snd done) fname +:+
                            sample_line resData (now it) key)]> (files (snd done)) in
  let r := plot.Save gonum (CName value) pts (key +:+ ".png")
                     (stored !! (key +:+ ".png")) in
  fst done = Return tt ->
  files (snd done) !! fname <> Some Directory ->
  fst (Chart.fetchPoints ParseFloat (CName value) fname
         {| files := stored; trace := trace (snd done) |}) = Return pts ->
  plot.NewLinePoints gonum pts = None ->
  fst r = plot.SaveError e ->
  Chart.pollApi ParseFloat gonum (Some chat) (it :: env) w
  = (Exit 1,
     {| files := partial_alter (fun _ => snd r) (key +:+ ".png") stored;
        trace := trace (snd done) |}).
Proof.
  intros Hresp Hready Hkeys value w0 done fname stored r Hdone Hdir Hpts Hline Hsave.
  unfold Chart.pollApi, pollApi_with, with_defer.
  rewrite loop_cons, Hready. cbv zeta.
  rewrite (cycle_decoded ParseFloat gonum it resData _ Hresp). cbn [files trace].
  rewrite <- app_assoc. cbn [app]. fold w0.
  rewrite Hkeys, for_each_app. fold done.
  destruct done as [[[]|e1|c1|] w2] eqn:Hd; cbn [fst snd] in *; try discriminate.
  cbn [for_each]. rewrite bind_unfold, asset_run. cbv zeta.
  unfold sample_line in stored. fold value. fold fname.
  assert (forall o : outcome unit * World, match files w2 !! fname with
                    | Some Directory => (Panic (EISDIR "open" fname), w2)
                    | _ => o
                    end = o) as Hnodir.
  { intros o. destruct (files w2 !! fname) as [[c|]|]; try reflexivity. congruence. }
  rewrite Hnodir.
  replace (<[fname := RegularFile
               (file_content w2 fname +:+
                (time.Format (now it key) +:+ "|" +:+
                 fmt.FormatFloat_f2 (Price (map_get (CQuote value) zeroQuote "USD"))) +:+
                lit "\n")]> (files w2)) with stored
    by (unfold stored; rewrite !append_assoc; reflexivity).
  rewrite Hpts, Hline. fold r. rewrite Hsave. reflexivity.
Qed.

(** Witness: a directory stands where the picture of 1027 should go. *)
Lemma chart_cycle_save_error_exits_witness :
  let resData :=
    {| RStatus := {| Timestamp := ""; ErrorCode := 0; ErrorMessage := None;
                     Elapsed := 0; CreditCount := 1; Notice := None |};
       Data := {[ "1027" := zeroCryptoData ]} |} in
  let it :=
    {| stop_ready := false; response := Decoded resData; range_order := ["1027"];
       now := fun _ => {| time.Year := 2024; time.Month := 1; time.Day := 1;
                          time.Hour := 0 |} |} in
  Chart.pollApi strconv.ParseFloat drawing (Some 42%Z) [it]
    {| files := {[ "1027.png" := Directory ]}; trace := [] |}
  = (Exit 1,
     {| files := {[ "1027.png" := Directory;
                    ".data.1027" := RegularFile (lit "2024-01-01 00:00:00|0.00\n") ]};
        trace := [Select false; Get] |}).
Proof.
  cbv zeta.
  match goal with
  | |- Chart.pollApi _ _ _ [?it] ?w = _ =>
      rewrite (chart_cycle_save_error_exits strconv.ParseFloat drawing it
                 {| RStatus := {| Timestamp := ""; ErrorCode := 0;
                                  ErrorMessage := None; Elapsed := 0;
                                  CreditCount := 1; Notice := None |};
                    Data := {[ "1027" := zeroCryptoData ]} |}
                 w [] "1027" [] [{| X := 0; Y := 0 |}] (EISDIR "open" "1027.png")
                 42%Z [] eq_refl eq_refl)
  end.
  - vm_compute. reflexivity.
  - vm_compute. reflexivity.
  - reflexivity.
  - vm_compute. discriminate.
  - vm_compute. reflexivity.
  - vm_compute. reflexivity.
  - vm_compute. reflexivity.
Defined.
